(** * nonebot-plugin-anipusher: the push pipeline

    A shallow embedding of the push pipeline of the plugin
    (core/pushprocess): the merge buffer ([push_buffer.py]), the
    normalizer ([data_picker.py]), the image selector
    ([image_selector.py]) and the orchestrator ([push_manager.py]),
    together with the properties of these components; and of two of
    their collaborators, the line renderers of [message_factory.py] and
    the upsert and select generators of
    [database/statement_generator.py].

    Conventions of the embedding.
    - Python values are the terms of [Py.value]; a dict with string keys
      is a [gmap string value], or a list of pairs in insertion order
      where the order of the keys decides the result.  Floats are not
      part of the universe.
    - A Python [str] is a [string], i.e. its UTF-8 bytes.  Case
      conversion, whitespace and the regular-expression class [\d] are
      the ASCII ones; text with non-ASCII digits, whitespace or cased
      letters is read through that approximation.
    - Code that may raise lives in the monad [Py.result]; [try]/[except]
      is [Py.catch].
    - What the plugin gets from outside (CPython's [repr] of containers,
      [json.loads], [datetime], the store, the transport, the network,
      configuration) is a [Variable] of a [Section] or a field of an
      oracle record: the theorems hold for every behaviour of it. *)

From stdpp Require Import gmap strings list fin_maps sorting.
From Stdlib Require Import ZArith Lia DecimalString Ascii.

#[local] Set Warnings "-register-all".
#[local] Open Scope Z_scope.

(* ===================================================================== *)
(** ** Python values and the builtins the pipeline uses                   *)
(* ===================================================================== *)

Module Py.

Inductive value : Type :=
| VNone
| VBool (b : bool)
| VInt (z : Z)
| VStr (s : string)
| VList (l : list value)
| VDict (d : gmap string value).

(** The exceptions that the modelled code can meet. *)
Inductive exn : Type :=
| ValueError | TypeError | AttributeError | IndexError | JSONDecodeError
| AppError (msg : string) | OtherError.

Inductive result (A : Type) : Type :=
| Ok (a : A)
| Raise (e : exn).
Arguments Ok {A} a.
Arguments Raise {A} e.

Definition bind {A B} (m : result A) (k : A → result B) : result B :=
  match m with Ok a => k a | Raise e => Raise e end.

(** [try: m except Exception: h] *)
Definition catch {A} (m : result A) (h : exn → result A) : result A :=
  match m with Ok a => Ok a | Raise e => h e end.

Definition raises {A} (m : result A) : Prop := ∃ e, m = Raise e.
Definition returns {A} (m : result A) : Prop := ∃ a, m = Ok a.

(** [bool(v)] *)
Definition truthy (v : value) : bool :=
  match v with
  | VNone => false
  | VBool b => b
  | VInt z => negb (z =? 0)
  | VStr s => negb (String.eqb s "")
  | VList l => match l with [] => false | _ => true end
  | VDict d => negb (bool_decide (d = ∅))
  end.

(** [a or b] *)
Definition py_or (a b : value) : value := if truthy a then a else b.

(** [d.get(k)] and [d.get(k, dflt)] on a dict. *)
Definition get (d : gmap string value) (k : string) : value :=
  default VNone (d !! k).
Definition get_or (d : gmap string value) (k : string) (dflt : value) : value :=
  default dflt (d !! k).

(** *** Characters and strings *)

Definition is_digit (c : ascii) : bool :=
  let n := nat_of_ascii c in ((48 <=? n) && (n <=? 57))%nat.

Definition is_space (c : ascii) : bool :=
  let n := nat_of_ascii c in
  (((9 <=? n) && (n <=? 13)) || ((28 <=? n) && (n <=? 32)))%nat.

Definition lower_char (c : ascii) : ascii :=
  let n := nat_of_ascii c in
  if ((65 <=? n) && (n <=? 90))%nat then ascii_of_nat (n + 32) else c.

Definition upper_char (c : ascii) : ascii :=
  let n := nat_of_ascii c in
  if ((97 <=? n) && (n <=? 122))%nat then ascii_of_nat (n - 32) else c.

Fixpoint map_string (f : ascii → ascii) (s : string) : string :=
  match s with
  | EmptyString => EmptyString
  | String c r => String (f c) (map_string f r)
  end.

(** [s.lower()], [s.upper()] *)
Definition lower : string → string := map_string lower_char.
Definition upper : string → string := map_string upper_char.

Fixpoint lstrip (s : string) : string :=
  match s with
  | String c r => if is_space c then lstrip r else s
  | EmptyString => EmptyString
  end.

Fixpoint rstrip (s : string) : string :=
  match s with
  | EmptyString => EmptyString
  | String c r =>
      match rstrip r with
      | EmptyString => if is_space c then EmptyString else String c EmptyString
      | r' => String c r'
      end
  end.

(** [s.strip()] *)
Definition strip (s : string) : string := rstrip (lstrip s).

(** [needle in s] *)
Fixpoint contains (needle s : string) : bool :=
  String.prefix needle s ||
  match s with
  | EmptyString => false
  | String _ r => contains needle r
  end.

(** [sep.join(l)] *)
Definition join (sep : string) (l : list string) : string := String.concat sep l.

(** *** Integers and text *)

(** [str(z)] for an int. *)
Definition str_of_Z (z : Z) : string := NilZero.string_of_int (Z.to_int z).

Definition digit_val (c : ascii) : Z := Z.of_nat (nat_of_ascii c) - 48.

Fixpoint digits_acc (s : string) (acc : Z) : Z :=
  match s with
  | EmptyString => acc
  | String c r => digits_acc r (10 * acc + digit_val c)
  end.

(** [int(s)] for a string of decimal digits. *)
Definition int_of_digits (s : string) : Z := digits_acc s 0.

Fixpoint take_digits (s : string) : string :=
  match s with
  | String c r => if is_digit c then String c (take_digits r) else EmptyString
  | EmptyString => EmptyString
  end.

(** [re.search(r'\d+', s)]: the first maximal run of digits, if any. *)
Fixpoint search_digits (s : string) : option string :=
  match s with
  | EmptyString => None
  | String c r =>
      if is_digit c then Some (String c (take_digits r)) else search_digits r
  end.

Fixpoint all_digits (s : string) : bool :=
  match s with
  | EmptyString => true
  | String c r => is_digit c && all_digits r
  end.

(** [s.isdigit()] *)
Definition isdigit (s : string) : bool :=
  negb (String.eqb s "") && all_digits s.

(** The format specification [:02d]: sign-aware zero padding to width 2. *)
Definition fmt02d (z : Z) : string :=
  if (0 <=? z) && (z <? 10) then "0" +:+ str_of_Z z else str_of_Z z.

Section Str.
(** CPython's [repr] of a list or dict (element layout, quoting and
    escaping); no property of it is used. *)
Variable py_repr : value → string.

(** [str(v)] *)
Definition py_str (v : value) : string :=
  match v with
  | VNone => "None"
  | VBool true => "True"
  | VBool false => "False"
  | VInt z => str_of_Z z
  | VStr s => s
  | VList _ | VDict _ => py_repr v
  end.
End Str.

End Py.

Import Py.

#[global] Instance result_ret : MRet Py.result := λ A a, Py.Ok a.
#[global] Instance result_bind : MBind Py.result := λ A B k m, Py.bind m k.

(* ===================================================================== *)
(** ** push_buffer.py: the merge buffer                                   *)
(* ===================================================================== *)

Module PushBuffer.

(** The fixed labels of the source. *)
Definition UNKNOWN_RANGE : string := "未知".
Definition LABEL_LIBRARY_BATCH : string := "媒体库批量更新".
Definition LABEL_MERGED_DOWNLOAD : string := "下载合并推送".

(** One rendered run: [f"E{start:02d}"] or [f"E{start:02d}-E{end:02d}"]. *)
Definition render_run (start end_ : Z) : string :=
  if start =? end_ then "E" +:+ fmt02d start
  else "E" +:+ fmt02d start +:+ "-E" +:+ fmt02d end_.

(** The [for i in range(1, len(episode_numbers))] loop followed by the
    final append; [ranges], [start], [end_] are the loop's variables. *)
Fixpoint range_loop (rest : list Z) (ranges : list string) (start end_ : Z)
  : list string :=
  match rest with
  | [] => ranges ++ [render_run start end_]
  | x :: rest' =>
      if x =? end_ + 1 then range_loop rest' ranges start x
      else range_loop rest' (ranges ++ [render_run start end_]) x x
  end.

Definition _format_episode_range (episode_numbers : list Z) : string :=
  match episode_numbers with
  | [] => UNKNOWN_RANGE
  | [n] => "E" +:+ fmt02d n
  | n :: rest => join "," (range_loop rest [] n n)
  end.

(** [sorted(set(xs))] *)
Definition sorted_set (xs : list Z) : list Z :=
  merge_sort Z.le (elements (list_to_set xs : gset Z)).

Section WithRepr.
Variable py_repr : value → string.

Definition _extract_episode_number (episode_str : value) : Z :=
  if negb (truthy episode_str) then 0
  else match search_digits (py_str py_repr episode_str) with
       | Some m => int_of_digits m
       | None => 0
       end.

Definition _extract_season_number (season_str : value) : string :=
  if negb (truthy season_str) then "1"
  else if match season_str with
          | VStr s => String.eqb (lower (strip s)) "none"
          | _ => false
          end then "1"
  else match search_digits (py_str py_repr season_str) with
       | Some m => m
       | None => "1"
       end.

(** The body of [for ep in episodes]; the state is
    [(episode_numbers, season)]. *)
Definition scan_step (st : list Z * option string) (ep : gmap string value)
  : list Z * option string :=
  let '(episode_numbers, season) := st in
  let episode_num := _extract_episode_number (get_or ep "episode" (VStr "")) in
  let episode_numbers :=
    if episode_num =? 0 then episode_numbers
    else episode_numbers ++ [episode_num] in
  let season :=
    match season with
    | None => Some (_extract_season_number (get_or ep "season" (VStr "")))
    | Some s => Some s
    end in
  (episode_numbers, season).

Definition scan (episodes : list (gmap string value)) : list Z * option string :=
  foldl scan_step ([], None) episodes.

(** The action of the merged event, from the last event. *)
Definition merged_action (last_ep : gmap string value) : result value :=
  let action := get last_ep "action" in
  match get_or last_ep "source" (VStr "") with
  | VStr source =>
      if contains "EMBY" (upper source) then mret (VStr LABEL_LIBRARY_BATCH)
      else if negb (truthy action) then mret (VStr LABEL_MERGED_DOWNLOAD)
      else mret action
  | _ => Raise AttributeError
  end.

(** [merged.update({...})] followed by the conditional write of
    [merged['image']]; [merged] starts as a copy of the first event. *)
Definition update_merged (first last_ep : gmap string value)
    (title action : value) (season : option string) (episode_numbers : list Z)
  : gmap string value :=
  let first_image := get first "image" in
  let season_out :=
    match season with
    | Some s => if String.eqb s "" then "1" else s
    | None => "1"
    end in
  let merged :=
    <["timestamp" := get last_ep "timestamp"]>
    (<["action" := action]>
    (<["is_merged" := VBool true]>
    (<["episode_list" := VList (VInt <$> episode_numbers)]>
    (<["episode_range" := VStr (_format_episode_range episode_numbers)]>
    (<["episode_count" := VInt (Z.of_nat (length episode_numbers))]>
    (<["season" := VStr season_out]>
    (<["title" := title]> first))))))) in
  if truthy first_image then <["image" := first_image]> merged else merged.

Definition _merge_episodes (episodes : list (gmap string value)) (title : value)
  : result (gmap string value) :=
  let '(episode_numbers, season) := scan episodes in
  let episode_numbers := sorted_set episode_numbers in
  match head episodes, last episodes with
  | Some first, Some last_ep =>
      action ← merged_action last_ep;
      mret (update_merged first last_ep title action season episode_numbers)
  | _, _ => Raise IndexError
  end.

(** [f"{title}_S{season}"], the key of the bucket of an event. *)
Definition buffer_key (title : value) (episode_data : gmap string value) : string :=
  py_str py_repr title +:+ "_S"
  +:+ _extract_season_number (get_or episode_data "season" (VStr "1")).

(** [add_episode] on [self.buffer]: the event joins the bucket of its
    key, which is created on the first arrival.  (The debounce timer of
    the key is cancelled and armed again; timers are not part of this
    state.) *)
Definition add_episode (buffer : gmap string (list (gmap string value)))
    (title : value) (episode_data : gmap string value)
  : gmap string (list (gmap string value)) :=
  let key := buffer_key title episode_data in
  <[key := default [] (buffer !! key) ++ [episode_data]]> buffer.

(** [_delayed_push] once the timer of [key] has fired: the merged event
    handed to the callback, if any, and the buffer afterwards.  The
    bucket is removed whether or not the merge and the callback succeed. *)
Definition _delayed_push (buffer : gmap string (list (gmap string value)))
    (key : string)
  : option (result (gmap string value)) * gmap string (list (gmap string value)) :=
  match buffer !! key with
  | Some ((first :: _) as episodes) =>
      let title := get_or first "title" (VStr "未知标题") in
      (Some (_merge_episodes episodes title), delete key buffer)
  | _ => (None, buffer)
  end.

(** The buffers that arrivals and flushes can produce. *)
Inductive reachable : gmap string (list (gmap string value)) → Prop :=
| reachable_empty : reachable ∅
| reachable_add buffer title episode_data :
    reachable buffer → reachable (add_episode buffer title episode_data)
| reachable_flush buffer key :
    reachable buffer → reachable (_delayed_push buffer key).2.

End WithRepr.

(** The keys that [merged.update] writes. *)
Definition overwritten_keys : list string :=
  ["title"; "season"; "episode_count"; "episode_range"; "episode_list";
   "is_merged"; "action"; "timestamp"].

End PushBuffer.


(** *** The range format as the specification words it

    A sorted duplicate-free list is cut into its maximal contiguous runs;
    a run of length at least 2 is written [Eaa-Ebb], an isolated number
    [Enn], and the pieces are joined by commas in ascending order. *)

Module RangeSpec.

(** The run [a, a+1, ..., b] is the pair [(a, b)]. *)
Definition expand_run (r : Z * Z) : list Z := seqZ r.1 (r.2 - r.1 + 1).

Definition expand (rs : list (Z * Z)) : list Z := concat (expand_run <$> rs).

(** Consecutive runs are not adjacent: a number is missing between them. *)
Fixpoint separated (rs : list (Z * Z)) : Prop :=
  match rs with
  | r :: (r' :: _) as tl => r.2 + 1 < r'.1 ∧ separated tl
  | _ => True
  end.

(** [rs] is the decomposition of [l] into maximal contiguous runs. *)
Definition maximal_runs (l : list Z) (rs : list (Z * Z)) : Prop :=
  l = expand rs ∧ Forall (λ r, r.1 <= r.2) rs ∧ separated rs.

Definition run_length (r : Z * Z) : Z := r.2 - r.1 + 1.

Definition render (r : Z * Z) : string :=
  if 2 <=? run_length r
  then "E" +:+ Py.fmt02d r.1 +:+ "-E" +:+ Py.fmt02d r.2
  else "E" +:+ Py.fmt02d r.1.

Definition format_runs (rs : list (Z * Z)) : string :=
  Py.join "," (render <$> rs).

(** The decomposition, computed from the right. *)
Fixpoint runs_of (l : list Z) : list (Z * Z) :=
  match l with
  | [] => []
  | x :: l' =>
      match runs_of l' with
      | (a, b) :: rs => if a =? x + 1 then (x, b) :: rs else (x, x) :: (a, b) :: rs
      | [] => [(x, x)]
      end
  end.

End RangeSpec.

(** *** The merged event as the specification words it *)

Module MergeSpec.
Import PushBuffer.

(** The ten decimal digits, in order. *)
Definition decimal_digits : list ascii := String.list_ascii_of_string "0123456789".

(** A character is a decimal digit. *)
Definition is_decimal_digit (c : ascii) : bool :=
  existsb (Ascii.eqb c) decimal_digits.

(** The value of a decimal digit: its place among the ten. *)
Fixpoint place_of (c : ascii) (digits : list ascii) : Z :=
  match digits with
  | [] => 0
  | d :: r => if Ascii.eqb c d then 0 else 1 + place_of c r
  end.
Definition digit_of (c : ascii) : Z := place_of c decimal_digits.

(** A text from its first digit on; empty when it has no digit. *)
Fixpoint from_first_digit (l : list ascii) : list ascii :=
  match l with
  | [] => []
  | c :: r => if is_decimal_digit c then l else from_first_digit r
  end.

(** The digits a text starts with. *)
Fixpoint leading_digits (l : list ascii) : list ascii :=
  match l with
  | [] => []
  | c :: r => if is_decimal_digit c then c :: leading_digits r else []
  end.

(** The first digit run of a text: the digits from its first digit up
    to the next character that is not a digit; empty when the text has
    no digit. *)
Definition first_digit_run (s : string) : list ascii :=
  leading_digits (from_first_digit (String.list_ascii_of_string s)).

(** The number that a sequence of digits denotes in base ten; 0 for
    the empty sequence. *)
Fixpoint decimal_value (digits : list ascii) : Z :=
  match digits with
  | [] => 0
  | d :: r => digit_of d * 10 ^ Z.of_nat (length r) + decimal_value r
  end.

Section WithRepr.
Variable py_repr : value → string.

(** The episode number of an event: the first digit run of its
    [episode] field, 0 when the field is empty or has no digit. *)
Definition episode_number (ep : gmap string value) : Z :=
  _extract_episode_number py_repr (get_or ep "episode" (VStr "")).

(** The season number of an event: the first digit run of its [season]
    field, ["1"] by default. *)
Definition season_number (ep : gmap string value) : string :=
  _extract_season_number py_repr (get_or ep "season" (VStr "")).

(** The number that the specification reads off an event: its
    [episode] field, taken as text, is searched for its first digit
    run, and the run is read as a decimal number; an empty (falsy)
    field and a text without a digit give 0. *)
Definition first_run_number (ep : gmap string value) : Z :=
  let field := get_or ep "episode" (VStr "") in
  if truthy field
  then decimal_value (first_digit_run (py_str py_repr field))
  else 0.

(** The distinct positive episode numbers of the buffered events. *)
Definition distinct_positive_episodes (episodes : list (gmap string value))
  : gset Z :=
  list_to_set (filter (λ n, 0 < n) (first_run_number <$> episodes)).

(** The first season number among the events that is not the default
    ["1"]; ["1"] when there is none. *)
Definition first_non_default_season (episodes : list (gmap string value))
  : string :=
  default "1" (head (filter (λ s, s ≠ "1") (season_number <$> episodes))).
End WithRepr.

(** The last event's [source] is absent or a [str], so that
    [source.upper()] is defined. *)
Definition source_is_text (ep : gmap string value) : Prop :=
  ∃ src, get_or ep "source" (VStr "") = VStr src.

(** Stands for [repr] where no list or dict is converted to text. *)
Definition no_repr : value → string := λ _, "".

(** Sample events. *)
Definition library_event : gmap string value :=
  <["source" := VStr "EMBY"]> (<["action" := VStr "媒体更新已完成"]>
  (<["title" := VStr "Frieren"]> ∅)).

Definition feed_event (season episode : value) : gmap string value :=
  <["source" := VStr "ANIRSS"]> (<["action" := VStr "下载完成"]>
  (<["season" := season]> (<["episode" := episode]>
  (<["image" := VStr "/cache/209867.png"]> (<["title" := VStr "Frieren"]> ∅))))).

Definition two_events : list (gmap string value) :=
  [feed_event (VStr "2") (VStr "第 2 季 | 第 4 集");
   feed_event (VStr "2") (VStr "第 2 季 | 第 5 集")].

(** Four events of one season: episode 3 twice, episode 12, and one
    whose label has no digit. *)
Definition four_events : list (gmap string value) :=
  [feed_event (VStr "1") (VStr "第 3 集");
   feed_event (VStr "1") (VStr "第 3 集");
   feed_event (VStr "1") (VStr "第 12 集");
   feed_event (VStr "1") (VStr "OVA")].

End MergeSpec.

(* ===================================================================== *)
(** ** data_picker.py: the normalizer                                     *)
(* ===================================================================== *)

(** More builtins, used by the normalizer. *)
Module PyConv.

(** [isinstance(v, str)], [isinstance(v, list)], [isinstance(v, dict)] *)
Definition is_str (v : value) : bool := match v with VStr _ => true | _ => false end.
Definition is_list (v : value) : bool := match v with VList _ => true | _ => false end.
Definition is_dict (v : value) : bool := match v with VDict _ => true | _ => false end.
Definition is_none (v : value) : bool := match v with VNone => true | _ => false end.

(** [v == "text"] *)
Definition eq_str (v : value) (s : string) : bool :=
  match v with VStr t => String.eqb t s | _ => false end.

(** The grammar of [int(text)] after the sign: decimal digits, single
    underscores allowed between digits. *)
Fixpoint int_body_ok (s : string) (prev_digit : bool) : bool :=
  match s with
  | EmptyString => prev_digit
  | String c r =>
      if is_digit c then int_body_ok r true
      else if Ascii.eqb c "_" then prev_digit && int_body_ok r false
      else false
  end.

Fixpoint drop_underscores (s : string) : string :=
  match s with
  | EmptyString => EmptyString
  | String c r =>
      if Ascii.eqb c "_" then drop_underscores r else String c (drop_underscores r)
  end.

(** [int(s)] on text: [None] is [ValueError]. *)
Definition parse_int (s : string) : option Z :=
  let s := strip s in
  let '(negative, body) :=
    match s with
    | String c r =>
        if Ascii.eqb c "-" then (true, r)
        else if Ascii.eqb c "+" then (false, r)
        else (false, s)
    | EmptyString => (false, s)
    end in
  if int_body_ok body false
  then let n := int_of_digits (drop_underscores body) in
       Some (if negative then - n else n)
  else None.

(** [int(v)] *)
Definition py_int (v : value) : result Z :=
  match v with
  | VInt z => Ok z
  | VBool b => Ok (if b then 1 else 0)
  | VStr s => match parse_int s with Some z => Ok z | None => Raise ValueError end
  | VNone | VList _ | VDict _ => Raise TypeError
  end.

(** [except (ValueError, TypeError)] *)
Definition is_value_or_type_error (e : exn) : bool :=
  match e with ValueError | TypeError => true | _ => false end.

(** [s.split(sep)[0]] for a one-character separator. *)
Fixpoint before_char (sep : ascii) (s : string) : string :=
  match s with
  | EmptyString => EmptyString
  | String c r => if Ascii.eqb c sep then EmptyString else String c (before_char sep r)
  end.

(** The hash key of a hashable value; [True == 1] and [False == 0].
    Lists and dicts are unhashable. *)
Inductive hkey : Type := KNone | KInt (z : Z) | KStr (s : string).

#[global] Instance hkey_eq_dec : EqDecision hkey.
Proof. solve_decision. Defined.

Definition key_of (v : value) : result hkey :=
  match v with
  | VNone => Ok KNone
  | VBool b => Ok (KInt (if b then 1 else 0))
  | VInt z => Ok (KInt z)
  | VStr s => Ok (KStr s)
  | VList _ | VDict _ => Raise TypeError
  end.

(** [list(dict.fromkeys(l))]: first occurrences, in order. *)
Fixpoint fromkeys (l : list value) (seen : list hkey) : result (list value) :=
  match l with
  | [] => Ok []
  | v :: r =>
      k ← key_of v;
      if bool_decide (k ∈ seen) then fromkeys r seen
      else (r' ← fromkeys r (k :: seen); mret (v :: r'))
  end.

End PyConv.

Import PyConv.

(** Modelled from the spec: the enum [TableName] of the package's
    [mapping] module, with the members that the pipeline names and the
    values that the configuration model documents as target keys. *)
Inductive TableName : Type := ANIRSS | EMBY | ANIME.

Definition TableName_value (t : TableName) : string :=
  match t with ANIRSS => "ANIRSS" | EMBY => "EMBY" | ANIME => "ANIME" end.

#[global] Instance TableName_eq_dec : EqDecision TableName.
Proof. solve_decision. Defined.

Module DataPicker.

Section Picker.
(** CPython and the rest of the package. *)
Variable py_repr : value → string.
(** [json.loads] *)
Variable json_loads : string → result value.
(** [datetime.fromisoformat(s).strftime('%m-%d %H:%M:%S')] *)
Variable fromisoformat_strftime : string → result string.
(** [utils.generate_emby_image_url] and [APPCONFIG.emby_host] *)
Variable generate_emby_image_url : value → value → value → result value.
Variable emby_host : value.

(** The fields of the picker object. *)
Variable source : TableName.
Variable source_data : gmap string value.
Variable anime_data : gmap string value.

Definition feed_or_library : bool :=
  bool_decide (source = ANIRSS) || bool_decide (source = EMBY).

Definition _pick_id : result value :=
  let id := get source_data "id" in
  if feed_or_library && truthy id
  then (z ← py_int id; mret (VInt z))
  else mret VNone.

Definition _pick_title : result value :=
  let title := get source_data "title" in
  if feed_or_library && truthy title
  then mret (VStr (py_str py_repr title))
  else if truthy (VDict anime_data)
  then mret (py_or (get anime_data "emby_title") (get anime_data "tmdb_title"))
  else mret VNone.

(** The tail of [_pick_episode]: the season/episode template. *)
Definition episode_label (season episode : value) : result value :=
  if negb (is_none season) && negb (is_none episode)
  then catch
         (s ← py_int season;
          e ← py_int episode;
          mret (VStr ("第 " +:+ str_of_Z s +:+ " 季 | 第 " +:+ str_of_Z e +:+ " 集")))
         (λ ex, if is_value_or_type_error ex then mret VNone else Raise ex)
  else mret VNone.

Definition _pick_episode : result value :=
  match source with
  | ANIRSS =>
      episode_label (get source_data "season") (get source_data "episode")
  | EMBY =>
      let type := get source_data "type" in
      if negb (truthy type) then mret VNone
      else if eq_str type "Movie" then mret VNone
      else if eq_str type "Series" then
        let merged_episode := get source_data "merged_episode" in
        if truthy merged_episode
        then mret (VStr ("合计 " +:+ py_str py_repr merged_episode +:+ " 集更新"))
        else mret VNone
      else if eq_str type "Episode" then
        let season := get source_data "season" in
        let episode := get source_data "episode" in
        if negb (is_none season) && negb (is_none episode)
           && isdigit (py_str py_repr season) && isdigit (py_str py_repr episode)
        then episode_label season episode
        else mret VNone
      else mret VNone
  | _ => mret VNone
  end.

Definition _pick_episode_title : result value :=
  match source with
  | ANIRSS =>
      mret (py_or (get source_data "tmdb_episode_title")
              (py_or (get source_data "bangumi_episode_title")
                     (get source_data "bangumi_jpepisode_title")))
  | EMBY => mret (get source_data "episode_title")
  | _ => mret VNone
  end.

Definition _pick_timestamp : result value :=
  if feed_or_library then
    let timestamp := get source_data "timestamp" in
    if truthy timestamp then
      match timestamp with
      | VStr s => t ← fromisoformat_strftime s; mret (VStr t)
      | _ => Raise TypeError
      end
    else mret VNone
  else mret VNone.

Definition _pick_source : result value := mret (VStr (TableName_value source)).

Definition _pick_action : result value :=
  match source with
  | ANIRSS => mret (get source_data "action")
  | EMBY => mret (VStr "媒体更新已完成")
  | _ => mret VNone
  end.

(** [_pick_score] and [_pick_tmdb_id] share one shape. *)
Definition pick_raw_then_anime (key : string) : result value :=
  let raw := get source_data key in
  if feed_or_library && truthy raw then mret raw
  else let enr := get anime_data key in
       if truthy enr then mret enr else mret VNone.

Definition _pick_score : result value := pick_raw_then_anime "score".

Definition _pick_genres : result value :=
  let raw := get source_data "genres" in
  if bool_decide (source = EMBY) && truthy raw then mret raw
  else let enr := get anime_data "genres" in
       if truthy enr then mret enr else mret VNone.

Definition _pick_tmdb_id : result value := pick_raw_then_anime "tmdb_id".

Definition _pick_media_type : result value :=
  match source with
  | EMBY => mret (get source_data "type")
  | ANIRSS =>
      let season := get source_data "season" in
      let episode := get source_data "episode" in
      if truthy season && truthy episode then mret (VStr "Episode")
      else if truthy season then mret (VStr "Series")
      else mret VNone
  | _ => mret VNone
  end.

(** [str(int(season))], falling back to [str(season)]. *)
Definition season_text (season : value) : result value :=
  if negb (is_none season)
  then catch
         (z ← py_int season; mret (VStr (str_of_Z z)))
         (λ ex, if is_value_or_type_error ex
                then mret (if truthy season then VStr (py_str py_repr season) else VNone)
                else Raise ex)
  else mret VNone.

Definition _pick_season : result value :=
  match source with
  | EMBY =>
      if eq_str (get source_data "type") "Movie" then mret VNone
      else season_text (get source_data "season")
  | ANIRSS => season_text (get source_data "season")
  | _ => mret VNone
  end.

Definition _pick_subgroup : result value :=
  match source with ANIRSS => mret (get source_data "subgroup") | _ => mret VNone end.

Definition _pick_progress : result value :=
  match source with ANIRSS => mret (get source_data "progress") | _ => mret VNone end.

(** One round of [for key in ['premiere', 'PremiereDate']]. *)
Definition premiere_of (key : string) : option value :=
  match get source_data key with
  | VStr s =>
      if negb (String.eqb s "")
      then Some (VStr (if contains "T" s then before_char "T" s else s))
      else None
  | _ => None
  end.

Definition _pick_premiere : result value :=
  match premiere_of "premiere" with
  | Some v => mret v
  | None =>
      match premiere_of "PremiereDate" with
      | Some v => mret v
      | None =>
          let enr := get anime_data "premiere" in
          if truthy (VDict anime_data) && truthy enr
          then mret (VStr (py_str py_repr enr))
          else mret VNone
      end
  end.

(** The loop over [external_urls]: the first entry whose name matches
    and whose url is set. *)
Fixpoint scan_external_urls (name : string) (l : list value)
  : result (option value) :=
  match l with
  | [] => mret None
  | VDict url_obj :: rest =>
      match py_or (get url_obj "Name") (get_or url_obj "name" (VStr "")) with
      | VStr n =>
          if String.eqb (lower n) name then
            let url := py_or (get url_obj "Url") (get url_obj "url") in
            if truthy url then mret (Some url)
            else scan_external_urls name rest
          else scan_external_urls name rest
      | _ => Raise AttributeError
      end
  | _ :: rest => scan_external_urls name rest
  end.

(** [external_urls = source_data.get('external_urls', [])] and the scan,
    for the library source only. *)
Definition library_external_url (name : string) : result (option value) :=
  if bool_decide (source = EMBY) then
    match get_or source_data "external_urls" (VList []) with
    | VList l => scan_external_urls name l
    | _ => mret None
    end
  else mret None.

Definition _pick_bgmurl : result value :=
  let u1 := get source_data "bangumi_url" in
  if truthy u1 then mret u1 else
  let u2 := get source_data "bgmUrl" in
  if truthy u2 then mret u2 else
  found ← library_external_url "bangumi";
  match found with
  | Some url => mret url
  | None =>
      let from_provider :=
        if bool_decide (source = EMBY) then
          match get source_data "provider_ids" with
          | VDict provider_ids =>
              let bangumi_id := get provider_ids "Bangumi" in
              if truthy bangumi_id
              then Some (VStr ("https://bgm.tv/subject/" +:+ py_str py_repr bangumi_id))
              else None
          | _ => None
          end
        else None in
      match from_provider with
      | Some url => mret url
      | None =>
          let enr := get anime_data "bangumi_url" in
          if truthy (VDict anime_data) && truthy enr then mret enr
          else mret VNone
      end
  end.

(** The raw [tmdb_url]/[tmdbUrl], trimmed, when it is non-empty text. *)
Definition raw_tmdb_url : option string :=
  match py_or (get source_data "tmdb_url") (get source_data "tmdbUrl") with
  | VStr s =>
      if negb (String.eqb s "") && negb (String.eqb (strip s) "")
      then Some (strip s) else None
  | _ => None
  end.

(** ["tv" if media_type and media_type.lower() != 'movie' else "movie"] *)
Definition type_path (media_type : value) : result string :=
  if truthy media_type then
    match media_type with
    | VStr s => mret (if negb (String.eqb (lower s) "movie") then "tv" else "movie")
    | _ => Raise AttributeError
    end
  else mret "movie".

Definition TMDB_BASE : string := "https://www.themoviedb.org".

Definition _pick_tmdb_url : result value :=
  match raw_tmdb_url with
  | Some url => mret (VStr url)
  | None =>
      found ← library_external_url "themoviedb";
      match found with
      | Some url => mret url
      | None =>
          tmdb_id ← _pick_tmdb_id;
          if truthy tmdb_id then
            media_type ← _pick_media_type;
            tp ← type_path media_type;
            mret (VStr (TMDB_BASE +:+ "/" +:+ tp +:+ "/" +:+ py_str py_repr tmdb_id))
          else mret VNone
      end
  end.

(** The nested helper [_parse_config_field]; [expected] is the
    [isinstance] test for the expected type. *)
Definition _parse_config_field (field_name : string) (expected : value → bool)
    (default_value : value) : result value :=
  let raw_data := get_or anime_data field_name default_value in
  if is_none raw_data then mret default_value
  else if expected raw_data then mret raw_data
  else match raw_data with
       | VStr s =>
           catch
             (parsed ← json_loads s;
              if expected parsed then mret parsed else mret default_value)
             (λ ex, match ex with
                    | JSONDecodeError => mret default_value
                    | _ => Raise ex
                    end)
       | _ => mret default_value
       end.

Definition _pick_subscriber : result (value * value) :=
  if negb (truthy (VDict anime_data)) then mret (VDict ∅, VList [])
  else catch
         (group_subscriber ← _parse_config_field "group_subscriber" is_dict (VDict ∅);
          private_subscriber ← _parse_config_field "private_subscriber" is_list (VList []);
          mret (group_subscriber, private_subscriber))
         (λ _, mret (VDict ∅, VList [])).

Definition _pick_image_queue : result value :=
  catch
    (let image_list :=
       match source with
       | EMBY =>
           match generate_emby_image_url emby_host
                   (get source_data "series_id") (get source_data "series_tag") with
           | Ok url => [url]
           | Raise _ => []
           end
       | ANIRSS =>
           let image := get source_data "image_url" in
           if truthy image then [image] else []
       | _ => []
       end in
     let image_list :=
       if truthy (VDict anime_data)
       then image_list ++ [get anime_data "emby_image_url";
                           get anime_data "ainrss_image_url"]
       else image_list in
     l ← fromkeys (filter (λ v, truthy v = true) image_list) [];
     mret (VList l))
    (λ _, mret (VList [])).

(** The dict literal of [pick]: its values are evaluated in the order
    written, after the subscriber fields. *)
Definition pick : result (gmap string value) :=
  '(group_subscriber, private_subscriber) ← _pick_subscriber;
  id ← _pick_id;
  title ← _pick_title;
  episode ← _pick_episode;
  episode_title ← _pick_episode_title;
  timestamp ← _pick_timestamp;
  source_name ← _pick_source;
  action ← _pick_action;
  score ← _pick_score;
  genres ← _pick_genres;
  tmdb_id ← _pick_tmdb_id;
  image_queue ← _pick_image_queue;
  media_type ← _pick_media_type;
  season ← _pick_season;
  subgroup ← _pick_subgroup;
  progress ← _pick_progress;
  premiere ← _pick_premiere;
  bgm_url ← _pick_bgmurl;
  tmdb_url ← _pick_tmdb_url;
  mret (<["id" := id]> (<["title" := title]> (<["episode" := episode]>
       (<["episode_title" := episode_title]> (<["timestamp" := timestamp]>
       (<["source" := source_name]> (<["action" := action]>
       (<["score" := score]> (<["genres" := genres]> (<["tmdb_id" := tmdb_id]>
       (<["group_subscribers" := group_subscriber]>
       (<["private_subscribers" := private_subscriber]>
       (<["image_queue" := image_queue]> (<["media_type" := media_type]>
       (<["season" := season]> (<["subgroup" := subgroup]>
       (<["progress" := progress]> (<["premiere" := premiere]>
       (<["bgm_url" := bgm_url]> (<["tmdb_url" := tmdb_url]> ∅)))))))))))))))))))).

End Picker.

(** *** The reference-site URL as the specification words it *)

(** The path segment as the claim has it: [movie] only for a
    classification equal to "movie" in any letter case, [tv] for every
    other one, the absent one included. *)
Definition claimed_segment (media_type : value) : string :=
  match media_type with
  | VStr s => if String.eqb (lower s) "movie" then "movie" else "tv"
  | _ => "tv"
  end.

(** The path segment of the code: [tv] for a non-empty classification
    other than "movie", [movie] for "movie" and for an absent or empty
    classification. *)
Definition synthesized_segment (media_type : value) : string :=
  match media_type with
  | VStr s =>
      if String.eqb s "" then "movie"
      else if String.eqb (lower s) "movie" then "movie" else "tv"
  | _ => "movie"
  end.

(** Stand-ins for the outside world in examples that do not reach it. *)
Definition no_json : string → result value := λ _, Raise JSONDecodeError.
Definition no_datetime : string → result string := λ _, Raise ValueError.
Definition no_emby_url : value → value → value → result value := λ _ _ _, Raise OtherError.

(** Sample records. *)
Definition feed_record_without_season : gmap string value :=
  <["id" := VInt 7]> (<["title" := VStr "Frieren"]> (<["tmdb_id" := VStr "209867"]> ∅)).

Definition record_with_bad_id : gmap string value :=
  <["id" := VStr "abc"]> (<["title" := VStr "Frieren"]> ∅).

Definition record_with_bad_timestamp : gmap string value :=
  <["id" := VInt 7]> (<["title" := VStr "Frieren"]>
  (<["timestamp" := VStr "yesterday"]> ∅)).

Definition library_series_record : gmap string value :=
  <["id" := VInt 8]> (<["title" := VStr "Frieren"]> (<["type" := VStr "Series"]>
  (<["tmdb_id" := VInt 209867]> ∅))).

End DataPicker.


(** *** The subscriber fields as the specification words them *)

Module SubscriberSpec.

(** The structured value that a raw field denotes, if any: the value
    itself when it has the expected type, the decoded value when it is
    text that decodes; nothing when it is null, text that does not
    decode, or of another type. *)
Definition denoted (json_loads : string → result value) (expected : value → bool)
    (raw : value) : option value :=
  if expected raw then Some raw
  else match raw with
       | VStr s => match json_loads s with Ok w => Some w | Raise _ => None end
       | _ => None
       end.

(** The field is missing its expected shape: it denotes nothing, or a
    value of another shape. *)
Definition misshapen (json_loads : string → result value) (expected : value → bool)
    (raw : value) : Prop :=
  match denoted json_loads expected raw with
  | Some w => expected w = false
  | None => True
  end.

(** Sample enrichment records. *)
Definition enrichment_with_bad_json : gmap string value :=
  <["group_subscriber" := VStr "{not json"]>
  (<["private_subscriber" := VList [VStr "10001"; VStr "10002"]]> ∅).

End SubscriberSpec.

(* ===================================================================== *)
(** ** image_selector.py: the image cache selector                        *)
(* ===================================================================== *)

Module ImageSelector.

(** A file of the cache directory: its bytes, its modification time (in
    microseconds) and whether it is a regular file. *)
Record file : Type := File {
  f_content : string;
  f_mtime : Z;
  f_is_file : bool;
}.

(** The file system is a [gmap string file]: paths to files. *)

(** How [_save_bytes_to_cache] can end. *)
Inductive save_outcome : Type :=
| Saved                (* temp written and moved over the destination *)
| FailedBeforeTemp     (* nothing written, or the temp file never existed *)
| FailedTempRemoved    (* the temp file is unlinked by the handler *)
| FailedTempLeft.      (* the temp file stays behind *)

(** Configuration, clock, network and the I/O outcomes. *)
Record world : Type := World {
  cache_dir : option string;          (* WORKDIR.cache_dir *)
  emby_enabled : bool;                (* FUNCTION.emby_enabled *)
  emby_host : value;                  (* APPCONFIG.emby_host *)
  generate_emby_image_url : value → string → string → result string;
  is_url : string → bool;             (* urlparse: http(s) scheme and a host *)
  default_image : string;             (* res/default_img.png *)
  now : Z;                            (* datetime.now(), microseconds *)
  fetch : string → string → result string;   (* get_request(url) by source tag *)
  latency : string → nat;             (* the order in which fetches complete *)
  save_result : save_outcome;
}.

(** [timedelta(hours=14 * 24)] in microseconds. *)
Definition EXPIRE : Z := 14 * 24 * 3600 * 1000000.

Section Selector.
Variable py_repr : value → string.
Variable w : world.

(** The fields of the selector object that [select] reads. *)
Variable image_queue : list value.
Variable tmdb_id : value.
Variable source_data : option (gmap string value).
Variable emby_series_id : value.

Definition _get_cache_path : option string :=
  let cache_key :=
    if truthy tmdb_id && negb (eq_str tmdb_id "None")
    then Some (py_str py_repr tmdb_id)
    else if truthy emby_series_id
    then Some ("emby_" +:+ py_str py_repr emby_series_id)
    else None in
  match cache_key, cache_dir w with
  | Some key, Some dir =>
      if negb (String.eqb key "") then Some (dir +:+ "/" +:+ key +:+ ".png")
      else None
  | _, _ => None
  end.

(** [img_path.with_suffix('.tmp')] for a path built by [_get_cache_path]. *)
Definition temp_path_of (key_path : string) : string :=
  String.substring 0 (String.length key_path - 4) key_path +:+ ".tmp".

Definition _is_cache_img_expired (fs : gmap string file) (path : string) : bool :=
  match fs !! path with
  | Some f =>
      if negb (f_is_file f) then true
      else EXPIRE <? now w - f_mtime f
  | None => true
  end.

(** Returns [(output_img, is_image_expired)]. *)
Definition _search_in_localstore (fs : gmap string file) : option string * bool :=
  match _get_cache_path with
  | None => (None, false)
  | Some local_img_path =>
      match fs !! local_img_path with
      | None => (None, false)
      | Some _ => (Some local_img_path, _is_cache_img_expired fs local_img_path)
      end
  end.

(** [url_dict[key] = tag] unless the key is already present. *)
Definition add_url (url_dict : list (string * string)) (url tag : string)
  : list (string * string) :=
  if bool_decide (url ∈ url_dict.*1) then url_dict else url_dict ++ [(url, tag)].

(** One round of the loop of [_clean_image_queue]. *)
Definition clean_step (url_dict : list (string * string)) (tag_or_url : value)
  : list (string * string) :=
  let text := py_str py_repr tag_or_url in
  if is_url w text then
    match tag_or_url with
    | VStr url => add_url url_dict url "EXTERNAL"
    | _ => url_dict
    end
  else
    match source_data with
    | Some sd =>
        if truthy (VDict sd) then
          let series_id := get sd "series_id" in
          if emby_enabled w && truthy series_id then
            match generate_emby_image_url w (emby_host w)
                    (py_str py_repr series_id) text with
            | Ok url => add_url url_dict url "EMBY"
            | Raise _ => url_dict
            end
          else url_dict
        else url_dict
    | None => url_dict
    end.

Definition _clean_image_queue : list (string * string) :=
  foldl clean_step [] image_queue.

(** [asyncio.as_completed]: the tasks in the order they complete. *)
Definition completes_before (a b : string * string) : Prop :=
  (latency w a.1 ≤ latency w b.1)%nat.

#[local] Instance completes_before_dec : RelDecision completes_before.
Proof. intros a b. unfold completes_before. apply _. Defined.

Definition as_completed (tasks : list (string * string)) : list (string * string) :=
  merge_sort completes_before tasks.

(** The first fetch, in completion order, that does not raise. *)
Fixpoint first_success (tasks : list (string * string)) : option string :=
  match tasks with
  | [] => None
  | (url, tag) :: rest =>
      match fetch w url tag with
      | Ok binary => Some binary
      | Raise _ => first_success rest
      end
  end.

Definition _download_first_valid_image (url_dict : list (string * string))
  : option string :=
  first_success (as_completed url_dict).

Definition _save_bytes_to_cache (fs : gmap string file) (binary : string)
  : option string * gmap string file :=
  match _get_cache_path with
  | None => (None, fs)
  | Some img_path =>
      let temp_path := temp_path_of img_path in
      match save_result w with
      | Saved =>
          (Some img_path,
           <[img_path := File binary (now w) true]> (delete temp_path fs))
      | FailedBeforeTemp => (None, fs)
      | FailedTempRemoved => (None, delete temp_path fs)
      | FailedTempLeft => (None, <[temp_path := File binary (now w) true]> fs)
      end
  end.

Definition _process_image_queue (fs : gmap string file) : option string * gmap string file :=
  match image_queue with
  | [] => (None, fs)
  | _ =>
      match _clean_image_queue with
      | [] => (None, fs)
      | cleaned_urls =>
          match _download_first_valid_image cleaned_urls with
          | None => (None, fs)
          | Some image_data =>
              if String.eqb image_data "" then (None, fs)
              else _save_bytes_to_cache fs image_data
          end
      end
  end.

Definition _get_default_image (fs : gmap string file) : option string :=
  match fs !! default_image w with
  | Some _ => Some (default_image w)
  | None => None
  end.

(** [output_img] is the selector's field at the time of the call. *)
Definition _fallback_to_available_image (fs : gmap string file)
    (output_img : option string) : option string :=
  match output_img with
  | Some p =>
      match fs !! p with
      | Some _ => Some p
      | None => _get_default_image fs
      end
  | None => _get_default_image fs
  end.

Definition select (fs : gmap string file) : option string * gmap string file :=
  let '(output_img, is_image_expired) := _search_in_localstore fs in
  match output_img, is_image_expired with
  | Some p, false => (Some p, fs)
  | _, _ =>
      let '(result, fs') := _process_image_queue fs in
      match result with
      | Some img_path => (Some img_path, fs')
      | None => (_fallback_to_available_image fs' output_img, fs')
      end
  end.

(** Every candidate download fails: each cleaned URL's fetch raises or
    returns no bytes. *)
Definition failed_fetch (task : string * string) : Prop :=
  match fetch w task.1 task.2 with
  | Ok binary => binary = ""
  | Raise _ => True
  end.

Definition all_downloads_fail : Prop := Forall failed_fetch _clean_image_queue.

End Selector.

(** A sample world: empty cache directory listing, no network. *)
Definition offline_world : world :=
  {| cache_dir := Some "/data/cache";
     emby_enabled := false;
     emby_host := VNone;
     generate_emby_image_url := λ _ _ _, Raise OtherError;
     is_url := λ s, String.prefix "http://" s || String.prefix "https://" s;
     default_image := "/plugin/res/default_img.png";
     now := 100 * 24 * 3600 * 1000000;
     fetch := λ _ _, Raise OtherError;
     latency := λ _, 0%nat;
     save_result := Saved |}.

Definition stale_cache : gmap string file :=
  <["/data/cache/209867.png" := File "PNG-old" (10 * 24 * 3600 * 1000000) true]> ∅.

End ImageSelector.

(* ===================================================================== *)
(** ** push_manager.py: the orchestrator                                  *)
(* ===================================================================== *)

Module PushManager.

(** What one run does to the outside, in order. *)
Inductive event : Type :=
| SelectUnsent                               (* query for an unsent record *)
| SelectAnime (tmdb_id : Z)                  (* query for the enrichment record *)
| Pick                                       (* DataPicker.pick *)
| SelectImage                                (* ImageSelector.select *)
| Commit (id : value) (ok : bool)            (* upsert {id, send_status: 1} *)
| BufferAdd (title : value)                  (* push_buffer.add_episode *)
| Render (is_merged : bool)                  (* render_all / render_merged *)
| SendPrivate (targets : list string)        (* private_msg_pusher *)
| RenderBase                                 (* render_base *)
| RenderAt (group_id : string)               (* render_at *)
| SendGroup (group_id : string).             (* group_msg_pusher *)

(** A render or dispatch action. *)
Definition is_delivery (ev : event) : bool :=
  match ev with
  | Render _ | SendPrivate _ | RenderBase | RenderAt _ | SendGroup _ => true
  | _ => false
  end.

(** A dispatch to private or group targets. *)
Definition is_dispatch (ev : event) : bool :=
  match ev with
  | SendPrivate _ | SendGroup _ => true
  | _ => false
  end.

(** An action that is neither a render, nor a dispatch, nor the hand-off
    of the event to the merge buffer. *)
Definition silent (ev : event) : Prop :=
  is_delivery ev = false ∧ ∀ title, ev ≠ BufferAdd title.

(** How a coroutine ends when it does not run to its last statement. *)
Inductive ending : Type :=
| Returned                 (* an early [return] *)
| Escaped (e : exn).       (* an exception that leaves the coroutine *)

(** A computation that logs events and either yields a value or ends. *)
Definition run (A : Type) : Type := list event * (A + ending).

Definition run_ret {A} (a : A) : run A := ([], inl a).

Definition run_bind {A B} (m : run A) (k : A → run B) : run B :=
  match m with
  | (t, inl a) => let '(t', r) := k a in (t ++ t', r)
  | (t, inr e) => (t, inr e)
  end.

Definition emit (ev : event) : run unit := ([ev], inl tt).
Definition stop {A} : run A := ([], inr Returned).
Definition escape {A} (e : exn) : run A := ([], inr (Escaped e)).

(** An awaited call of a collaborator. *)
Definition call {A} (r : result A) : run A :=
  match r with Ok a => run_ret a | Raise e => escape e end.

(** [try: m except Exception as e: h e]; an early [return] is not an
    exception. *)
Definition try_except {A} (m : run A) (h : exn → run A) : run A :=
  match m with
  | (t, inr (Escaped e)) => let '(t', r) := h e in (t ++ t', r)
  | _ => m
  end.

#[global] Instance run_mret : MRet run := λ A a, run_ret a.
#[global] Instance run_mbind : MBind run := λ A B k m, run_bind m k.

(** The store, the configuration, the renderer, the transport and the
    later life of the merge buffer. *)
Record world : Type := World {
  unsent_record : TableName → result (option (gmap string value));
  anime_record : Z → result (option (gmap string value));
  default_anime : result (gmap string value);
  upsert_sent : TableName → value → result unit;
  private_targets : TableName → list string;
  group_targets : TableName → list string;
  render_all : gmap string value → result string;
  render_merged : gmap string value → result string;
  render_base : gmap string value → result string;
  render_at : gmap string value → result string;
  private_msg_pusher : string → list string → result unit;
  group_msg_pusher : string → string → result unit;
  (** The bucket at the time the debounce timer armed by this run's
      [add_episode] fires and calls this run's callback; [None] when it
      never does (the timer is superseded by a later arrival). *)
  flushed_bucket : option (list (gmap string value));
}.

(** Iterating a value: [for x in v]. *)
Definition py_iter (v : value) : result (list value) :=
  match v with
  | VList l => Ok l
  | VDict d => Ok (VStr <$> (map_to_list d).*1)
  | VStr s => Ok ((λ c, VStr (String c EmptyString)) <$> String.list_ascii_of_string s)
  | _ => Raise TypeError
  end.

Section Manager.
Variable py_repr : value → string.
Variable w : world.
(** [DataPicker(source, unsend_data, anime_db_data).pick()] *)
Variable normalize :
  TableName → gmap string value → gmap string value → result (gmap string value).
(** [ImageSelector(image_queue, tmdb_id, source_data, emby_series_id).select()] *)
Variable select_image :
  list value → value → gmap string value → value → result (option string).

Variable source : TableName.

Definition _get_tmdb_id (data : gmap string value) : result (option Z) :=
  catch
    (if negb (truthy (VDict data)) then Raise (AppError "MissingParameter")
     else
       let tmdb_id_value := get data "tmdb_id" in
       if eq_str tmdb_id_value "None" || is_none tmdb_id_value then mret None
       else catch (z ← py_int tmdb_id_value; mret (Some z))
                  (λ e, if is_value_or_type_error e then mret None else Raise e))
    (λ _, Raise (AppError "TmdbIdFetchError")).

(** [set(map(str, l))], in first-occurrence order. *)
Definition str_set (l : list value) : list string :=
  remove_dups (py_str py_repr <$> l).

(** The subscribers of one allowed group. *)
Definition group_entry (group_subscribers : value) (group_id : string)
  : result (string * value) :=
  match group_subscribers with
  | VDict d =>
      let by_text := get_or d group_id (VList []) in
      if truthy by_text then mret (group_id, by_text)
      else (_ ← py_int (VStr group_id); mret (group_id, VList []))
  | _ => Raise AttributeError
  end.

Definition _pushtarget_conflate (picked_params : gmap string value)
  : result (list string * list (string * value)) :=
  catch
    (let private_subscribers :=
       py_or (get_or picked_params "private_subscribers" (VList [])) (VList []) in
     let group_subscribers :=
       py_or (get_or picked_params "group_subscribers" (VDict ∅)) (VDict ∅) in
     let private_pusher_user_set := remove_dups (private_targets w source) in
     subscribers ← py_iter private_subscribers;
     let private_subscribers_str := str_set subscribers in
     let private_push_target :=
       filter (λ u, u ∈ private_pusher_user_set) private_subscribers_str in
     let group_pusher_user_set := remove_dups (group_targets w source) in
     group_push_target ← mapM (group_entry group_subscribers) group_pusher_user_set;
     mret (private_push_target, group_push_target))
    (λ _, Raise (AppError "PushTargetMergeError")).

Definition _change_send_status (unsend_data_id : value) : run unit :=
  match upsert_sent w source unsend_data_id with
  | Ok _ => emit (Commit unsend_data_id true)
  | Raise _ =>
      _ ← emit (Commit unsend_data_id false);
      escape (AppError "SendStatusUpdateError")
  end.

Definition _push_to_private (private_push_target : list string)
    (message : string) : run unit :=
  match private_push_target with
  | [] => mret tt
  | _ =>
      _ ← emit (SendPrivate private_push_target);
      call (private_msg_pusher w message private_push_target)
  end.

(** The loop over [group_push_target.items()]. *)
Fixpoint group_loop (base_message : string) (message_params : gmap string value)
    (targets : list (string * value)) : run unit :=
  match targets with
  | [] => mret tt
  | (group_id, subscriber) :: rest =>
      let message_params := <["at" := subscriber]> message_params in
      _ ← emit (RenderAt group_id);
      at_message ← call (render_at w message_params);
      _ ← emit (SendGroup group_id);
      _ ← call (group_msg_pusher w (base_message +:+ at_message) group_id);
      group_loop base_message message_params rest
  end.

Definition _push_to_group (group_push_target : list (string * value))
    (message_params : gmap string value) : run unit :=
  match group_push_target with
  | [] => mret tt
  | _ =>
      try_except
        (_ ← emit RenderBase;
         base_message ← call (render_base w message_params);
         group_loop base_message message_params group_push_target)
        (λ _, mret tt)
  end.

Definition _do_push (private_push_target : list string)
    (group_push_target : list (string * value))
    (message_params : gmap string value) (is_merged : bool) : run unit :=
  rendered ← try_except
    (_ ← emit (Render is_merged);
     message ← call (if is_merged then render_merged w message_params
                     else render_all w message_params);
     mret (Some message))
    (λ _, mret None);
  match rendered with
  | None => mret tt
  | Some message =>
      _ ← _push_to_private private_push_target message;
      _push_to_group group_push_target message_params
  end.

(** The flush that [add_episode] arms: [_delayed_push] with this run's
    [_do_push] as callback. *)
Definition delayed_push (private_push_target : list string)
    (group_push_target : list (string * value)) : run unit :=
  match flushed_bucket w with
  | Some ((first :: _) as episodes) =>
      let title := get_or first "title" (VStr "未知标题") in
      match PushBuffer._merge_episodes py_repr episodes title with
      | Ok merged_data =>
          try_except
            (_do_push private_push_target group_push_target merged_data true)
            (λ _, mret tt)
      | Raise _ => mret tt
      end
  | _ => mret tt
  end.

(** Stage 1: one unsent record; none, or a failing query, ends the run. *)
Definition fetch_record : run (gmap string value) :=
  _ ← emit SelectUnsent;
  match unsent_record w source with
  | Ok (Some d) => mret d
  | Ok None => stop
  | Raise _ => stop
  end.

(** Stage 2: the record's own id; a missing id ends the run. *)
Definition record_id (unsend_data : gmap string value) : run value :=
  let unsend_data_id := get unsend_data "id" in
  if truthy unsend_data_id then mret unsend_data_id else stop.

(** [self.tmdb_id] after stage 3. *)
Definition tmdb_id_of (unsend_data : gmap string value) : option Z :=
  match _get_tmdb_id unsend_data with
  | Ok o => o
  | Raise _ => None
  end.

(** Stage 3: the enrichment record, or the default one. *)
Definition enrich (unsend_data : gmap string value) : run (gmap string value) :=
  try_except
    (tmdb ← call (_get_tmdb_id unsend_data);
     match tmdb with
     | None => call (default_anime w)
     | Some z =>
         if z =? 0 then escape (AppError "MissingParameter")
         else
           _ ← emit (SelectAnime z);
           found ← try_except (call (anime_record w z))
                              (λ _, escape (AppError "DatabaseQueryError"));
           match found with
           | None => call (default_anime w)
           | Some d => mret d
           end
     end)
    (λ _, call (default_anime w)).

(** Stage 4: normalization; a failure ends the run. *)
Definition pick_params (unsend_data anime_db_data : gmap string value)
  : run (gmap string value) :=
  _ ← emit Pick;
  match normalize source unsend_data anime_db_data with
  | Ok p => mret p
  | Raise _ => stop
  end.

(** Stage 5: the image; a failure leaves a null image. *)
Definition attach_image (unsend_data message_params : gmap string value)
  : run (gmap string value) :=
  _ ← emit SelectImage;
  let tmdb_text :=
    match tmdb_id_of unsend_data with
    | Some z => str_of_Z z
    | None => "None"
    end in
  let image_path :=
    match (queue ← py_iter (get_or message_params "image_queue" (VList []));
           select_image queue (VStr tmdb_text) unsend_data
             (get unsend_data "series_id")) with
    | Ok (Some p) => VStr p
    | _ => VNone
    end in
  mret (<["image" := image_path]> message_params).

(** Stage 6: the recipients; a failure ends the run. *)
Definition resolve_targets (message_params : gmap string value)
  : run (list string * list (string * value)) :=
  match _pushtarget_conflate message_params with
  | Ok t => mret t
  | Raise _ => stop
  end.

(** Stages 1 to 6 of [execute]: everything before the commit.  Yields
    the record id, the message parameters and the push targets. *)
Definition prepare
  : run (value * gmap string value * list string * list (string * value)) :=
  unsend_data ← fetch_record;
  unsend_data_id ← record_id unsend_data;
  anime_db_data ← enrich unsend_data;
  message_params ← pick_params unsend_data anime_db_data;
  message_params ← attach_image unsend_data message_params;
  targets ← resolve_targets message_params;
  mret (unsend_data_id, message_params, targets.1, targets.2).

(** The commit: stage 7. *)
Definition commit (unsend_data_id : value) : run unit :=
  try_except (_change_send_status unsend_data_id) (λ _, stop).

(** Stages 8 to 10: routing and delivery. *)
Definition deliver (message_params : gmap string value)
    (private_push_target : list string)
    (group_push_target : list (string * value)) : run unit :=
  let media_type := get message_params "media_type" in
  let title := get message_params "title" in
  if negb (truthy title) then stop
  else if negb (truthy media_type) then
    _do_push private_push_target group_push_target message_params false
  else match media_type with
       | VStr mt =>
           if String.eqb (lower mt) "movie" then
             _do_push private_push_target group_push_target message_params false
           else if String.eqb (lower mt) "episode" || String.eqb (lower mt) "series"
           then
             _ ← emit (BufferAdd title);
             delayed_push private_push_target group_push_target
           else
             _do_push private_push_target group_push_target message_params false
       | _ => escape AttributeError
       end.

Definition execute : run unit :=
  prepared ← prepare;
  _ ← commit prepared.1.1.1;
  deliver prepared.1.1.2 prepared.1.2 prepared.2.

(** The trace of a run. *)
Definition trace : list event := execute.1.

End Manager.

(** The run with the normalizer and the image selector of this
    development in place of the two parameters. *)
Definition pipeline_normalize (py_repr : value → string)
    (json_loads : string → result value)
    (fromisoformat_strftime : string → result string)
    (generate_emby_image_url : value → value → value → result value)
    (emby_host : value)
  : TableName → gmap string value → gmap string value → result (gmap string value) :=
  DataPicker.pick py_repr json_loads fromisoformat_strftime
    generate_emby_image_url emby_host.

Definition pipeline_select_image (py_repr : value → string)
    (iw : ImageSelector.world) (fs : gmap string ImageSelector.file)
  : list value → value → gmap string value → value → result (option string) :=
  λ image_queue tmdb_id source_data emby_series_id,
    Ok (ImageSelector.select py_repr iw image_queue tmdb_id
          (Some source_data) emby_series_id fs).1.

(** A sample world: one unsent movie record of the library, its
    enrichment record with one private subscriber, who is allowed, and a
    store that accepts or refuses the commit. *)
Definition movie_record : gmap string value :=
  <["id" := VInt 7]> (<["title" := VStr "Frieren"]> (<["type" := VStr "Movie"]>
  (<["tmdb_id" := VStr "209867"]> ∅))).

Definition movie_enrichment : gmap string value :=
  <["tmdb_id" := VInt 209867]> (<["private_subscriber" := VList [VStr "10001"]]> ∅).

Definition sample_world (commit_ok : bool) : world :=
  {| unsent_record := λ _, Ok (Some movie_record);
     anime_record := λ _, Ok (Some movie_enrichment);
     default_anime := Ok ∅;
     upsert_sent := λ _ _, if commit_ok then Ok tt else Raise OtherError;
     private_targets := λ _, ["10001"];
     group_targets := λ _, [];
     render_all := λ _, Ok "message";
     render_merged := λ _, Ok "merged message";
     render_base := λ _, Ok "base";
     render_at := λ _, Ok "at";
     private_msg_pusher := λ _ _, Ok tt;
     group_msg_pusher := λ _ _, Ok tt;
     flushed_bucket := None |}.

Definition sample_normalize
  : TableName → gmap string value → gmap string value → result (gmap string value) :=
  pipeline_normalize MergeSpec.no_repr DataPicker.no_json DataPicker.no_datetime
    DataPicker.no_emby_url VNone.

Definition sample_select_image
  : list value → value → gmap string value → value → result (option string) :=
  pipeline_select_image MergeSpec.no_repr ImageSelector.offline_world
    ImageSelector.stale_cache.

End PushManager.

(* ===================================================================== *)
(** ** Sample inputs of the further properties                            *)
(* ===================================================================== *)

Module Samples.


(** A buffer after two arrivals for season 2 of one title. *)
Definition two_event_buffer : gmap string (list (gmap string value)) :=
  PushBuffer.add_episode MergeSpec.no_repr
    (PushBuffer.add_episode MergeSpec.no_repr ∅ (VStr "Frieren")
       (MergeSpec.feed_event (VStr "2") (VStr "第 2 季 | 第 4 集")))
    (VStr "Frieren") (MergeSpec.feed_event (VStr "2") (VStr "第 2 季 | 第 5 集")).

End Samples.

(** A sequence of arrivals at the merge buffer. *)
Module Arrivals.

(** [add_episode] for each arrival [(title, event)] in turn. *)
Definition add_all (py_repr : value → string)
    (buffer : gmap string (list (gmap string value)))
    (arrivals : list (value * gmap string value))
  : gmap string (list (gmap string value)) :=
  foldl (λ b a, PushBuffer.add_episode py_repr b a.1 a.2) buffer arrivals.

(** The events of the arrivals that are filed under [key], in order. *)
Definition filed_under (py_repr : value → string) (key : string)
    (arrivals : list (value * gmap string value)) : list (gmap string value) :=
  (filter (λ a, PushBuffer.buffer_key py_repr a.1 a.2 = key) arrivals).*2.

End Arrivals.

Module PickSamples.

(** A library record of a movie that still carries season and episode. *)
Definition movie_with_season : gmap string value :=
  <["id" := VInt 9]> (<["type" := VStr "Movie"]> (<["season" := VInt 1]>
  (<["episode" := VInt 3]> ∅))).

(** A feed record with a well-formed id and no timestamp. *)
Definition plain_feed_record : gmap string value :=
  <["id" := VStr "12"]> (<["title" := VStr "Frieren"]> (<["season" := VInt 1]>
  (<["episode" := VInt 3]> (<["image_url" := VStr "https://img.example/a.png"]> ∅)))).

(** An enrichment record that repeats the feed's image. *)
Definition enrichment_with_images : gmap string value :=
  <["emby_image_url" := VStr "https://img.example/b.png"]>
  (<["ainrss_image_url" := VStr "https://img.example/a.png"]> ∅).

(** The keys of the dict that [pick] builds. *)
Definition picked_keys : gset string :=
  {["id"; "title"; "episode"; "episode_title"; "timestamp"; "source"; "action";
    "score"; "genres"; "tmdb_id"; "group_subscribers"; "private_subscribers";
    "image_queue"; "media_type"; "season"; "subgroup"; "progress"; "premiere";
    "bgm_url"; "tmdb_url"]}.

(** The hash keys of a list of hashable values. *)
Definition hash_keys (l : list value) : list (result hkey) := key_of <$> l.

End PickSamples.

Module SelectorSamples.
Import ImageSelector.

(** A world whose network answers, and whose cache directory is empty. *)
Definition online_world : world :=
  {| cache_dir := Some "/data/cache";
     emby_enabled := false;
     emby_host := VNone;
     generate_emby_image_url := λ _ _ _, Raise OtherError;
     is_url := λ s, String.prefix "http://" s || String.prefix "https://" s;
     default_image := "/plugin/res/default_img.png";
     now := 100 * 24 * 3600 * 1000000;
     fetch := λ _ _, Ok "PNG-new";
     latency := λ _, 0%nat;
     save_result := Saved |}.

(** A cache written one day before [now] of the sample worlds. *)
Definition fresh_cache : gmap string file :=
  <["/data/cache/209867.png" := File "PNG" (99 * 24 * 3600 * 1000000) true]> ∅.

Definition poster_queue : list value := [VStr "https://image.example/poster.jpg"].

End SelectorSamples.

Module CandidateSpec.
Import ImageSelector.


(** The fetch of a task raises. *)
Definition fetch_raises (w : world) (t : string * string) : Prop :=
  ∃ e, fetch w t.1 t.2 = Raise e.

End CandidateSpec.

Module ManagerSpec.
Import PushManager.

(** The commit attempt of a run. *)
Definition is_commit (ev : event) : bool :=
  match ev with Commit _ _ => true | _ => false end.

(** One render of the mention segment and one send, per group in turn. *)
Definition group_rounds (groups : list string) : list event :=
  groups ≫= λ g, [RenderAt g; SendGroup g].

(** What a complete delivery to [targets] does, in order. *)
Definition full_group_delivery (targets : list (string * value)) : list event :=
  match targets with
  | [] => []
  | _ => RenderBase :: group_rounds targets.*1
  end.

(** A world with three allowed groups, the second of which cannot be
    reached, and nothing pending. *)
Definition idle_world : world :=
  {| unsent_record := λ _, Ok None;
     anime_record := λ _, Ok None;
     default_anime := Ok ∅;
     upsert_sent := λ _ _, Ok tt;
     private_targets := λ _, ["10001"; "10002"];
     group_targets := λ _, ["7001"; "7002"; "7001"; "7003"];
     render_all := λ _, Ok "message";
     render_merged := λ _, Ok "merged message";
     render_base := λ _, Ok "base";
     render_at := λ _, Ok "at";
     private_msg_pusher := λ _ _, Ok tt;
     group_msg_pusher :=
       λ _ g, if String.eqb g "7002" then Raise OtherError else Ok tt;
     flushed_bucket := None |}.

(** Message parameters with subscribers, as the normalizer shapes them. *)
Definition params_with_subscribers : gmap string value :=
  <["title" := VStr "Frieren"]>
  (<["private_subscribers" := VList [VStr "10002"; VInt 10003; VStr "10002"]]>
  (<["group_subscribers" := VDict (<["7001" := VList [VStr "10001"]]> ∅)]> ∅)).

(** A record whose reference id is the sentinel text. *)
Definition record_without_reference : gmap string value :=
  <["id" := VInt 7]> (<["tmdb_id" := VStr "None"]> ∅).

(** The sample world with a private transport that is down. *)
Definition private_down : world :=
  {| unsent_record := unsent_record (sample_world true);
     anime_record := anime_record (sample_world true);
     default_anime := default_anime (sample_world true);
     upsert_sent := upsert_sent (sample_world true);
     private_targets := private_targets (sample_world true);
     group_targets := group_targets (sample_world true);
     render_all := render_all (sample_world true);
     render_merged := render_merged (sample_world true);
     render_base := render_base (sample_world true);
     render_at := render_at (sample_world true);
     private_msg_pusher := λ _ _, Raise OtherError;
     group_msg_pusher := group_msg_pusher (sample_world true);
     flushed_bucket := flushed_bucket (sample_world true) |}.

(** A normalizer whose event has no title. *)
Definition untitled_normalize
  : TableName → gmap string value → gmap string value → result (gmap string value) :=
  λ _ _ _, Ok (<["media_type" := VStr "Movie"]> ∅).

End ManagerSpec.

(* ===================================================================== *)
(** ** statement_generator.py: the SQL text of upserts and selects        *)
(* ===================================================================== *)

Module StatementGenerator.

Section Generator.
(** [list(fields.keys())] of the table's model class, in declaration
    order. *)
Variable table_keys : TableName → list string.
(** Whether the extra of [fields[col]] is a dict with a truthy
    [primary_key]. *)
Variable is_primary : TableName → string → bool.

(** [data] is the dict as the list of its items, in insertion order. *)
Definition generate_upsert_statement (table_name : TableName)
    (data : list (string * value)) (conflict_column : option string)
  : result string :=
  let table_keys := table_keys table_name in
  let valid_data :=
    filter (λ kv, is_none kv.2 = false ∧ kv.1 ∈ table_keys) data in
  let columns := valid_data.*1 in
  if bool_decide (columns = []) then Raise (AppError "InvalidParameter")
  else
    let primary_keys :=
      filter (λ col, is_primary table_name col = true) table_keys in
    let sql :=
      "INSERT INTO " +:+ TableName_value table_name
      +:+ " (" +:+ join ", " columns
      +:+ ") VALUES (" +:+ join ", " ((λ col, ":" +:+ col) <$> columns) +:+ ")" in
    match conflict_column with
    | Some conflict_column =>
        if String.eqb conflict_column "" then Ok (strip sql)
        else if bool_decide (conflict_column ∉ table_keys)
        then Raise (AppError "InvalidParameter")
        else if bool_decide (conflict_column ∉ columns)
        then Raise (AppError "InvalidParameter")
        else
          let update_cols :=
            (λ col, col +:+ "=excluded." +:+ col)
            <$> filter (λ col, col ≠ conflict_column ∧ col ∉ primary_keys) columns in
          Ok (strip (sql +:+ " ON CONFLICT (" +:+ conflict_column
                     +:+ ") DO UPDATE SET " +:+ join ", " update_cols))
    | None => Ok (strip sql)
    end.

(** The column list of a select: lines 167-174. *)
Definition column_clause (table_name : TableName) (columns : option (list string))
  : result string :=
  match columns with
  | None | Some [] => Ok "*"
  | Some columns =>
      let valid_columns := filter (λ col, col ∈ table_keys table_name) columns in
      if bool_decide (valid_columns = []) then Raise (AppError "InvalidParameter")
      else Ok (join ", " valid_columns)
  end.

(** The conditions: lines 177-188. *)
Definition where_clause (table_name : TableName) (sql : string)
    (where_ : option (list (string * value))) : result string :=
  match where_ with
  | Some ((_ :: _) as where_) =>
      let valid_where := filter (λ kv, kv.1 ∈ table_keys table_name) where_ in
      if bool_decide (valid_where = []) then Raise (AppError "InvalidParameter")
      else
        let conditions := (λ kv, kv.1 +:+ " = :" +:+ kv.1) <$> valid_where in
        Ok (sql +:+ " WHERE " +:+ join " AND " conditions)
  | _ => Ok sql
  end.

(** The sort order: lines 190-195. *)
Definition order_clause (table_name : TableName) (sql : string)
    (order_by order_type : option string) : result string :=
  match order_by with
  | Some order_by =>
      if String.eqb order_by "" then Ok sql
      else if bool_decide (order_by ∉ table_keys table_name)
      then Raise (AppError "InvalidParameter")
      else match order_type with
           | Some order_type =>
               if bool_decide (order_type ∉ ["ASC"; "DESC"])
               then Raise (AppError "InvalidParameter")
               else Ok (sql +:+ " ORDER BY " +:+ order_by +:+ " " +:+ order_type)
           | None => Raise (AppError "InvalidParameter")
           end
  | None => Ok sql
  end.

(** The page: lines 197-204. *)
Definition page_clause (sql : string) (limit offset : option Z) : result string :=
  match limit with
  | Some limit =>
      if limit <=? 0 then Raise (AppError "InvalidParameter")
      else
        let sql := sql +:+ " LIMIT " +:+ str_of_Z limit in
        match offset with
        | Some offset =>
            if offset <? 0 then Raise (AppError "InvalidParameter")
            else Ok (sql +:+ " OFFSET " +:+ str_of_Z offset)
        | None => Ok sql
        end
  | None => Ok sql
  end.

(** [where_] is the parameter [where], as the list of the dict's items. *)
Definition generate_select_statement (table_name : TableName)
    (columns : option (list string)) (where_ : option (list (string * value)))
    (order_by order_type : option string) (limit offset : option Z)
  : result string :=
  column_clause ← column_clause table_name columns;
  let sql := "SELECT " +:+ column_clause +:+ " FROM " +:+ TableName_value table_name in
  sql ← where_clause table_name sql where_;
  sql ← order_clause table_name sql order_by order_type;
  sql ← page_clause sql limit offset;
  Ok (strip sql).

End Generator.

(** What of a data dict reaches the upsert text: the keys, and which of
    them hold null. *)
Definition shape (data : list (string * value)) : list (string * bool) :=
  (λ kv, (kv.1, is_none kv.2)) <$> data.

(** The columns an upsert of [data] names. *)
Definition valid_columns (table_keys : list string) (data : list (string * value))
  : list string :=
  (filter (λ kv, is_none kv.2 = false ∧ kv.1 ∈ table_keys) data).*1.

(** The conditions under which a select is generated. *)
Definition select_accepted (table_keys : list string)
    (columns : option (list string)) (where_ : option (list (string * value)))
    (order_by order_type : option string) (limit offset : option Z) : Prop :=
  (columns = None ∨ columns = Some [] ∨ ∃ cols col, columns = Some cols
     ∧ col ∈ cols ∧ col ∈ table_keys)
  ∧ (where_ = None ∨ where_ = Some [] ∨ ∃ wh kv, where_ = Some wh
       ∧ kv ∈ wh ∧ kv.1 ∈ table_keys)
  ∧ (order_by = None ∨ order_by = Some ""
     ∨ ∃ ob, order_by = Some ob ∧ ob ∈ table_keys
         ∧ (order_type = Some "ASC" ∨ order_type = Some "DESC"))
  ∧ (∀ l, limit = Some l → 0 < l ∧ ∀ o, offset = Some o → 0 <= o).

(** A table with an integer primary key, as the pipeline's tables have. *)
Definition sample_keys : TableName → list string :=
  λ _, ["id"; "title"; "send_status"].
Definition sample_primary : TableName → string → bool :=
  λ _ col, String.eqb col "id".

End StatementGenerator.

(* ===================================================================== *)
(** ** message_factory.py: the rendering of one template line            *)
(* ===================================================================== *)

Module MessageRenderer.

(** A message segment, as the transport's constructors build it. *)
Inductive segment : Type :=
| Text (text : string)      (* MessageSegment.text *)
| Image (file : string)     (* MessageSegment.image *)
| At (user : value).        (* MessageSegment.at *)

(** The line feed. *)
Definition newline : string := String "010"%char "".

(** [old in s] for the characters of a text. *)
Fixpoint in_chars (c : ascii) (chars : string) : bool :=
  match chars with
  | EmptyString => false
  | String d r => Ascii.eqb c d || in_chars c r
  end.

(** [s.rstrip(chars)]: the trailing characters of [s] that occur in
    [chars] are removed. *)
Fixpoint rstrip_chars (chars s : string) : string :=
  match s with
  | EmptyString => EmptyString
  | String c r =>
      match rstrip_chars chars r with
      | EmptyString => if in_chars c chars then EmptyString else String c EmptyString
      | r' => String c r'
      end
  end.

(** [s.replace(old, new)] for a non-empty [old]: left to right, without
    overlap; [skip] characters of a match are still to be passed. *)
Fixpoint replace_from (old new s : string) (skip : nat) : string :=
  match s with
  | EmptyString => EmptyString
  | String c r =>
      match skip with
      | S k => replace_from old new r k
      | O =>
          if String.prefix old s
          then new +:+ replace_from old new r (String.length old - 1)
          else String c (replace_from old new r 0)
      end
  end.

(** [s.replace(old, new)]; with an empty [old], [new] goes before every
    character and at the end. *)
Definition replace (s old new : string) : string :=
  match old with
  | EmptyString =>
      String.concat "" ((λ c, new +:+ String c "") <$> String.list_ascii_of_string s)
      +:+ new
  | _ => replace_from old new s 0
  end.

(** [content.replace(old, new)] on a value. *)
Definition py_replace (content : value) (old new : string) : result string :=
  match content with
  | VStr s => Ok (replace s old new)
  | _ => Raise AttributeError
  end.

(** [content.rstrip(chars)] on a value. *)
Definition py_rstrip (content : value) (chars : string) : result string :=
  match content with
  | VStr s => Ok (rstrip_chars chars s)
  | _ => Raise AttributeError
  end.

(** [content + "\n"] *)
Definition add_newline (content : value) : result string :=
  match content with
  | VStr s => Ok (s +:+ newline)
  | _ => Raise TypeError
  end.

(** [text in content]: a substring of a text, an element of a list, a
    key of a dict. *)
Definition py_contains (text : string) (content : value) : result bool :=
  match content with
  | VStr s => Ok (contains text s)
  | VList l => Ok (existsb (λ v, eq_str v text) l)
  | VDict d => Ok (bool_decide (is_Some (d !! text)))
  | VNone | VBool _ | VInt _ => Raise TypeError
  end.

(** The entry of a record under a key that is any value: the keys of a
    record are text; a list or a dict cannot be hashed. *)
Definition entry (data : gmap string value) (field : value) : result (option value) :=
  match field with
  | VStr k => Ok (data !! k)
  | VList _ | VDict _ => Raise TypeError
  | VNone | VBool _ | VInt _ => Ok None
  end.

Section Renderer.
Variable py_repr : value → string.
(** [utils.convert_image_path_to_base64] *)
Variable convert_image_path_to_base64 : value → result string.

Definition MissingParameter : exn := AppError "MissingParameter".

(** The f-string that wraps the field in braces. *)
Definition placeholder_of (field : value) : string :=
  "{" +:+ py_str py_repr field +:+ "}".

(** One line of the single-event template; [template] is the line's
    item of the YAML template, [data] the message parameters.  The
    result is the segments of the message or segment returned, or
    [None]. *)
Definition _line_render (template data : gmap string value)
  : result (option (list segment)) :=
  let content := get template "content" in
  let field := get template "field" in
  let type := get template "type" in
  if negb (truthy content) then Raise MissingParameter
  else if negb (truthy type) then Raise MissingParameter
  else
    _ ← (if negb (eq_str type "static") then
           if negb (truthy field) then Raise MissingParameter
           else
             found ← entry data field;
             if negb (bool_decide (is_Some found)) then Raise MissingParameter
             else
               present ← py_contains (placeholder_of field) content;
               if negb present then Raise MissingParameter else Ok tt
         else Ok tt);
    if eq_str type "static" then
      text ← add_newline content; Ok (Some [Text text])
    else if eq_str type "image" then
      img_path ← entry data field;
      let img_path := default VNone img_path in
      if negb (truthy img_path) then Raise MissingParameter
      else
        base64_image ← convert_image_path_to_base64 img_path;
        Ok (Some [Image base64_image])
    else if eq_str type "dynamic" then
      filler ← entry data field;
      let filler := default VNone filler in
      if negb (truthy filler) then Ok None
      else
        rendered_content ←
          py_replace content (placeholder_of field) (py_str py_repr filler);
        Ok (Some [Text (rendered_content +:+ newline)])
    else if eq_str type "at" then
      present ← py_contains (placeholder_of field) content;
      if negb present then Raise MissingParameter
      else
        at_list ← entry data field;
        let at_list := py_or (default VNone at_list) (VList []) in
        if truthy at_list then
          text ← py_rstrip content (placeholder_of field);
          users ← PushManager.py_iter at_list;
          Ok (Some (Text (newline +:+ text) :: (At <$> users)))
        else Ok (Some [])
    else Ok None.

(** One line of the merged template. *)
Definition _line_render_merged (template data : gmap string value)
  : result (option (list segment)) :=
  let content := get template "content" in
  let field := get template "field" in
  let type := get template "type" in
  if negb (truthy content) then Ok None
  else if negb (truthy type) then Ok None
  else if eq_str type "static" then
    text ← add_newline content; Ok (Some [Text text])
  else if eq_str type "image" then
    img_path ← entry data field;
    let img_path := default VNone img_path in
    if negb (truthy img_path) then Ok None
    else
      base64_image ← convert_image_path_to_base64 img_path;
      Ok (Some [Image base64_image])
  else if eq_str type "dynamic" then
    if negb (truthy field) then Ok None
    else
      filler ← entry data field;
      let filler := default VNone filler in
      if negb (truthy filler) then Ok None
      else
        rendered_content ←
          py_replace content (placeholder_of field) (py_str py_repr filler);
        Ok (Some [Text (rendered_content +:+ newline)])
  else if eq_str type "merged_episode" then
    let episode_count := get_or data "episode_count" (VInt 0) in
    let episode_range := get_or data "episode_range" (VStr "") in
    let season := get_or data "season" (VStr "1") in
    if truthy episode_count && truthy episode_range then
      with_season ← py_replace content "{season}" (py_str py_repr season);
      let with_count :=
        replace with_season "{episode_count}" (py_str py_repr episode_count) in
      match episode_range with
      | VStr episode_range =>
          Ok (Some [Text (replace with_count "{episode_range}" episode_range
                          +:+ newline)])
      | _ => Raise TypeError
      end
    else Ok None
  else if eq_str type "at" then
    at_list ← entry data field;
    let at_list := py_or (default VNone at_list) (VList []) in
    if truthy at_list then
      users ← PushManager.py_iter at_list;
      Ok (Some (Text (newline +:+ "📣 通知：") :: (At <$> users)))
    else Ok (Some [])
  else Ok None.

End Renderer.

(** A mention line whose text ends in letters of the field name. *)
Definition chat_line : gmap string value :=
  <["type" := VStr "at"]> (<["field" := VStr "at"]>
  (<["content" := VStr "Chat{at}"]> ∅)).

(** A line that fills in the score. *)
Definition score_line : gmap string value :=
  <["type" := VStr "dynamic"]> (<["field" := VStr "score"]>
  (<["content" := VStr "score {score} ({score}/10)"]> ∅)).

Definition sample_data : gmap string value :=
  <["score" := VInt 8]> (<["at" := VList [VInt 10001; VStr "10002"]]> ∅).

Definition no_conversion : value → result string := λ _, Raise OtherError.

End MessageRenderer.

(* ===================================================================== *)
(** * Properties                                                          *)
(* ===================================================================== *)

(** ** The range formatter *)

Section FormatRange.
Import PushBuffer RangeSpec.

Lemma range_loop_contiguous (n : nat) : ∀ e rest ranges s,
  range_loop (seqZ (e + 1) (Z.of_nat n) ++ rest) ranges s e
  = range_loop rest ranges s (e + Z.of_nat n).
Proof.
  induction n as [|n IH]; intros e rest ranges s.
  - simpl. by rewrite Z.add_0_r.
  - rewrite seqZ_cons by lia. simpl app. cbn [range_loop].
    rewrite Z.eqb_refl.
    replace (Z.pred (Z.of_nat (S n))) with (Z.of_nat n) by lia.
    replace (Z.succ (e + 1)) with (e + 1 + 1) by lia.
    rewrite IH. f_equal. lia.
Qed.

Lemma render_run_render a b : a <= b → render_run a b = render (a, b).
Proof.
  intros Hab. unfold render_run, render, run_length. simpl.
  destruct (Z.eqb_spec a b) as [->|Hne].
  - replace (2 <=? b - b + 1) with false by (symmetry; apply Z.leb_gt; lia). done.
  - replace (2 <=? b - a + 1) with true by (symmetry; apply Z.leb_le; lia). done.
Qed.

Lemma expand_cons r rs : expand (r :: rs) = expand_run r ++ expand rs.
Proof. reflexivity. Qed.

Lemma expand_run_cons a b :
  a <= b → expand_run (a, b) = a :: seqZ (a + 1) (Z.of_nat (Z.to_nat (b - a))).
Proof.
  intros Hab. unfold expand_run. simpl. rewrite seqZ_cons by lia.
  f_equal. f_equal; lia.
Qed.

Lemma range_loop_runs : ∀ rs ranges s e,
  s <= e →
  Forall (λ r, r.1 <= r.2) rs →
  separated ((s, e) :: rs) →
  range_loop (expand rs) ranges s e = ranges ++ (render <$> (s, e) :: rs).
Proof.
  induction rs as [|[a b] rs IH]; intros ranges s e Hse Hok Hsep.
  - simpl. by rewrite render_run_render.
  - apply Forall_cons in Hok as [Hab Hok]. simpl in Hab.
    destruct Hsep as [Hgap Hsep]. simpl in Hgap.
    rewrite expand_cons, expand_run_cons by done.
    simpl app. cbn [range_loop].
    destruct (Z.eqb_spec a (e + 1)) as [?|_]; [lia|].
    rewrite range_loop_contiguous.
    replace (a + Z.of_nat (Z.to_nat (b - a))) with b by lia.
    rewrite IH by done.
    rewrite render_run_render by done.
    rewrite <- app_assoc. reflexivity.
Qed.

Lemma expand_nil_inv rs :
  Forall (λ r, r.1 <= r.2) rs → expand rs = [] → rs = [].
Proof.
  destruct rs as [|[a b] rs]; [done|].
  intros [Hab _]%Forall_cons. simpl in Hab.
  rewrite expand_cons, expand_run_cons by done. done.
Qed.

Lemma format_maximal_runs l rs :
  maximal_runs l rs → l ≠ [] → _format_episode_range l = format_runs rs.
Proof.
  intros (-> & Hok & Hsep) Hne.
  destruct rs as [|[a b] rs]; [done|].
  pose proof Hok as [Hab Hok']%Forall_cons. simpl in Hab.
  rewrite expand_cons, expand_run_cons by done. simpl app.
  unfold _format_episode_range, format_runs.
  destruct (seqZ (a + 1) (Z.of_nat (Z.to_nat (b - a))) ++ expand rs) as [|y tl] eqn:Htl.
  - apply app_eq_nil in Htl as [Hseq Hrs].
    apply expand_nil_inv in Hrs as ->; [|done].
    assert (b = a) as ->.
    { apply (f_equal length) in Hseq. rewrite length_seqZ in Hseq.
      simpl in Hseq. lia. }
    simpl. unfold render, run_length. simpl.
    replace (2 <=? a - a + 1) with false by (symmetry; apply Z.leb_gt; lia).
    done.
  - rewrite <- Htl. rewrite range_loop_contiguous.
    replace (a + Z.of_nat (Z.to_nat (b - a))) with b by lia.
    rewrite range_loop_runs by done. done.
Qed.

Lemma runs_of_maximal l :
  StronglySorted Z.lt l → maximal_runs l (runs_of l).
Proof.
  induction l as [|x l IH]; intros Hs.
  - repeat split. constructor.
  - apply StronglySorted_inv in Hs as [Hs Hlt].
    destruct (IH Hs) as (Hl & Hok & Hsep).
    simpl. destruct (runs_of l) as [|[a b] rs] eqn:E.
    + rewrite Hl. repeat split.
      * unfold expand, expand_run. simpl. by replace (x - x + 1) with 1 by lia.
      * by repeat constructor.
    + pose proof Hok as [Hab Hok']%Forall_cons. simpl in Hab.
      rewrite expand_cons, expand_run_cons in Hl by done.
      assert (x < a) as Hxa.
      { rewrite Hl in Hlt. by apply Forall_cons in Hlt as [? _]. }
      destruct (Z.eqb_spec a (x + 1)) as [->|Hne].
      * repeat split.
        -- rewrite expand_cons, expand_run_cons by lia. rewrite Hl.
           f_equal. rewrite (seqZ_cons (x + 1)) by lia. simpl.
           replace (Z.succ (x + 1)) with (x + 1 + 1) by lia.
           replace (Z.pred (Z.of_nat (Z.to_nat (b - x))))
             with (Z.of_nat (Z.to_nat (b - (x + 1)))) by lia.
           done.
        -- apply Forall_cons. split; [simpl; lia|done].
        -- destruct rs; [done|]. exact Hsep.
      * repeat split.
        -- rewrite expand_cons, expand_run_cons by lia. rewrite Hl.
           replace (Z.to_nat (x - x)) with 0%nat by lia. simpl.
           rewrite expand_cons, expand_run_cons by done. done.
        -- apply Forall_cons. split; [simpl; lia|done].
        -- simpl. lia.
        -- exact Hsep.
Qed.

(** C3 as stated fails at the empty list: the marker is the source's
    own literal, not the English word. *)
Lemma format_episode_range_empty_not_unknown :
  _format_episode_range [] ≠ "unknown".
Proof. discriminate. Qed.

(** C3 (amended).  The empty list is formatted as the literal marker
    [未知]; a singleton [[n]] as [Enn], zero-padded to two digits; and a
    sorted duplicate-free list as its maximal contiguous runs in
    ascending order, joined by commas, a run of length at least 2 as
    [Eaa-Ebb] and an isolated number as [Enn].  Every sorted
    duplicate-free list has such a decomposition, and
    [[1,3,5,6,7,10]] gives [E01,E03,E05-E07,E10]. *)
Theorem format_episode_range_spec :
  _format_episode_range [] = "未知"
  ∧ (∀ n, _format_episode_range [n] = "E" +:+ fmt02d n)
  ∧ (∀ l, StronglySorted Z.lt l → l ≠ [] →
       ∃ rs, maximal_runs l rs ∧ _format_episode_range l = format_runs rs)
  ∧ (∀ l rs, maximal_runs l rs → l ≠ [] →
       _format_episode_range l = format_runs rs)
  ∧ _format_episode_range [1; 3; 5; 6; 7; 10] = "E01,E03,E05-E07,E10".
Proof.
  split; [reflexivity|]. split; [reflexivity|]. split; [|split].
  - intros l Hs Hne. exists (runs_of l).
    pose proof (runs_of_maximal l Hs) as Hm.
    split; [done|]. by apply format_maximal_runs.
  - apply format_maximal_runs.
  - reflexivity.
Qed.

Lemma format_episode_range_spec_witness :
  StronglySorted Z.lt [1; 3; 5; 6; 7; 10]
  ∧ maximal_runs [1; 3; 5; 6; 7; 10] [(1, 1); (3, 3); (5, 7); (10, 10)]
  ∧ _format_episode_range [1; 3; 5; 6; 7; 10]
    = format_runs [(1, 1); (3, 3); (5, 7); (10, 10)].
Proof.
  assert (maximal_runs [1; 3; 5; 6; 7; 10] [(1, 1); (3, 3); (5, 7); (10, 10)]) as Hm.
  { split; [reflexivity|]. split.
    - repeat constructor; simpl; lia.
    - simpl. lia. }
  split; [|split; [exact Hm|]].
  - repeat (constructor; [|repeat constructor; lia]). constructor.
  - destruct format_episode_range_spec as (_ & _ & _ & H & _).
    apply H; [exact Hm|discriminate].
Defined.

End FormatRange.

(** ** The merged event *)

Section Merge.
Import PushBuffer MergeSpec.
Variable py_repr : value → string.

Lemma take_digits_all s : all_digits (take_digits s) = true.
Proof.
  induction s as [|c r IH]; [done|]. simpl.
  destruct (is_digit c) eqn:E; [|done]. simpl. by rewrite E.
Qed.

Lemma search_digits_all s m : search_digits s = Some m → all_digits m = true.
Proof.
  induction s as [|c r IH]; [done|]. simpl.
  destruct (is_digit c) eqn:E; [|done].
  intros [= <-]. simpl. by rewrite E, take_digits_all.
Qed.

Lemma digit_val_nonneg c : is_digit c = true → 0 <= digit_val c.
Proof.
  unfold is_digit, digit_val. intros [H1 H2]%andb_prop.
  apply Nat.leb_le in H1. lia.
Qed.

Lemma digits_acc_nonneg s : ∀ acc,
  all_digits s = true → 0 <= acc → 0 <= digits_acc s acc.
Proof.
  induction s as [|c r IH]; intros acc Hd Hacc; [done|].
  simpl in *. apply andb_prop in Hd as [Hc Hr].
  apply IH; [done|]. pose proof (digit_val_nonneg c Hc). lia.
Qed.

Lemma extract_episode_number_nonneg v : 0 <= _extract_episode_number py_repr v.
Proof.
  unfold _extract_episode_number.
  destruct (negb (truthy v)); [done|].
  destruct (search_digits _) as [m|] eqn:E; [|done].
  apply digits_acc_nonneg; [|done]. by eapply search_digits_all.
Qed.

(** What the scanning loop computes. *)
Lemma scan_spec_gen episodes : ∀ acc season,
  foldl (scan_step py_repr) (acc, season) episodes
  = (acc ++ filter (λ n, 0 < n) (episode_number py_repr <$> episodes),
     match season with
     | Some s => Some s
     | None => season_number py_repr <$> head episodes
     end).
Proof.
  induction episodes as [|ep eps IH]; intros acc season.
  - simpl. rewrite app_nil_r. by destruct season.
  - cbn [foldl]. unfold scan_step at 2.
    fold (episode_number py_repr ep). fold (season_number py_repr ep).
    pose proof (extract_episode_number_nonneg (get_or ep "episode" (VStr ""))) as Hnn.
    fold (episode_number py_repr ep) in Hnn.
    rewrite fmap_cons, filter_cons.
    destruct (Z.eqb_spec (episode_number py_repr ep) 0) as [E0|E0].
    + rewrite IH. rewrite decide_False by lia. by destruct season.
    + rewrite IH. rewrite decide_True by lia.
      rewrite <- app_assoc. by destruct season.
Qed.

Lemma scan_spec episodes :
  scan py_repr episodes
  = (filter (λ n, 0 < n) (episode_number py_repr <$> episodes),
     season_number py_repr <$> head episodes).
Proof. unfold scan. by rewrite scan_spec_gen. Qed.

Lemma sorted_set_length xs :
  length (sorted_set xs) = size (list_to_set xs : gset Z).
Proof.
  unfold sorted_set. by rewrite merge_sort_Permutation.
Qed.

Lemma season_number_nonempty ep : season_number py_repr ep ≠ "".
Proof.
  unfold season_number, _extract_season_number.
  destruct (negb _); [done|]. destruct (match _ with VStr _ => _ | _ => _ end); [done|].
  destruct (search_digits _) as [m|] eqn:E; [|done].
  revert E. generalize (py_str py_repr (get_or ep "season" (VStr ""))).
  intros s. induction s as [|c' r' IH]; [done|].
  simpl. destruct (is_digit c'); [|done]. by intros [= <-].
Qed.

Lemma merge_episodes_unfold episodes title first last_ep :
  head episodes = Some first → last episodes = Some last_ep →
  _merge_episodes py_repr episodes title
  = (action ← merged_action last_ep;
     mret (update_merged first last_ep title action
             (Some (season_number py_repr first))
             (sorted_set (filter (λ n, 0 < n) (episode_number py_repr <$> episodes))))).
Proof.
  intros Hfirst Hlast. unfold _merge_episodes.
  by rewrite scan_spec, Hfirst, Hlast.
Qed.

Lemma merged_action_returns last_ep :
  source_is_text last_ep → returns (merged_action last_ep).
Proof.
  intros [src Hsrc]. unfold merged_action. rewrite Hsrc.
  destruct (contains _ _); [by eexists|].
  destruct (negb _); by eexists.
Qed.

Ltac lookup_written :=
  repeat (rewrite lookup_insert_ne by done); by rewrite lookup_insert_eq.

Lemma update_merged_season first last_ep title action s numbers :
  s ≠ "" →
  update_merged first last_ep title action (Some s) numbers !! "season"
  = Some (VStr s).
Proof.
  intros Hs. unfold update_merged.
  destruct (String.eqb_spec s ""); [done|].
  destruct (truthy _); lookup_written.
Qed.

Lemma update_merged_action first last_ep title action season numbers :
  update_merged first last_ep title action season numbers !! "action"
  = Some action.
Proof. unfold update_merged. destruct (truthy _); lookup_written. Qed.

Lemma update_merged_count first last_ep title action season numbers :
  update_merged first last_ep title action season numbers !! "episode_count"
  = Some (VInt (Z.of_nat (length numbers))).
Proof. unfold update_merged. destruct (truthy _); lookup_written. Qed.

Lemma update_merged_frame first last_ep title action season numbers k :
  k ∉ overwritten_keys →
  update_merged first last_ep title action season numbers !! k = first !! k.
Proof.
  unfold overwritten_keys. rewrite !not_elem_of_cons. intros Hk.
  destruct Hk as (? & ? & ? & ? & ? & ? & ? & ? & _).
  unfold update_merged.
  destruct (truthy (get first "image")) eqn:Himg.
  - destruct (decide (k = "image")) as [->|Hne].
    + rewrite lookup_insert_eq. unfold get in *.
      destruct (first !! "image"); [done|discriminate].
    + by rewrite !lookup_insert_ne.
  - by rewrite !lookup_insert_ne.
Qed.

Lemma last_head {A} (l : list A) x : last l = Some x → is_Some (head l).
Proof. destruct l; [done|]. by eexists. Qed.

(** The merged event exists whenever the last event's source is text. *)
Lemma merge_episodes_returns episodes title first last_ep :
  head episodes = Some first → last episodes = Some last_ep →
  source_is_text last_ep →
  ∃ action,
    merged_action last_ep = Ok action ∧
    _merge_episodes py_repr episodes title
    = Ok (update_merged first last_ep title action
            (Some (season_number py_repr first))
            (sorted_set (filter (λ n, 0 < n) (episode_number py_repr <$> episodes)))).
Proof.
  intros Hfirst Hlast Hsrc.
  destruct (merged_action_returns last_ep Hsrc) as [action Hact].
  exists action. split; [done|].
  rewrite (merge_episodes_unfold _ _ _ _ Hfirst Hlast), Hact. done.
Qed.

(** C4 (amended).  For a non-empty list of buffered events whose last
    event has a textual source, the merged event's action is the fixed
    batch-library-update label whenever that source contains [EMBY]
    (in any letter case), whatever the last event's action is;
    otherwise it is the last event's action when that is present
    (truthy), and the fixed merged-download label when it is absent. *)
Theorem merged_action_spec episodes title last_ep src :
  last episodes = Some last_ep →
  get_or last_ep "source" (VStr "") = VStr src →
  ∃ m, _merge_episodes py_repr episodes title = Ok m ∧
       m !! "action" = Some (
         if contains "EMBY" (upper src) then VStr LABEL_LIBRARY_BATCH
         else if truthy (get last_ep "action") then get last_ep "action"
         else VStr LABEL_MERGED_DOWNLOAD).
Proof.
  intros Hlast Hsrc.
  destruct (last_head _ _ Hlast) as [first Hfirst].
  destruct (merge_episodes_returns episodes title first last_ep Hfirst Hlast)
    as (action & Hact & ->); [by exists src|].
  eexists. split; [done|]. rewrite update_merged_action. f_equal.
  unfold merged_action in Hact. rewrite Hsrc in Hact.
  destruct (contains "EMBY" (upper src)); [by inversion Hact|].
  destruct (truthy (get last_ep "action")); by inversion Hact.
Qed.

(** On any non-empty list, the merged season is the season number of
    the first event; later events are not consulted. *)
Lemma merged_season_first_event episodes title first last_ep :
  head episodes = Some first → last episodes = Some last_ep →
  source_is_text last_ep →
  ∃ m, _merge_episodes py_repr episodes title = Ok m ∧
       m !! "season" = Some (VStr (season_number py_repr first)).
Proof.
  intros Hfirst Hlast Hsrc.
  destruct (merge_episodes_returns episodes title first last_ep Hfirst Hlast Hsrc)
    as (action & _ & ->).
  eexists. split; [done|].
  apply update_merged_season, season_number_nonempty.
Qed.

(** When all buffered events have one season number, as the events of
    one bucket do, that number is also the first non-default one (or the
    default). *)
Lemma first_non_default_season_uniform episodes first :
  head episodes = Some first →
  Forall (λ ep, season_number py_repr ep = season_number py_repr first) episodes →
  first_non_default_season py_repr episodes = season_number py_repr first.
Proof.
  intros Hfirst Hall. unfold first_non_default_season.
  destruct (decide (season_number py_repr first = "1")) as [E1|E1].
  - rewrite E1 in *.
    replace (filter (λ s, s ≠ "1") (season_number py_repr <$> episodes))
      with (@nil string); [done|].
    symmetry. clear Hfirst. induction Hall as [|ep eps Hep _ IH]; [done|].
    rewrite fmap_cons, filter_cons, Hep. by rewrite decide_False by (by intros ?).
  - destruct episodes as [|ep eps]; [done|]. injection Hfirst as ->.
    rewrite fmap_cons, filter_cons. by rewrite decide_True.
Qed.

(** *** The buckets of the buffer hold one season each *)

Lemma extract_season_number_digits v :
  all_digits (_extract_season_number py_repr v) = true.
Proof.
  unfold _extract_season_number.
  destruct (negb _); [done|]. destruct (match _ with VStr _ => _ | _ => _ end); [done|].
  destruct (search_digits _) as [m|] eqn:E; [|done].
  by eapply search_digits_all.
Qed.

Lemma all_digits_no_separator a d :
  all_digits (a +:+ String "_" (String "S" d)) = false.
Proof. induction a as [|c a IH]; [done|]. simpl. by rewrite IH, andb_false_r. Qed.

(** The season is the part of the key after its last ["_S"]. *)
Lemma key_season_inj a : ∀ b d1 d2,
  all_digits d1 = true → all_digits d2 = true →
  a +:+ String "_" (String "S" d1) = b +:+ String "_" (String "S" d2) →
  d1 = d2.
Proof.
  induction a as [|c a IH]; intros b d1 d2 H1 H2 Heq.
  - destruct b as [|c1 [|c2 b]]; simpl in Heq.
    + by injection Heq.
    + by injection Heq.
    + injection Heq as _ _ ->. by rewrite all_digits_no_separator in H1.
  - destruct b as [|c' b]; simpl in Heq.
    + destruct a as [|c2 a]; simpl in Heq.
      * by injection Heq.
      * injection Heq as _ _ <-. by rewrite all_digits_no_separator in H2.
    + injection Heq as _ Heq. by eapply IH.
Qed.

Lemma season_number_default ep :
  _extract_season_number py_repr (get_or ep "season" (VStr "1"))
  = season_number py_repr ep.
Proof. unfold season_number, get_or. by destruct (ep !! "season"). Qed.

Lemma buffer_key_season title1 title2 ep1 ep2 :
  buffer_key py_repr title1 ep1 = buffer_key py_repr title2 ep2 →
  season_number py_repr ep1 = season_number py_repr ep2.
Proof.
  unfold buffer_key. rewrite !season_number_default.
  apply key_season_inj; apply extract_season_number_digits.
Qed.


(** Every event of a bucket was filed under the bucket's key, and no
    bucket is empty. *)
Lemma reachable_buckets buffer :
  reachable py_repr buffer →
  ∀ key episodes, buffer !! key = Some episodes →
    episodes ≠ []
    ∧ Forall (λ ep, ∃ title, buffer_key py_repr title ep = key) episodes.
Proof.
  induction 1 as [|buffer title ep _ IH|buffer key0 _ IH]; intros key episodes Hk.
  - by rewrite lookup_empty in Hk.
  - unfold add_episode in Hk.
    destruct (decide (buffer_key py_repr title ep = key)) as [<-|Hne].
    + rewrite lookup_insert_eq in Hk. injection Hk as <-. split.
      * by destruct (default [] _).
      * apply Forall_app. split.
        -- destruct (buffer !! buffer_key py_repr title ep) as [l|] eqn:El;
             [by eapply IH|constructor].
        -- apply Forall_singleton. by exists title.
    + rewrite lookup_insert_ne in Hk by done. by apply IH.
  - unfold _delayed_push in Hk.
    destruct (buffer !! key0) as [[|first rest]|] eqn:E0; simpl in Hk;
      try by apply IH.
    destruct (decide (key0 = key)) as [->|Hne].
    + by rewrite lookup_delete_eq in Hk.
    + rewrite lookup_delete_ne in Hk by done. by apply IH.
Qed.

(** What a flush hands to the callback carries the first non-default
    season of its bucket: on the buckets of the buffer, the season of
    the first event is the season of all. *)
Lemma delayed_push_season buffer key r :
  reachable py_repr buffer →
  (_delayed_push py_repr buffer key).1 = Some r →
  ∃ episodes, buffer !! key = Some episodes ∧ episodes ≠ [] ∧
    ∀ m, r = Ok m →
      m !! "season" = Some (VStr (first_non_default_season py_repr episodes)).
Proof.
  intros Hreach Hflush. unfold _delayed_push in Hflush.
  destruct (buffer !! key) as [[|first rest]|] eqn:Hk; try done.
  cbn [fst] in Hflush. injection Hflush as <-.
  exists (first :: rest). split; [done|]. split; [done|].
  intros m Hm.
  destruct (reachable_buckets buffer Hreach key _ Hk) as [_ Hkeys].
  assert (last (first :: rest) = Some (default first (last rest))) as Hlast.
  { rewrite last_cons. by destruct (last rest). }
  rewrite (merge_episodes_unfold (first :: rest) _ first _ eq_refl Hlast) in Hm.
  destruct (merged_action _) as [action|e]; [|done]. injection Hm as <-.
  rewrite update_merged_season by apply season_number_nonempty.
  f_equal. f_equal. symmetry.
  apply first_non_default_season_uniform; [done|].
  pose proof Hkeys as [[t0 Ht0] _]%Forall_cons.
  eapply Forall_impl; [exact Hkeys|].
  intros ep [t Ht]. simpl in Ht.
  apply (buffer_key_season t t0). congruence.
Qed.

(** C9.  For a non-empty list of buffered events, the merged event
    agrees with the first buffered event on every key outside the
    overwritten ones (title, season, episode_count, episode_range,
    episode_list, is_merged, action, timestamp); in particular its image
    is the first event's image whenever that one is non-null.  The merged
    event exists whenever the last event's source is text. *)
Theorem merge_preserves_first_event episodes title first last_ep :
  head episodes = Some first → last episodes = Some last_ep →
  (source_is_text last_ep → returns (_merge_episodes py_repr episodes title))
  ∧ ∀ m, _merge_episodes py_repr episodes title = Ok m →
      (∀ k, k ∉ overwritten_keys → m !! k = first !! k)
      ∧ (∀ img, first !! "image" = Some img → img ≠ VNone →
           m !! "image" = Some img).
Proof.
  intros Hfirst Hlast. split.
  - intros Hsrc.
    destruct (merge_episodes_returns episodes title first last_ep Hfirst Hlast Hsrc)
      as (action & _ & ->). by eexists.
  - intros m Hm. rewrite (merge_episodes_unfold _ _ _ _ Hfirst Hlast) in Hm.
    destruct (merged_action last_ep) as [action|e]; [|done].
    injection Hm as <-.
    assert (∀ k, k ∉ overwritten_keys →
              update_merged first last_ep title action
                (Some (season_number py_repr first))
                (sorted_set (filter (λ n, 0 < n) (episode_number py_repr <$> episodes)))
              !! k = first !! k) as Hframe
      by (intros k; apply update_merged_frame).
    split; [done|].
    intros img Himg _. rewrite Hframe; [done|].
    unfold overwritten_keys. rewrite !not_elem_of_cons. by repeat split; [..|apply not_elem_of_nil].
Qed.

Lemma size_list_to_set_le (l : list Z) :
  (size (list_to_set l : gset Z) ≤ length l)%nat.
Proof.
  induction l as [|x l IH]; [done|].
  simpl. rewrite size_union_alt, size_singleton.
  assert (size (list_to_set l ∖ {[x]} : gset Z) ≤ size (list_to_set l : gset Z))%nat
    as Hle by (apply subseteq_size, subseteq_difference_l; reflexivity).
  lia.
Qed.

(** *** The extractor against the first digit run *)

Lemma is_digit_decimal c : is_digit c = is_decimal_digit c.
Proof. by destruct c as [[] [] [] [] [] [] [] []]. Qed.

Lemma digit_val_place c : is_digit c = true → digit_val c = digit_of c.
Proof. by destruct c as [[] [] [] [] [] [] [] []]. Qed.

Lemma take_digits_leading s :
  String.list_ascii_of_string (take_digits s)
  = leading_digits (String.list_ascii_of_string s).
Proof.
  induction s as [|c r IH]; [done|]. simpl.
  rewrite <- is_digit_decimal. destruct (is_digit c); [|done].
  simpl. by rewrite IH.
Qed.

Lemma search_digits_first_run s :
  match search_digits s with
  | Some m => String.list_ascii_of_string m = first_digit_run s
  | None => first_digit_run s = []
  end.
Proof.
  unfold first_digit_run. induction s as [|c r IH]; [done|].
  cbn [search_digits String.list_ascii_of_string from_first_digit].
  rewrite <- is_digit_decimal. destruct (is_digit c) eqn:Hc; [|exact IH].
  cbn [String.list_ascii_of_string leading_digits].
  rewrite <- is_digit_decimal, Hc. by rewrite take_digits_leading.
Qed.

Lemma digits_acc_decimal s : ∀ acc,
  all_digits s = true →
  digits_acc s acc
  = acc * 10 ^ Z.of_nat (String.length s)
    + decimal_value (String.list_ascii_of_string s).
Proof.
  induction s as [|c r IH]; intros acc Hd.
  - simpl. lia.
  - cbn [all_digits] in Hd. apply andb_prop in Hd as [Hc Hr].
    cbn [digits_acc String.length String.list_ascii_of_string decimal_value].
    rewrite (IH _ Hr), (digit_val_place c Hc).
    assert (length (String.list_ascii_of_string r) = String.length r) as ->.
    { clear. induction r as [|c r IH]; [done|]. simpl. by rewrite IH. }
    rewrite Nat2Z.inj_succ, Z.pow_succ_r by lia. lia.
Qed.

(** The extractor computes what the specification reads off the field. *)
Lemma extract_episode_number_first_run ep :
  episode_number py_repr ep = first_run_number py_repr ep.
Proof.
  unfold episode_number, first_run_number, _extract_episode_number.
  destruct (truthy (get_or ep "episode" (VStr ""))); [|done]. cbn [negb].
  pose proof (search_digits_first_run
                (py_str py_repr (get_or ep "episode" (VStr "")))) as Hrun.
  destruct (search_digits _) as [m|] eqn:Hm.
  - rewrite <- Hrun. unfold int_of_digits.
    rewrite digits_acc_decimal by (by eapply search_digits_all). lia.
  - by rewrite Hrun.
Qed.

(** C10.  For a non-empty list of buffered events, the merged event's
    episode_count is the number of distinct positive episode numbers
    extracted from the events (first digit run of the episode field; an
    empty or digit-free field gives 0 and is left out).  It is at most
    the number of events and is strictly smaller when labels repeat or
    lack digits, as for four events labelled episode 3, episode 3,
    episode 12 and OVA, which count 2. *)
Theorem merged_episode_count_spec episodes title last_ep :
  last episodes = Some last_ep → source_is_text last_ep →
  (∃ m, _merge_episodes py_repr episodes title = Ok m ∧
        m !! "episode_count"
        = Some (VInt (Z.of_nat (size (distinct_positive_episodes py_repr episodes)))))
  ∧ (size (distinct_positive_episodes py_repr episodes) ≤ length episodes)%nat
  ∧ (∃ m, _merge_episodes py_repr four_events (VStr "Frieren") = Ok m ∧
          m !! "episode_count" = Some (VInt 2) ∧
          distinct_positive_episodes py_repr four_events = {[3; 12]}).
Proof.
  intros Hlast Hsrc.
  destruct (last_head _ _ Hlast) as [first Hfirst].
  split; [|split].
  - destruct (merge_episodes_returns episodes title first last_ep Hfirst Hlast Hsrc)
      as (action & _ & ->).
    eexists. split; [done|].
    rewrite update_merged_count, sorted_set_length.
    unfold distinct_positive_episodes.
    assert (episode_number py_repr <$> episodes
            = first_run_number py_repr <$> episodes) as ->; [|done].
    apply list_fmap_ext. intros i ep _. apply extract_episode_number_first_run.
  - unfold distinct_positive_episodes.
    etrans; [apply size_list_to_set_le|].
    etrans; [apply length_filter|]. by rewrite length_fmap.
  - eexists. split; [reflexivity|]. split; by vm_compute.
Qed.

End Merge.

(** C4 as stated fails for a library-origin event: its action is
    present, and the merged action is the batch-library-update label. *)
Lemma merged_action_library_overrides :
  truthy (Py.get MergeSpec.library_event "action") = true
  ∧ ∃ m, PushBuffer._merge_episodes MergeSpec.no_repr [MergeSpec.library_event]
           (VStr "Frieren") = Ok m
         ∧ m !! "action" = Some (VStr "媒体库批量更新")
         ∧ Py.get MergeSpec.library_event "action" = VStr "媒体更新已完成"
         ∧ m !! "action" ≠ Some (Py.get MergeSpec.library_event "action").
Proof.
  split; [reflexivity|]. eexists. split; [reflexivity|].
  split; [vm_compute; reflexivity|]. split; [vm_compute; reflexivity|].
  vm_compute. discriminate.
Qed.


Section MergeWitnesses.
Import PushBuffer MergeSpec.

Lemma merged_action_spec_witness :
  ∃ m, _merge_episodes no_repr two_events (VStr "Frieren") = Ok m ∧
       m !! "action" = Some (VStr "下载完成").
Proof.
  apply (merged_action_spec no_repr two_events (VStr "Frieren")
           (feed_event (VStr "2") (VStr "第 2 季 | 第 5 集")) "ANIRSS");
    reflexivity.
Defined.


Lemma merge_preserves_first_event_witness :
  returns (_merge_episodes no_repr two_events (VStr "Frieren"))
  ∧ ∀ m, _merge_episodes no_repr two_events (VStr "Frieren") = Ok m →
      m !! "episode" = Some (VStr "第 2 季 | 第 4 集")
      ∧ m !! "image" = Some (VStr "/cache/209867.png").
Proof.
  destruct (merge_preserves_first_event no_repr two_events (VStr "Frieren")
              (feed_event (VStr "2") (VStr "第 2 季 | 第 4 集"))
              (feed_event (VStr "2") (VStr "第 2 季 | 第 5 集"))) as [Hret Hframe].
  - reflexivity.
  - reflexivity.
  - split.
    + apply Hret. by exists "ANIRSS".
    + intros m Hm. destruct (Hframe m Hm) as [Hk Himg]. split.
      * rewrite Hk; [reflexivity|].
        unfold overwritten_keys. rewrite !not_elem_of_cons.
        repeat split; try discriminate. apply not_elem_of_nil.
      * apply Himg; [reflexivity|discriminate].
Defined.

Lemma merged_episode_count_spec_witness :
  (∃ m, _merge_episodes no_repr four_events (VStr "Frieren") = Ok m ∧
        m !! "episode_count"
        = Some (VInt (Z.of_nat (size (distinct_positive_episodes no_repr four_events)))))
  ∧ (size (distinct_positive_episodes no_repr four_events) < length four_events)%nat.
Proof.
  destruct (merged_episode_count_spec no_repr four_events (VStr "Frieren")
              (feed_event (VStr "1") (VStr "OVA")))
    as (Hcount & _ & _ & _ & _ & Hset); [reflexivity | by exists "ANIRSS" |].
  split; [exact Hcount|].
  rewrite Hset. vm_compute. lia.
Defined.

End MergeWitnesses.

(** ** The normalizer *)

Section Subscriber.
Import DataPicker SubscriberSpec.
Variable json_loads : string → result value.
Variable anime_data : gmap string value.

(** One field: the parser returns the value unchanged, the decoded value,
    or the default; it raises only when the decoder fails with something
    other than [JSONDecodeError]. *)
Lemma parse_config_field_cases field expected default_value :
  let raw := get_or anime_data field default_value in
  let r := _parse_config_field json_loads anime_data field expected default_value in
  (is_none raw = true → r = Ok default_value)
  ∧ (is_none raw = false → expected raw = true → r = Ok raw)
  ∧ (is_none raw = false → expected raw = false →
       match raw with
       | VStr s =>
           match json_loads s with
           | Ok w => r = Ok (if expected w then w else default_value)
           | Raise JSONDecodeError => r = Ok default_value
           | Raise e => r = Raise e
           end
       | _ => r = Ok default_value
       end).
Proof.
  intros raw r. subst r. unfold _parse_config_field. fold raw.
  split; [|split].
  - by intros ->.
  - by intros -> ->.
  - intros -> ->. destruct raw as [| | |s| |]; try done.
    destruct (json_loads s) as [w|e]; simpl.
    + by destruct (expected w).
    + by destruct e.
Qed.

Lemma parse_config_field_shape field expected default_value v :
  expected default_value = true →
  _parse_config_field json_loads anime_data field expected default_value = Ok v →
  expected v = true.
Proof.
  intros Hd. unfold _parse_config_field.
  destruct (is_none _) eqn:Hn; [by intros [= <-]|].
  destruct (expected (get_or _ _ _)) eqn:He; [by intros [= <-]|].
  destruct (get_or _ _ _) as [| | |s| |]; try by intros [= <-].
  destruct (json_loads s) as [w|e]; simpl.
  - destruct (expected w) eqn:Hw; by intros [= <-].
  - destruct e; try done; by intros [= <-].
Qed.

Lemma parse_config_field_misshapen field expected default_value v raw :
  anime_data !! field = Some raw →
  misshapen json_loads expected raw →
  _parse_config_field json_loads anime_data field expected default_value = Ok v →
  v = default_value.
Proof.
  intros Hraw Hmis. unfold _parse_config_field, get_or. rewrite Hraw. simpl.
  unfold misshapen, denoted in Hmis.
  destruct (is_none raw) eqn:Hn; [by intros [= <-]|].
  destruct (expected raw) eqn:He; [congruence|].
  destruct raw as [| | |s| |]; try by intros [= <-].
  destruct (json_loads s) as [w|e]; simpl.
  - rewrite Hmis. by intros [= <-].
  - destruct e; try done; by intros [= <-].
Qed.

(** The extraction of the subscriber fields always returns. *)
Lemma pick_subscriber_returns :
  returns (_pick_subscriber json_loads anime_data).
Proof.
  unfold _pick_subscriber.
  destruct (negb _); [by eexists|].
  destruct (_parse_config_field _ _ "group_subscriber" _ _); simpl; [|by eexists].
  destruct (_parse_config_field _ _ "private_subscriber" _ _); simpl; by eexists.
Qed.

(** C8.  For every enrichment record and every behaviour of the JSON
    decoder, extracting the subscriber fields returns a pair (it never
    raises) of a dict and a list.  A field that holds malformed JSON
    text, or whose decoded or typed value has not the expected shape,
    yields its empty default ([{}] for group, [[]] for private).  A
    value that already has the expected type is returned unchanged by
    the field parser, and is the component of the pair whenever the
    other field is parsed without an unexpected decoder error (such an
    error resets both fields to their defaults). *)
Theorem pick_subscriber_lenient :
  ∃ g p,
    _pick_subscriber json_loads anime_data = Ok (g, p)
    ∧ is_dict g = true ∧ is_list p = true
    ∧ (∀ raw, anime_data !! "group_subscriber" = Some raw →
         misshapen json_loads is_dict raw → g = VDict ∅)
    ∧ (∀ raw, anime_data !! "private_subscriber" = Some raw →
         misshapen json_loads is_list raw → p = VList [])
    ∧ (∀ d, anime_data !! "group_subscriber" = Some (VDict d) →
         _parse_config_field json_loads anime_data "group_subscriber" is_dict (VDict ∅)
         = Ok (VDict d)
         ∧ (returns (_parse_config_field json_loads anime_data
                       "private_subscriber" is_list (VList [])) → g = VDict d))
    ∧ (∀ l, anime_data !! "private_subscriber" = Some (VList l) →
         _parse_config_field json_loads anime_data "private_subscriber" is_list (VList [])
         = Ok (VList l)
         ∧ (returns (_parse_config_field json_loads anime_data
                       "group_subscriber" is_dict (VDict ∅)) → p = VList l)).
Proof.
  assert (∀ d, anime_data !! "group_subscriber" = Some (VDict d) →
            _parse_config_field json_loads anime_data "group_subscriber" is_dict (VDict ∅)
            = Ok (VDict d)) as Hg_same.
  { intros d Hd. unfold _parse_config_field, get_or. by rewrite Hd. }
  assert (∀ l, anime_data !! "private_subscriber" = Some (VList l) →
            _parse_config_field json_loads anime_data "private_subscriber" is_list (VList [])
            = Ok (VList l)) as Hp_same.
  { intros l Hl. unfold _parse_config_field, get_or. by rewrite Hl. }
  unfold _pick_subscriber.
  destruct (negb (truthy (VDict anime_data))) eqn:Hempty.
  - (* the record is empty: no field is present *)
    assert (anime_data = ∅) as ->.
    { simpl in Hempty. apply negb_true_iff, negb_false_iff in Hempty.
      by apply bool_decide_eq_true_1 in Hempty. }
    exists (VDict ∅), (VList []).
    repeat split; try done; intros ? Hl; by rewrite lookup_empty in Hl.
  - destruct (_parse_config_field json_loads anime_data "group_subscriber"
                is_dict (VDict ∅)) as [g|eg] eqn:Hg; simpl.
    + destruct (_parse_config_field json_loads anime_data "private_subscriber"
                  is_list (VList [])) as [p|ep] eqn:Hp; simpl.
      * exists g, p. split; [done|].
        split; [exact (parse_config_field_shape _ _ _ _ eq_refl Hg)|].
        split; [exact (parse_config_field_shape _ _ _ _ eq_refl Hp)|].
        split; [intros raw Hraw Hmis;
                exact (parse_config_field_misshapen _ _ _ _ _ Hraw Hmis Hg)|].
        split; [intros raw Hraw Hmis;
                exact (parse_config_field_misshapen _ _ _ _ _ Hraw Hmis Hp)|].
        split.
        -- intros d Hd. specialize (Hg_same d Hd).
           split; [congruence|]. intros _. congruence.
        -- intros l Hl. specialize (Hp_same l Hl).
           split; [congruence|]. intros _. congruence.
      * exists (VDict ∅), (VList []).
        do 5 (split; [done|]). split.
        -- intros d Hd. specialize (Hg_same d Hd).
           split; [congruence|]. by intros [? ?].
        -- intros l Hl. specialize (Hp_same l Hl). congruence.
    + exists (VDict ∅), (VList []).
      do 5 (split; [done|]). split.
      * intros d Hd. specialize (Hg_same d Hd). congruence.
      * intros l Hl. specialize (Hp_same l Hl).
        split; [congruence|]. by intros [? ?].
Qed.

End Subscriber.

Lemma pick_subscriber_lenient_witness :
  ∃ g p,
    DataPicker._pick_subscriber DataPicker.no_json
      SubscriberSpec.enrichment_with_bad_json = Ok (g, p)
    ∧ g = VDict ∅
    ∧ p = VList [VStr "10001"; VStr "10002"].
Proof.
  destruct (pick_subscriber_lenient DataPicker.no_json
              SubscriberSpec.enrichment_with_bad_json)
    as (g & p & Heq & _ & _ & Hg & _ & _ & Hp).
  exists g, p. split; [exact Heq|]. split.
  - apply (Hg (VStr "{not json")); [reflexivity|exact I].
  - destruct (Hp [VStr "10001"; VStr "10002"]) as [_ Hsame]; [reflexivity|].
    apply Hsame. by eexists.
Defined.

Section Normalizer.
Import DataPicker.
Variable py_repr : value → string.
Variable json_loads : string → result value.
Variable fromisoformat_strftime : string → result string.
Variable generate_emby_image_url : value → value → value → result value.
Variable emby_host : value.

(** C2 fails on the code: a record whose [id] is text that is not a
    number makes [pick] raise [ValueError] from [_pick_id], for the feed
    and for the library source, whatever the enrichment record is. *)
Theorem pick_raises_on_malformed_id (anime_data : gmap string value) :
  pick py_repr json_loads fromisoformat_strftime generate_emby_image_url emby_host
    ANIRSS record_with_bad_id anime_data = Raise ValueError
  ∧ pick py_repr json_loads fromisoformat_strftime generate_emby_image_url emby_host
      EMBY record_with_bad_id anime_data = Raise ValueError.
Proof.
  destruct (pick_subscriber_returns json_loads anime_data) as [[g p] Hsub].
  split; unfold pick; rewrite Hsub; reflexivity.
Qed.

(** The same happens in [_pick_timestamp] for a timestamp that
    [datetime.fromisoformat] rejects. *)
Lemma pick_raises_on_malformed_timestamp (anime_data : gmap string value) :
  fromisoformat_strftime "yesterday" = Raise ValueError →
  pick py_repr json_loads fromisoformat_strftime generate_emby_image_url emby_host
    ANIRSS record_with_bad_timestamp anime_data = Raise ValueError.
Proof.
  intros Hiso.
  destruct (pick_subscriber_returns json_loads anime_data) as [[g p] Hsub].
  unfold pick. rewrite Hsub. cbn [mbind result_bind bind].
  replace (_pick_id ANIRSS record_with_bad_timestamp) with (Ok (VInt 7)) by reflexivity.
  cbn [mbind result_bind bind].
  replace (_pick_title py_repr ANIRSS record_with_bad_timestamp anime_data)
    with (Ok (VStr "Frieren")) by reflexivity.
  cbn [mbind result_bind bind].
  replace (_pick_episode py_repr ANIRSS record_with_bad_timestamp)
    with (Ok VNone) by reflexivity.
  cbn [mbind result_bind bind].
  replace (_pick_episode_title ANIRSS record_with_bad_timestamp)
    with (Ok VNone) by reflexivity.
  cbn [mbind result_bind bind].
  replace (_pick_timestamp fromisoformat_strftime ANIRSS record_with_bad_timestamp)
    with (t ← fromisoformat_strftime "yesterday"; mret (VStr t)) by reflexivity.
  by rewrite Hiso.
Qed.

(** C7 (amended).  When URL B is synthesized from a known reference id
    (no usable raw [tmdb_url]/[tmdbUrl], no match in the library's
    external urls) and the classification is null or text, the URL is
    [https://www.themoviedb.org/{segment}/{id}] where the segment is
    [tv] for a non-empty classification that differs from "movie" in
    every letter case, and [movie] when the classification equals
    "movie" in some letter case or is absent, null or empty. *)
Theorem tmdb_url_synthesis source (source_data anime_data : gmap string value)
    (tmdb_id media_type : value) :
  raw_tmdb_url source_data = None →
  library_external_url source source_data "themoviedb" = Ok None →
  _pick_tmdb_id source source_data anime_data = Ok tmdb_id →
  truthy tmdb_id = true →
  _pick_media_type source source_data = Ok media_type →
  media_type = VNone ∨ is_str media_type = true →
  _pick_tmdb_url py_repr source source_data anime_data
  = Ok (VStr ("https://www.themoviedb.org/" +:+ synthesized_segment media_type
              +:+ "/" +:+ py_str py_repr tmdb_id)).
Proof.
  intros Hraw Hlib Hid Htruthy Hmt Hshape.
  unfold _pick_tmdb_url. rewrite Hraw, Hlib. simpl.
  rewrite Hid. simpl. rewrite Htruthy, Hmt. simpl.
  destruct Hshape as [->|Hstr]; [reflexivity|].
  destruct media_type as [| | |s| |]; try discriminate.
  unfold type_path, synthesized_segment. simpl.
  destruct (String.eqb s ""); [reflexivity|]. simpl.
  by destruct (String.eqb (lower s) "movie").
Qed.

(** A classification that is neither null nor text makes the synthesis
    raise. *)
Lemma type_path_raises media_type :
  truthy media_type = true → is_str media_type = false →
  type_path media_type = Raise AttributeError.
Proof. intros Ht Hs. unfold type_path. rewrite Ht. by destruct media_type. Qed.

End Normalizer.

(** C7 as stated fails for a feed record without season: the
    classification is null, no raw or library URL exists, the reference
    id is known, and the synthesized URL has the [movie] segment, where
    the claim has [tv]. *)
Lemma tmdb_url_null_classification_is_movie :
  DataPicker._pick_media_type ANIRSS DataPicker.feed_record_without_season = Ok VNone
  ∧ DataPicker.raw_tmdb_url DataPicker.feed_record_without_season = None
  ∧ DataPicker.library_external_url ANIRSS DataPicker.feed_record_without_season
      "themoviedb" = Ok None
  ∧ DataPicker._pick_tmdb_url MergeSpec.no_repr ANIRSS
      DataPicker.feed_record_without_season ∅
    = Ok (VStr "https://www.themoviedb.org/movie/209867")
  ∧ DataPicker.claimed_segment VNone = "tv".
Proof. repeat split; reflexivity. Qed.

Lemma tmdb_url_synthesis_witness :
  DataPicker._pick_tmdb_url MergeSpec.no_repr EMBY DataPicker.library_series_record ∅
  = Ok (VStr "https://www.themoviedb.org/tv/209867").
Proof.
  apply (tmdb_url_synthesis MergeSpec.no_repr EMBY DataPicker.library_series_record ∅
           (VInt 209867) (VStr "Series")); try reflexivity.
  by right.
Defined.

(** ** The image selector *)

Section Selector.
Import ImageSelector.
Variable py_repr : value → string.
Variable w : world.
Variable image_queue : list value.
Variable tmdb_id : value.
Variable source_data : option (gmap string value).
Variable emby_series_id : value.

Lemma first_success_all_fail tasks :
  Forall (failed_fetch w) tasks →
  first_success w tasks = None ∨ first_success w tasks = Some "".
Proof.
  induction 1 as [|[url tag] rest Hfail _ IH]; [by left|].
  simpl. unfold failed_fetch in Hfail. simpl in Hfail.
  destruct (fetch w url tag) as [binary|e]; [right; by subst|done].
Qed.

Lemma download_all_fail url_dict :
  Forall (failed_fetch w) url_dict →
  _download_first_valid_image w url_dict = None
  ∨ _download_first_valid_image w url_dict = Some "".
Proof.
  intros Hall. apply first_success_all_fail.
  unfold as_completed. by rewrite merge_sort_Permutation.
Qed.

(** Without a successful download nothing is written. *)
Lemma process_image_queue_all_fail fs :
  all_downloads_fail py_repr w image_queue source_data →
  _process_image_queue py_repr w image_queue tmdb_id source_data emby_series_id fs
  = (None, fs).
Proof.
  intros Hall. unfold _process_image_queue, all_downloads_fail in *.
  destruct (_clean_image_queue py_repr w image_queue source_data)
    as [|t ts] eqn:Hclean.
  - by destruct image_queue.
  - destruct (download_all_fail (t :: ts) Hall) as [->| ->];
      by destruct image_queue.
Qed.

(** C6.  If the local cache file exists but is expired, and every
    candidate download fails (or no candidate is usable), [select]
    returns the stale file's path, and the call leaves the file system,
    hence the cached file's content, as it was. *)
Theorem select_returns_stale_cache (fs : gmap string file) path f :
  _get_cache_path py_repr w tmdb_id emby_series_id = Some path →
  fs !! path = Some f →
  _is_cache_img_expired w fs path = true →
  all_downloads_fail py_repr w image_queue source_data →
  select py_repr w image_queue tmdb_id source_data emby_series_id fs
  = (Some path, fs)
  ∧ (select py_repr w image_queue tmdb_id source_data emby_series_id fs).2 !! path
    = Some f.
Proof.
  intros Hpath Hfile Hexp Hall.
  assert (select py_repr w image_queue tmdb_id source_data emby_series_id fs
          = (Some path, fs)) as Hsel.
  { unfold select, _search_in_localstore. rewrite Hpath, Hfile, Hexp.
    rewrite process_image_queue_all_fail by done.
    unfold _fallback_to_available_image. by rewrite Hfile. }
  split; [done|]. by rewrite Hsel.
Qed.

End Selector.

Lemma select_returns_stale_cache_witness :
  ImageSelector.select MergeSpec.no_repr ImageSelector.offline_world
    [VStr "https://image.example/poster.jpg"] (VStr "209867") None VNone
    ImageSelector.stale_cache
  = (Some "/data/cache/209867.png", ImageSelector.stale_cache).
Proof.
  apply (select_returns_stale_cache MergeSpec.no_repr ImageSelector.offline_world
           [VStr "https://image.example/poster.jpg"] (VStr "209867") None VNone
           ImageSelector.stale_cache "/data/cache/209867.png"
           (ImageSelector.File "PNG-old" (10 * 24 * 3600 * 1000000) true)).
  - reflexivity.
  - reflexivity.
  - reflexivity.
  - repeat constructor.
Defined.

(** ** The orchestrator *)

Section Orchestrator.
Import PushManager.
Variable py_repr : value → string.
Variable w : world.
Variable normalize :
  TableName → gmap string value → gmap string value → result (gmap string value).
Variable select_image :
  list value → value → gmap string value → value → result (option string).
Variable source : TableName.

Lemma bind_trace {A B} (m : run A) (k : A → run B) :
  (m ≫= k).1 = m.1 ++ match m.2 with inl a => (k a).1 | inr _ => [] end.
Proof.
  destruct m as [t [a|e]]; simpl.
  - unfold mbind, run_mbind, run_bind. by destruct (k a).
  - by rewrite app_nil_r.
Qed.

Lemma bind_ending {A B} (m : run A) (k : A → run B) :
  (m ≫= k).2 = match m.2 with inl a => (k a).2 | inr e => inr e end.
Proof.
  destruct m as [t [a|e]]; simpl; [|done].
  unfold mbind, run_mbind, run_bind. by destruct (k a).
Qed.

Lemma silent_bind {A B} (m : run A) (k : A → run B) :
  Forall silent m.1 → (∀ a, Forall silent (k a).1) → Forall silent (m ≫= k).1.
Proof.
  intros Hm Hk. rewrite bind_trace. apply Forall_app. split; [done|].
  destruct m.2; [apply Hk|constructor].
Qed.

Lemma silent_try {A} (m : run A) (h : exn → run A) :
  Forall silent m.1 → (∀ e, Forall silent (h e).1) → Forall silent (try_except m h).1.
Proof.
  intros Hm Hh. destruct m as [t [a|[|e]]]; simpl in *; try done.
  specialize (Hh e). destruct (h e) as [t' r]. simpl in *.
  apply Forall_app. by split.
Qed.

Lemma silent_call {A} (r : result A) : Forall silent (call r).1.
Proof. destruct r; constructor. Qed.

Lemma silent_emit ev : silent ev → Forall silent (emit ev).1.
Proof. intros H. simpl. by apply Forall_singleton. Qed.

Ltac silent_step :=
  first [ apply silent_bind; [|intros ?]
        | apply silent_try; [|intros ?]
        | apply silent_call
        | apply silent_emit; by split
        | by constructor
        | case_match ].

Lemma prepare_silent :
  Forall silent (prepare py_repr w normalize select_image source).1.
Proof.
  unfold prepare, fetch_record, record_id, enrich, pick_params, attach_image,
    resolve_targets.
  repeat silent_step.
Qed.

Lemma bind_inl {A B} (m : run A) (k : A → run B) b :
  (m ≫= k).2 = inl b → ∃ a, m.2 = inl a ∧ (k a).2 = inl b.
Proof.
  rewrite bind_ending. destruct m.2 as [a|e]; [|done]. by exists a.
Qed.

(** What [prepare] hands to the commit is the id of the fetched record. *)
Lemma prepare_result p :
  (prepare py_repr w normalize select_image source).2 = inl p →
  ∃ d, unsent_record w source = Ok (Some d) ∧ p.1.1.1 = get d "id".
Proof.
  unfold prepare. intros H.
  apply bind_inl in H as (d & Hd & H).
  apply bind_inl in H as (id & Hid & H).
  apply bind_inl in H as (anime & _ & H).
  apply bind_inl in H as (params & _ & H).
  apply bind_inl in H as (params' & _ & H).
  apply bind_inl in H as (targets & _ & H).
  exists d. split.
  - unfold fetch_record in Hd. rewrite bind_ending in Hd. simpl in Hd.
    destruct (unsent_record w source) as [[d'|]|]; simpl in Hd; try done.
    by injection Hd as ->.
  - unfold record_id in Hid. destruct (truthy (get d "id")); [|done].
    simpl in *. injection Hid as <-. by injection H as <-.
Qed.

Lemma commit_cases id :
  match upsert_sent w source id with
  | Ok _ => commit w source id = ([Commit id true], inl tt)
  | Raise _ => commit w source id = ([Commit id false], inr Returned)
  end.
Proof.
  unfold commit, _change_send_status.
  by destruct (upsert_sent w source id) as [[]|e].
Qed.

Lemma split_after_silent (l l2 pre post : list event) ev :
  Forall silent l → ¬ silent ev → l ++ l2 = pre ++ ev :: post →
  ∃ pre', pre = l ++ pre'.
Proof.
  revert pre. induction l as [|x l IH]; intros pre Hl Hev Heq.
  - by exists pre.
  - apply Forall_cons in Hl as [Hx Hl].
    destruct pre as [|y pre]; simpl in Heq.
    + injection Heq as -> _. done.
    + injection Heq as -> Heq.
      destruct (IH pre Hl Hev Heq) as [pre' ->]. by exists pre'.
Qed.

Lemma commit_event_silent id ok : silent (Commit id ok).
Proof. by split. Qed.

(** C1.  In every run of the pipeline, a render or dispatch action (and
    the hand-off to the merge buffer with the flush it arms) happens
    only after the store accepted the upsert of [send_status = 1] for
    the fetched record; when that upsert raises, the run ends without
    completing and its trace has no render, no dispatch to private or
    group targets and no hand-off. *)
Theorem commit_precedes_dispatch :
  let tr := trace py_repr w normalize select_image source in
  (∀ pre ev post, tr = pre ++ ev :: post → ¬ silent ev →
     ∃ d, unsent_record w source = Ok (Some d)
          ∧ upsert_sent w source (get d "id") = Ok tt
          ∧ Commit (get d "id") true ∈ pre)
  ∧ (∀ d e, unsent_record w source = Ok (Some d) →
       upsert_sent w source (get d "id") = Raise e →
       Forall silent tr
       ∧ Forall (λ ev, is_dispatch ev = false) tr
       ∧ ∃ how, (execute py_repr w normalize select_image source).2 = inr how).
Proof.
  intros tr. subst tr. unfold trace, execute.
  pose proof prepare_silent as Hprep.
  rewrite bind_trace, bind_ending.
  destruct (prepare py_repr w normalize select_image source).2 as [p|how] eqn:Hp.
  - destruct (prepare_result p Hp) as (d & Hd & Hid).
    rewrite bind_trace, bind_ending.
    pose proof (commit_cases p.1.1.1) as Hcommit. rewrite Hid in *.
    destruct (upsert_sent w source (get d "id")) as [[]|e] eqn:Hup;
      rewrite Hcommit; simpl.
    + split.
      * intros pre ev post Heq Hev. exists d. split; [done|]. split; [done|].
        rewrite cons_middle, app_assoc in Heq.
        apply split_after_silent in Heq as [pre' ->]; [|  |done].
        -- set_solver.
        -- apply Forall_app. split; [done|].
           apply Forall_singleton, commit_event_silent.
      * intros d' e Hd'. rewrite Hd in Hd'. injection Hd' as <-. by rewrite Hup.
    + assert (Forall silent
                ((prepare py_repr w normalize select_image source).1
                 ++ [Commit (get d "id") false])) as Hall.
      { apply Forall_app. split; [done|].
        apply Forall_singleton, commit_event_silent. }
      split.
      * intros pre ev post Heq Hev. rewrite Heq in Hall.
        apply Forall_app in Hall as [_ Hall].
        by apply Forall_cons in Hall as [? _].
      * intros _ _ _ _. split; [done|]. split; [|by eexists].
        eapply Forall_impl; [exact Hall|].
        intros ev [Hdel _]. by destruct ev.
  - rewrite app_nil_r. split.
    + intros pre ev post Heq Hev. rewrite Heq in Hprep.
      apply Forall_app in Hprep as [_ Hprep].
      by apply Forall_cons in Hprep as [? _].
    + intros _ _ _ _. split; [done|]. split; [|by eexists].
      eapply Forall_impl; [exact Hprep|].
      intros ev [Hdel _]. by destruct ev.
Qed.

End Orchestrator.

Lemma commit_precedes_dispatch_witness :
  PushManager.trace MergeSpec.no_repr (PushManager.sample_world true)
    PushManager.sample_normalize PushManager.sample_select_image EMBY
  = [PushManager.SelectUnsent; PushManager.SelectAnime 209867; PushManager.Pick;
     PushManager.SelectImage;
     PushManager.Commit (VInt 7) true; PushManager.Render false;
     PushManager.SendPrivate ["10001"]]
  ∧ (∃ d, PushManager.unsent_record (PushManager.sample_world true) EMBY = Ok (Some d)
          ∧ PushManager.Commit (get d "id") true
            ∈ [PushManager.SelectUnsent; PushManager.SelectAnime 209867; PushManager.Pick;
     PushManager.SelectImage;
               PushManager.Commit (VInt 7) true; PushManager.Render false])
  ∧ Forall PushManager.silent
      (PushManager.trace MergeSpec.no_repr (PushManager.sample_world false)
         PushManager.sample_normalize PushManager.sample_select_image EMBY).
Proof.
  split; [reflexivity|]. split.
  - destruct (commit_precedes_dispatch MergeSpec.no_repr (PushManager.sample_world true)
                PushManager.sample_normalize PushManager.sample_select_image EMBY)
      as [Horder _].
    destruct (Horder
                [PushManager.SelectUnsent; PushManager.SelectAnime 209867; PushManager.Pick;
     PushManager.SelectImage;
                 PushManager.Commit (VInt 7) true; PushManager.Render false]
                (PushManager.SendPrivate ["10001"]) [])
      as (d & Hd & _ & Hin).
    + reflexivity.
    + intros [Hdel _]. discriminate.
    + by exists d.
  - destruct (commit_precedes_dispatch MergeSpec.no_repr (PushManager.sample_world false)
                PushManager.sample_normalize PushManager.sample_select_image EMBY)
      as [_ Habort].
    destruct (Habort PushManager.movie_record OtherError) as [Hsilent _];
      [reflexivity | reflexivity | exact Hsilent].
Defined.

(* ===================================================================== *)
(** * Further properties                                                  *)
(* ===================================================================== *)

(** ** The merge buffer *)

Section MergeMore.
Import PushBuffer MergeSpec.
Variable py_repr : value → string.

Lemma sorted_set_elem x xs : x ∈ sorted_set xs ↔ x ∈ xs.
Proof.
  unfold sorted_set. rewrite merge_sort_Permutation, elem_of_elements.
  apply elem_of_list_to_set.
Qed.

Lemma strictly_sorted_of_nodup (l : list Z) :
  StronglySorted Z.le l → NoDup l → StronglySorted Z.lt l.
Proof.
  induction 1 as [|x l Hs IH Hall]; intros Hnd; [constructor|].
  apply NoDup_cons in Hnd as [Hx Hnd]. constructor; [by apply IH|].
  apply Forall_forall. intros y Hy.
  rewrite Forall_forall in Hall. specialize (Hall y Hy).
  assert (x ≠ y) by (intros ->; done). lia.
Qed.

Lemma sorted_set_sorted xs : StronglySorted Z.lt (sorted_set xs).
Proof.
  apply strictly_sorted_of_nodup.
  - unfold sorted_set. apply (StronglySorted_merge_sort Z.le).
  - unfold sorted_set. rewrite merge_sort_Permutation. apply NoDup_elements.
Qed.

(** What a merge that returns was made of. *)
Lemma merge_episodes_inv episodes title m :
  _merge_episodes py_repr episodes title = Ok m →
  ∃ first last_ep action,
    head episodes = Some first ∧ last episodes = Some last_ep ∧
    merged_action last_ep = Ok action ∧
    m = update_merged first last_ep title action
          (Some (season_number py_repr first))
          (sorted_set (filter (λ n, 0 < n) (episode_number py_repr <$> episodes))).
Proof.
  intros Hm.
  destruct (head episodes) as [first|] eqn:Hfirst; cycle 1.
  { destruct episodes; [|done]. unfold _merge_episodes in Hm. by rewrite scan_spec in Hm. }
  destruct (last episodes) as [last_ep|] eqn:Hlast; cycle 1.
  { destruct episodes as [|e es]; [done|].
    by destruct (proj2 (last_is_Some (e :: es))) as [? ?]; [|congruence]. }
  rewrite (merge_episodes_unfold py_repr _ _ _ _ Hfirst Hlast) in Hm.
  destruct (merged_action last_ep) as [action|e] eqn:Ha; [|done].
  injection Hm as <-. by exists first, last_ep, action.
Qed.

Lemma update_merged_written first last_ep title action season numbers :
  let m := update_merged first last_ep title action season numbers in
  m !! "episode_list" = Some (VList (VInt <$> numbers))
  ∧ m !! "episode_range" = Some (VStr (_format_episode_range numbers))
  ∧ m !! "is_merged" = Some (VBool true)
  ∧ m !! "timestamp" = Some (get last_ep "timestamp")
  ∧ m !! "title" = Some title.
Proof.
  unfold update_merged. simpl.
  destruct (truthy _); repeat split;
    (repeat (rewrite lookup_insert_ne by done); by rewrite lookup_insert_eq).
Qed.

(** X1.  A merge that returns lists the episode numbers in strictly
    ascending order, all positive, exactly those extracted from the
    events; [episode_count] is the length of that list and
    [episode_range] its formatted range. *)
Theorem merged_episode_list_invariant episodes title m :
  _merge_episodes py_repr episodes title = Ok m →
  ∃ numbers,
    m !! "episode_list" = Some (VList (VInt <$> numbers))
    ∧ StronglySorted Z.lt numbers
    ∧ (∀ n, n ∈ numbers ↔
         0 < n ∧ ∃ ep, ep ∈ episodes ∧ episode_number py_repr ep = n)
    ∧ m !! "episode_count" = Some (VInt (Z.of_nat (length numbers)))
    ∧ m !! "episode_range" = Some (VStr (_format_episode_range numbers)).
Proof.
  intros Hm.
  destruct (merge_episodes_inv _ _ _ Hm) as (first & last_ep & action & _ & _ & _ & ->).
  eexists. split; [apply update_merged_written|].
  split; [apply sorted_set_sorted|]. split; [|split].
  - intros n. rewrite sorted_set_elem, list_elem_of_filter, list_elem_of_fmap.
    split.
    + intros [Hpos (ep & -> & Hep)]. split; [done|]. by exists ep.
    + intros [Hpos (ep & Hep & <-)]. split; [done|]. by exists ep.
  - apply update_merged_count.
  - apply update_merged_written.
Qed.

(** A merge that returns marks the event as merged, takes its
    timestamp from the last buffered event and its title from the
    caller. *)
Theorem merged_fixed_fields episodes title last_ep m :
  last episodes = Some last_ep →
  _merge_episodes py_repr episodes title = Ok m →
  m !! "is_merged" = Some (VBool true)
  ∧ m !! "timestamp" = Some (get last_ep "timestamp")
  ∧ m !! "title" = Some title.
Proof.
  intros Hlast Hm.
  destruct (merge_episodes_inv _ _ _ Hm)
    as (first & last_ep' & action & _ & Hlast' & _ & ->).
  assert (last_ep' = last_ep) as -> by congruence.
  repeat split; apply update_merged_written.
Qed.


(** *** The buckets *)

Lemma string_length_app a b :
  String.length (a +:+ b) = (String.length a + String.length b)%nat.
Proof. induction a as [|c a IH]; simpl; [done|]. by rewrite IH. Qed.

Lemma string_app_inv_r s : ∀ a b, a +:+ s = b +:+ s → a = b.
Proof.
  induction a as [|c a IH]; intros b Heq.
  - destruct b as [|c' b]; [done|].
    apply (f_equal String.length) in Heq.
    rewrite !string_length_app in Heq. simpl in Heq. lia.
  - destruct b as [|c' b].
    + apply (f_equal String.length) in Heq.
      rewrite !string_length_app in Heq. simpl in Heq. lia.
    + simpl in Heq. injection Heq as -> Heq. f_equal. by apply IH.
Qed.

(** X3.  Two arrivals get the same bucket key exactly when their titles
    have the same text and their season numbers are equal: arrivals for
    different (title, season) pairs are never filed together. *)
Theorem buffer_key_inj title1 title2 ep1 ep2 :
  buffer_key py_repr title1 ep1 = buffer_key py_repr title2 ep2
  ↔ py_str py_repr title1 = py_str py_repr title2
    ∧ season_number py_repr ep1 = season_number py_repr ep2.
Proof.
  split.
  - intros Hkey. pose proof (buffer_key_season py_repr _ _ _ _ Hkey) as Hs.
    split; [|done]. unfold buffer_key in Hkey.
    rewrite !season_number_default, Hs in Hkey.
    by apply string_app_inv_r in Hkey.
  - intros [Ht Hs]. unfold buffer_key. by rewrite !season_number_default, Ht, Hs.
Qed.

Lemma add_all_snoc buffer arrivals a :
  Arrivals.add_all py_repr buffer (arrivals ++ [a])
  = add_episode py_repr (Arrivals.add_all py_repr buffer arrivals) a.1 a.2.
Proof. unfold Arrivals.add_all. by rewrite foldl_snoc. Qed.

(** X4.  After any sequence of arrivals at the empty buffer, the bucket
    of a key holds exactly the events filed under that key, in arrival
    order; a key under which nothing was filed has no bucket. *)
Theorem add_all_buckets arrivals key :
  Arrivals.add_all py_repr ∅ arrivals !! key
  = match Arrivals.filed_under py_repr key arrivals with
    | [] => None
    | episodes => Some episodes
    end.
Proof.
  induction arrivals as [|a arrivals IH] using rev_ind; [done|].
  rewrite add_all_snoc. unfold add_episode, Arrivals.filed_under in *.
  rewrite filter_app, fmap_app, filter_cons, filter_nil.
  destruct (decide (buffer_key py_repr a.1 a.2 = key)) as [Hk|Hk].
  - rewrite Hk, lookup_insert_eq, IH. simpl.
    by destruct ((filter _ arrivals).*2).
  - rewrite lookup_insert_ne by done. rewrite IH. simpl.
    by rewrite app_nil_r.
Qed.

(** X5.  In a buffer that arrivals and flushes can produce, every bucket
    is non-empty, all its events were filed under its key, and they all
    carry the season number of its first event. *)
Theorem bucket_invariant buffer key episodes :
  reachable py_repr buffer → buffer !! key = Some episodes →
  ∃ first, head episodes = Some first
    ∧ Forall (λ ep, (∃ title, buffer_key py_repr title ep = key)
                    ∧ season_number py_repr ep = season_number py_repr first)
        episodes.
Proof.
  intros Hreach Hk.
  destruct (reachable_buckets py_repr buffer Hreach key episodes Hk) as [Hne Hkeys].
  destruct episodes as [|first rest]; [done|]. exists first. split; [done|].
  pose proof Hkeys as [[t0 Ht0] _]%Forall_cons.
  eapply Forall_impl; [exact Hkeys|].
  intros ep [t Ht]. simpl in Ht. split; [by exists t|].
  apply (buffer_key_season py_repr t t0). congruence.
Qed.

(** X6.  A flush of a reachable buffer hands the callback the merge of
    the whole bucket exactly when the key has a bucket, removes that
    bucket, leaves every other bucket as it was, and a second flush of
    the key hands over nothing and changes nothing. *)
Theorem delayed_push_clears_bucket buffer key :
  reachable py_repr buffer →
  let r := (_delayed_push py_repr buffer key).1 in
  let buffer' := (_delayed_push py_repr buffer key).2 in
  (∀ episodes, buffer !! key = Some episodes →
     ∃ first, head episodes = Some first
       ∧ r = Some (_merge_episodes py_repr episodes
                     (get_or first "title" (VStr "未知标题"))))
  ∧ (buffer !! key = None → r = None)
  ∧ buffer' !! key = None
  ∧ (∀ k, k ≠ key → buffer' !! k = buffer !! k)
  ∧ _delayed_push py_repr buffer' key = (None, buffer').
Proof.
  intros Hreach r buffer'. subst r buffer'. unfold _delayed_push.
  destruct (buffer !! key) as [episodes|] eqn:Hk.
  - destruct (reachable_buckets py_repr buffer Hreach key episodes Hk) as [Hne _].
    destruct episodes as [|first rest]; [done|]. simpl.
    rewrite lookup_delete_eq. repeat split; try done.
    + intros ? [= <-]. by exists first.
    + intros k Hne'. by rewrite lookup_delete_ne.
  - simpl. rewrite Hk. repeat split; try done.
Qed.

End MergeMore.

Lemma merged_episode_list_invariant_witness :
  ∃ numbers,
    StronglySorted Z.lt numbers
    ∧ ∃ m, PushBuffer._merge_episodes MergeSpec.no_repr MergeSpec.two_events
             (VStr "Frieren") = Ok m
           ∧ m !! "episode_list" = Some (VList (VInt <$> numbers)).
Proof.
  destruct (merge_episodes_returns MergeSpec.no_repr MergeSpec.two_events
              (VStr "Frieren")
              (MergeSpec.feed_event (VStr "2") (VStr "第 2 季 | 第 4 集"))
              (MergeSpec.feed_event (VStr "2") (VStr "第 2 季 | 第 5 集"))
              eq_refl eq_refl) as (action & _ & Hm); [by exists "ANIRSS"|].
  destruct (merged_episode_list_invariant MergeSpec.no_repr MergeSpec.two_events
              (VStr "Frieren") _ Hm) as (numbers & Hlist & Hsorted & _).
  exists numbers. split; [exact Hsorted|]. eexists. split; [exact Hm|exact Hlist].
Defined.

Lemma merged_fixed_fields_witness :
  ∃ m, PushBuffer._merge_episodes MergeSpec.no_repr MergeSpec.two_events
         (VStr "Frieren") = Ok m
       ∧ m !! "is_merged" = Some (VBool true)
       ∧ m !! "title" = Some (VStr "Frieren").
Proof.
  destruct (merge_episodes_returns MergeSpec.no_repr MergeSpec.two_events
              (VStr "Frieren")
              (MergeSpec.feed_event (VStr "2") (VStr "第 2 季 | 第 4 集"))
              (MergeSpec.feed_event (VStr "2") (VStr "第 2 季 | 第 5 集"))
              eq_refl eq_refl) as (action & _ & Hm); [by exists "ANIRSS"|].
  destruct (merged_fixed_fields MergeSpec.no_repr MergeSpec.two_events
              (VStr "Frieren")
              (MergeSpec.feed_event (VStr "2") (VStr "第 2 季 | 第 5 集"))
              _ eq_refl Hm) as (Hmerged & _ & Htitle).
  eexists. split; [exact Hm|]. split; [exact Hmerged|exact Htitle].
Defined.


Lemma bucket_invariant_witness :
  ∃ first,
    head MergeSpec.two_events = Some first
    ∧ Forall (λ ep, (∃ title, PushBuffer.buffer_key MergeSpec.no_repr title ep
                              = "Frieren_S2")
                    ∧ MergeSpec.season_number MergeSpec.no_repr ep
                      = MergeSpec.season_number MergeSpec.no_repr first)
        MergeSpec.two_events.
Proof.
  apply (bucket_invariant MergeSpec.no_repr Samples.two_event_buffer "Frieren_S2").
  - unfold Samples.two_event_buffer. do 2 apply PushBuffer.reachable_add.
    apply PushBuffer.reachable_empty.
  - reflexivity.
Defined.

Lemma delayed_push_clears_bucket_witness :
  (PushBuffer._delayed_push MergeSpec.no_repr Samples.two_event_buffer
     "Frieren_S2").2 !! "Frieren_S2" = None.
Proof.
  destruct (delayed_push_clears_bucket MergeSpec.no_repr Samples.two_event_buffer
              "Frieren_S2") as (_ & _ & Hgone & _).
  - unfold Samples.two_event_buffer. do 2 apply PushBuffer.reachable_add.
    apply PushBuffer.reachable_empty.
  - exact Hgone.
Defined.

(** ** The normalizer, further *)

Section PickMore.
Import DataPicker PickSamples.
Variable py_repr : value → string.
Variable json_loads : string → result value.
Variable fromisoformat_strftime : string → result string.
Variable generate_emby_image_url : value → value → value → result value.
Variable emby_host : value.

Lemma py_int_error v e :
  py_int v = Raise e → is_value_or_type_error e = true.
Proof.
  destruct v as [| | |s| |]; simpl; try (by intros [= <-]).
  destruct (parse_int s); [done|]. by intros [= <-].
Qed.

Lemma episode_label_cases season episode :
  episode_label season episode = Ok VNone
  ∨ ∃ s, episode_label season episode = Ok (VStr s).
Proof.
  unfold episode_label. destruct (_ && _); [|by left].
  destruct (py_int season) as [s|e] eqn:Hs; simpl.
  - destruct (py_int episode) as [ep|e] eqn:He; simpl; [right; by eexists|].
    rewrite (py_int_error _ _ He). by left.
  - rewrite (py_int_error _ _ Hs). by left.
Qed.

Lemma season_text_cases season :
  season_text py_repr season = Ok VNone
  ∨ ∃ s, season_text py_repr season = Ok (VStr s).
Proof.
  unfold season_text. destruct (negb _); [|by left].
  destruct (py_int season) as [z|e] eqn:Hz; simpl; [right; by eexists|].
  rewrite (py_int_error _ _ Hz). destruct (truthy season); [right|left]; by eexists.
Qed.

Lemma pick_episode_cases source source_data :
  _pick_episode py_repr source source_data = Ok VNone
  ∨ ∃ s, _pick_episode py_repr source source_data = Ok (VStr s).
Proof.
  unfold _pick_episode. destruct source; [apply episode_label_cases| |by left].
  repeat (case_match; try (by left); try (right; by eexists)).
  apply episode_label_cases.
Qed.

Lemma pick_season_cases source source_data :
  _pick_season py_repr source source_data = Ok VNone
  ∨ ∃ s, _pick_season py_repr source source_data = Ok (VStr s).
Proof.
  unfold _pick_season. destruct source; [apply season_text_cases| |by left].
  case_match; [by left|apply season_text_cases].
Qed.

(** X7.  The episode label and the season never make the normalizer
    raise: each is null or text, for every source and record; a failed
    number conversion gives null (or the raw season text).  A library
    record with discriminator [Movie] gets null for both, whatever
    season and episode it carries. *)
Theorem episode_and_season_never_raise source source_data :
  (_pick_episode py_repr source source_data = Ok VNone
   ∨ ∃ s, _pick_episode py_repr source source_data = Ok (VStr s))
  ∧ (_pick_season py_repr source source_data = Ok VNone
     ∨ ∃ s, _pick_season py_repr source source_data = Ok (VStr s))
  ∧ (get source_data "type" = VStr "Movie" →
       _pick_episode py_repr EMBY source_data = Ok VNone
       ∧ _pick_season py_repr EMBY source_data = Ok VNone).
Proof.
  split; [apply pick_episode_cases|]. split; [apply pick_season_cases|].
  intros Hmovie. unfold _pick_episode, _pick_season. by rewrite Hmovie.
Qed.

(** *** The image queue *)

Lemma fromkeys_ok l : ∀ seen r,
  fromkeys l seen = Ok r →
  (∀ v, v ∈ r → v ∈ l)
  ∧ NoDup (hash_keys r)
  ∧ (∀ v, v ∈ r → ∃ k, key_of v = Ok k ∧ k ∉ seen).
Proof.
  induction l as [|v l IH]; intros seen r Hr; simpl in Hr.
  - injection Hr as <-. repeat split; [by intros ? ?%elem_of_nil|constructor|].
    by intros ? ?%elem_of_nil.
  - destruct (key_of v) as [k|e] eqn:Hk; [|done]. simpl in Hr.
    destruct (bool_decide (k ∈ seen)) eqn:Hseen.
    + destruct (IH seen r Hr) as (Hin & Hnd & Hkeys).
      repeat split; [|done|done]. intros v' Hv'. right. by apply Hin.
    + apply bool_decide_eq_false_1 in Hseen.
      destruct (fromkeys l (k :: seen)) as [r'|e] eqn:Hr'; [|done].
      simpl in Hr. injection Hr as <-.
      destruct (IH (k :: seen) r' Hr') as (Hin & Hnd & Hkeys).
      repeat split.
      * intros v' [->|Hv']%elem_of_cons; [by left|right; by apply Hin].
      * unfold hash_keys. rewrite fmap_cons. apply NoDup_cons. split; [|done].
        intros (v' & Hkv' & Hv')%list_elem_of_fmap.
        destruct (Hkeys v' Hv') as (k' & Hk' & Hnot).
        apply Hnot, elem_of_cons. left. congruence.
      * intros v' [->|Hv']%elem_of_cons.
        -- by exists k.
        -- destruct (Hkeys v' Hv') as (k' & Hk' & Hnot).
           exists k'. split; [done|]. intros Hin'. apply Hnot, elem_of_cons. by right.
Qed.

Lemma fromkeys_hashable l : ∀ seen,
  Forall (λ v, is_list v = false ∧ is_dict v = false) l →
  ∃ r, fromkeys l seen = Ok r.
Proof.
  induction l as [|v l IH]; intros seen Hl; [by eexists|].
  apply Forall_cons in Hl as [[Hv1 Hv2] Hl]. simpl.
  assert (∃ k, key_of v = Ok k) as [k ->].
  { destruct v as [|b|z|s| |]; simpl; try done;
      [by exists KNone|by eexists (KInt _)|by exists (KInt z)|by exists (KStr s)]. }
  simpl. destruct (bool_decide (k ∈ seen)); [by apply IH|].
  destruct (IH (k :: seen) Hl) as [r ->]. by exists (v :: r).
Qed.

(** X8.  Building the image queue never raises: it is always a list, its
    entries are all non-empty (no null, no empty text) and pairwise
    distinct as dict keys; a failure inside, such as an unhashable
    candidate, yields the empty list. *)
Theorem image_queue_clean source source_data anime_data :
  ∃ l, _pick_image_queue generate_emby_image_url emby_host
         source source_data anime_data = Ok (VList l)
       ∧ Forall (λ v, truthy v = true) l
       ∧ NoDup (hash_keys l).
Proof.
  unfold _pick_image_queue.
  match goal with
  | |- context [fromkeys ?c []] => destruct (fromkeys c []) as [r|e] eqn:Hr
  end; simpl.
  - exists r. split; [done|].
    destruct (fromkeys_ok _ _ _ Hr) as (Hin & Hnd & _). split; [|done].
    apply Forall_forall. intros v Hv. apply Hin in Hv.
    by apply list_elem_of_filter in Hv as [? _].
  - exists []. repeat split; constructor.
Qed.

(** For the feed source, a text [image_url] leads the image queue
    whenever the two enrichment images are null or text. *)
Theorem feed_image_leads_queue source_data anime_data u :
  get source_data "image_url" = VStr u → u ≠ "" →
  is_list (get anime_data "emby_image_url") = false →
  is_dict (get anime_data "emby_image_url") = false →
  is_list (get anime_data "ainrss_image_url") = false →
  is_dict (get anime_data "ainrss_image_url") = false →
  ∃ rest, _pick_image_queue generate_emby_image_url emby_host
            ANIRSS source_data anime_data = Ok (VList (VStr u :: rest)).
Proof.
  intros Hu Hne He1 He2 Ha1 Ha2. unfold _pick_image_queue. rewrite Hu.
  assert (truthy (VStr u) = true) as Ht.
  { simpl. by destruct (String.eqb_spec u ""). }
  rewrite Ht.
  assert (∀ tail, Forall (λ v, is_list v = false ∧ is_dict v = false) tail →
            ∃ rest, fromkeys (VStr u :: tail) [] = Ok (VStr u :: rest)) as Hhead.
  { intros tail Htail. cbn [fromkeys key_of mbind result_bind bind].
    rewrite bool_decide_eq_false_2 by apply not_elem_of_nil.
    destruct (fromkeys_hashable tail [KStr u] Htail) as [r ->]. by exists r. }
  destruct (truthy (VDict anime_data)).
  - change ([VStr u] ++ [get anime_data "emby_image_url";
                          get anime_data "ainrss_image_url"])
      with (VStr u :: [get anime_data "emby_image_url";
                       get anime_data "ainrss_image_url"]).
    rewrite filter_cons, decide_True by done.
    match goal with
    | |- context [fromkeys (VStr u :: ?c) []] => destruct (Hhead c) as [rest ->]
    end.
    + apply Forall_forall. intros v Hv.
      apply list_elem_of_filter in Hv as [_ Hv].
      apply elem_of_cons in Hv as [->|Hv]; [done|].
      by apply list_elem_of_singleton in Hv as ->.
    + by exists rest.
  - rewrite filter_cons, decide_True, filter_nil by done.
    destruct (Hhead [] (Forall_nil_2 _)) as [rest ->]. by exists rest.
Qed.

(** *** The whole event *)

Lemma pick_subscriber_shape anime_data g p :
  _pick_subscriber json_loads anime_data = Ok (g, p) →
  is_dict g = true ∧ is_list p = true.
Proof.
  unfold _pick_subscriber. destruct (negb _); [by intros [= <- <-]|].
  destruct (_parse_config_field _ _ "group_subscriber" _ _) as [g'|] eqn:Hg;
    simpl; [|by intros [= <- <-]].
  destruct (_parse_config_field _ _ "private_subscriber" _ _) as [p'|] eqn:Hp;
    simpl; [|by intros [= <- <-]].
  intros [= <- <-]. split.
  - exact (parse_config_field_shape _ _ _ _ _ _ eq_refl Hg).
  - exact (parse_config_field_shape _ _ _ _ _ _ eq_refl Hp).
Qed.

Lemma pick_image_queue_list source source_data anime_data :
  ∃ l, _pick_image_queue generate_emby_image_url emby_host
         source source_data anime_data = Ok (VList l).
Proof.
  unfold _pick_image_queue.
  match goal with
  | |- context [fromkeys ?c []] => destruct (fromkeys c []) as [r|e]
  end; simpl; by eexists.
Qed.

Ltac pick_step H :=
  match type of H with
  | mbind _ ?x = Ok _ =>
      let E := fresh "E" in
      destruct x eqn:E; [|discriminate H];
      cbn [mbind result_bind bind] in H
  end.

Ltac total_pick :=
  repeat (case_match; simpl); by eexists.

Lemma simple_picks_return source source_data anime_data :
  returns (_pick_title py_repr source source_data anime_data)
  ∧ returns (_pick_episode_title source source_data)
  ∧ returns (_pick_source source)
  ∧ returns (_pick_action source source_data)
  ∧ returns (_pick_score source source_data anime_data)
  ∧ returns (_pick_genres source source_data anime_data)
  ∧ returns (_pick_tmdb_id source source_data anime_data)
  ∧ returns (_pick_media_type source source_data)
  ∧ returns (_pick_subgroup source source_data)
  ∧ returns (_pick_progress source source_data)
  ∧ returns (_pick_premiere py_repr source_data anime_data).
Proof.
  unfold _pick_title, _pick_episode_title, _pick_source, _pick_action, _pick_score,
    _pick_genres, _pick_tmdb_id, pick_raw_then_anime, _pick_media_type,
    _pick_subgroup, _pick_progress, _pick_premiere.
  repeat split; total_pick.
Qed.

(** [pick] returns exactly when the four extractors that are not
    guarded return. *)
Lemma pick_returns_iff source source_data anime_data :
  returns (pick py_repr json_loads fromisoformat_strftime generate_emby_image_url
             emby_host source source_data anime_data)
  ↔ returns (_pick_id source source_data)
    ∧ returns (_pick_timestamp fromisoformat_strftime source source_data)
    ∧ returns (_pick_bgmurl py_repr source source_data anime_data)
    ∧ returns (_pick_tmdb_url py_repr source source_data anime_data).
Proof.
  split.
  - intros [m Hm]. unfold pick in Hm.
    pick_step Hm. destruct a as [g p].
    do 18 pick_step Hm. repeat split; by eexists.
  - intros ([id Hid] & [ts Hts] & [bgm Hbgm] & [tmdb Htmdb]).
    destruct (pick_subscriber_returns json_loads anime_data) as [[g p] Hsub].
    destruct (simple_picks_return source source_data anime_data)
      as ([? H1] & [? H2] & [? H3] & [? H4] & [? H5] & [? H6] & [? H7] & [? H8]
          & [? H9] & [? H10] & [? H11]).
    destruct (pick_image_queue_list source source_data anime_data) as [q Hq].
    assert (returns (_pick_episode py_repr source source_data)) as [? Hep].
    { destruct (pick_episode_cases source source_data) as [->|[? ->]];
        by eexists. }
    assert (returns (_pick_season py_repr source source_data)) as [? Hse].
    { destruct (pick_season_cases source source_data) as [->|[? ->]];
        by eexists. }
    unfold pick.
    rewrite Hsub, Hid, H1, Hep, H2, Hts, H3, H4, H5, H6, H7, Hq, H8, Hse, H9, H10,
      H11, Hbgm, Htmdb.
    by eexists.
Qed.

(** X9.  The normalizer fails in four places only: it returns exactly
    when the id, the timestamp, URL A and URL B are extracted without
    an exception; every other field is guarded. *)
Theorem pick_fails_in_four_places_only source source_data anime_data :
  returns (pick py_repr json_loads fromisoformat_strftime generate_emby_image_url
             emby_host source source_data anime_data)
  ↔ returns (_pick_id source source_data)
    ∧ returns (_pick_timestamp fromisoformat_strftime source source_data)
    ∧ returns (_pick_bgmurl py_repr source source_data anime_data)
    ∧ returns (_pick_tmdb_url py_repr source source_data anime_data).
Proof. apply pick_returns_iff. Qed.

Lemma feed_urls_return source_data anime_data :
  returns (_pick_bgmurl py_repr ANIRSS source_data anime_data)
  ∧ returns (_pick_tmdb_url py_repr ANIRSS source_data anime_data).
Proof.
  split.
  - unfold _pick_bgmurl, library_external_url. total_pick.
  - unfold _pick_tmdb_url, library_external_url, _pick_tmdb_id, pick_raw_then_anime,
      _pick_media_type, type_path.
    total_pick.
Qed.

(** X10.  For the feed source the normalizer returns exactly when the
    record's id is absent, empty or convertible by [int], and its
    timestamp is absent, empty or text that
    [datetime.fromisoformat] accepts. *)
Theorem feed_pick_returns_iff source_data anime_data :
  returns (pick py_repr json_loads fromisoformat_strftime generate_emby_image_url
             emby_host ANIRSS source_data anime_data)
  ↔ (truthy (get source_data "id") = false
     ∨ returns (py_int (get source_data "id")))
    ∧ (truthy (get source_data "timestamp") = false
       ∨ ∃ s, get source_data "timestamp" = VStr s
              ∧ returns (fromisoformat_strftime s)).
Proof.
  rewrite pick_returns_iff.
  pose proof (feed_urls_return source_data anime_data) as [Hb Ht].
  assert (returns (_pick_id ANIRSS source_data)
          ↔ truthy (get source_data "id") = false
            ∨ returns (py_int (get source_data "id"))) as ->.
  { unfold _pick_id. simpl. destruct (truthy (get source_data "id")).
    - destruct (py_int _) as [z|e]; simpl; split.
      + intros _. right. by eexists.
      + intros _. by eexists.
      + by intros [? ?].
      + intros [?|[? ?]]; done.
    - split; [by left|by eexists]. }
  assert (returns (_pick_timestamp fromisoformat_strftime ANIRSS source_data)
          ↔ truthy (get source_data "timestamp") = false
            ∨ ∃ s, get source_data "timestamp" = VStr s
                   ∧ returns (fromisoformat_strftime s)) as ->.
  { unfold _pick_timestamp. simpl.
    destruct (truthy (get source_data "timestamp")) eqn:Htr.
    - destruct (get source_data "timestamp") as [| | |s| |] eqn:Hts;
        try (split; [by intros [? ?]|by intros [?|(? & ? & ?)]]).
      destruct (fromisoformat_strftime s) as [t|e] eqn:Hiso; simpl; split.
      + intros _. right. exists s. split; [done|]. rewrite Hiso. by eexists.
      + intros _. by eexists.
      + by intros [? ?].
      + intros [?|(s' & [= <-] & [? Hs'])]; [done|]. congruence.
    - split; [by left|by eexists]. }
  tauto.
Qed.

(** X11.  An event that the normalizer returns has exactly the twenty
    canonical keys; its source is the source tag's name, never null;
    its group subscribers are a dict, its private subscribers and its
    image queue lists, its episode label and season null or text. *)
Theorem picked_event_shape source source_data anime_data m :
  pick py_repr json_loads fromisoformat_strftime generate_emby_image_url
    emby_host source source_data anime_data = Ok m →
  dom m = picked_keys
  ∧ m !! "source" = Some (VStr (TableName_value source))
  ∧ (∃ d, m !! "group_subscribers" = Some (VDict d))
  ∧ (∃ l, m !! "private_subscribers" = Some (VList l))
  ∧ (∃ l, m !! "image_queue" = Some (VList l))
  ∧ (m !! "episode" = Some VNone ∨ ∃ s, m !! "episode" = Some (VStr s))
  ∧ (m !! "season" = Some VNone ∨ ∃ s, m !! "season" = Some (VStr s)).
Proof.
  intros Hm. unfold pick in Hm.
  pick_step Hm. destruct a as [g p].
  do 18 pick_step Hm. injection Hm as <-.
  split; [|split; [|split; [|split; [|split; [|split]]]]].
  - rewrite !dom_insert_L, dom_empty_L. unfold picked_keys. set_solver.
  - rewrite !lookup_insert_ne by done. rewrite lookup_insert_eq.
    match goal with H : _pick_source _ = Ok _ |- _ =>
      cbv [_pick_source mret result_ret] in H; by injection H as <- end.
  - rewrite !lookup_insert_ne by done. rewrite lookup_insert_eq.
    match goal with H : _pick_subscriber _ _ = _ |- _ =>
      apply pick_subscriber_shape in H as [Hg _] end.
    destruct g; try done. by eexists.
  - rewrite !lookup_insert_ne by done. rewrite lookup_insert_eq.
    match goal with H : _pick_subscriber _ _ = _ |- _ =>
      apply pick_subscriber_shape in H as [_ Hp] end.
    destruct p; try done. by eexists.
  - rewrite !lookup_insert_ne by done. rewrite lookup_insert_eq.
    destruct (pick_image_queue_list source source_data anime_data) as [l Hl].
    exists l. congruence.
  - rewrite !lookup_insert_ne by done. rewrite lookup_insert_eq.
    destruct (pick_episode_cases source source_data) as [H|[s H]];
      [left|right; exists s]; congruence.
  - rewrite !lookup_insert_ne by done. rewrite lookup_insert_eq.
    destruct (pick_season_cases source source_data) as [H|[s H]];
      [left|right; exists s]; congruence.
Qed.

End PickMore.

Lemma episode_and_season_never_raise_witness :
  DataPicker._pick_episode MergeSpec.no_repr EMBY PickSamples.movie_with_season
  = Ok VNone
  ∧ DataPicker._pick_season MergeSpec.no_repr EMBY PickSamples.movie_with_season
    = Ok VNone.
Proof.
  destruct (episode_and_season_never_raise MergeSpec.no_repr EMBY
              PickSamples.movie_with_season) as (_ & _ & H).
  apply H. reflexivity.
Defined.

Lemma feed_image_leads_queue_witness :
  ∃ rest, DataPicker._pick_image_queue DataPicker.no_emby_url VNone ANIRSS
            PickSamples.plain_feed_record PickSamples.enrichment_with_images
          = Ok (VList (VStr "https://img.example/a.png" :: rest)).
Proof.
  apply (feed_image_leads_queue DataPicker.no_emby_url VNone
           PickSamples.plain_feed_record PickSamples.enrichment_with_images);
    try reflexivity.
  discriminate.
Defined.

Lemma picked_event_shape_witness :
  ∃ m, DataPicker.pick MergeSpec.no_repr DataPicker.no_json DataPicker.no_datetime
         DataPicker.no_emby_url VNone ANIRSS PickSamples.plain_feed_record
         PickSamples.enrichment_with_images = Ok m
       ∧ dom m = PickSamples.picked_keys
       ∧ m !! "source" = Some (VStr "ANIRSS").
Proof.
  assert (returns (DataPicker.pick MergeSpec.no_repr DataPicker.no_json
                     DataPicker.no_datetime DataPicker.no_emby_url VNone ANIRSS
                     PickSamples.plain_feed_record
                     PickSamples.enrichment_with_images)) as [m Hm].
  { eexists. reflexivity. }
  exists m. split; [exact Hm|].
  destruct (picked_event_shape MergeSpec.no_repr DataPicker.no_json
              DataPicker.no_datetime DataPicker.no_emby_url VNone ANIRSS
              PickSamples.plain_feed_record PickSamples.enrichment_with_images
              m Hm) as (Hdom & Hsrc & _).
  split; [exact Hdom|exact Hsrc].
Defined.

(** ** The image selector, further *)

Section SelectorMore.
Import ImageSelector.
Variable py_repr : value → string.
Variable w : world.
Variable image_queue : list value.
Variable tmdb_id : value.
Variable source_data : option (gmap string value).
Variable emby_series_id : value.

(** X12.  A cached regular file that is at most 14 days old is returned
    at once: whatever the queue and the network are, nothing is fetched
    into the cache and the file system stays as it is. *)
Theorem select_fresh_cache (fs : gmap string file) path f :
  _get_cache_path py_repr w tmdb_id emby_series_id = Some path →
  fs !! path = Some f →
  f_is_file f = true →
  now w - f_mtime f <= 14 * 24 * 3600 * 1000000 →
  select py_repr w image_queue tmdb_id source_data emby_series_id fs = (Some path, fs).
Proof.
  intros Hpath Hfile Hreg Hage.
  unfold select, _search_in_localstore, _is_cache_img_expired.
  rewrite Hpath, Hfile, Hreg. simpl.
  replace (EXPIRE <? now w - f_mtime f) with false; [done|].
  symmetry. apply Z.ltb_ge. unfold EXPIRE. lia.
Qed.

Lemma save_bytes_cases fs binary :
  let r := _save_bytes_to_cache py_repr w tmdb_id emby_series_id fs binary in
  match r.1 with
  | Some p =>
      _get_cache_path py_repr w tmdb_id emby_series_id = Some p
      ∧ r.2 = <[p := File binary (now w) true]> (delete (temp_path_of p) fs)
  | None =>
      r.2 = fs
      ∨ ∃ p, _get_cache_path py_repr w tmdb_id emby_series_id = Some p
             ∧ (r.2 = delete (temp_path_of p) fs
                ∨ r.2 = <[temp_path_of p := File binary (now w) true]> fs)
  end.
Proof.
  unfold _save_bytes_to_cache.
  destruct (_get_cache_path py_repr w tmdb_id emby_series_id) as [p|]; [|by left].
  destruct (save_result w); simpl; eauto.
Qed.

Lemma process_cases fs :
  let r := _process_image_queue py_repr w image_queue tmdb_id source_data
             emby_series_id fs in
  r = (None, fs)
  ∨ ∃ binary, binary ≠ ""
      ∧ _download_first_valid_image w
          (_clean_image_queue py_repr w image_queue source_data) = Some binary
      ∧ r = _save_bytes_to_cache py_repr w tmdb_id emby_series_id fs binary.
Proof.
  unfold _process_image_queue.
  destruct image_queue; [by left|].
  destruct (_clean_image_queue _ _ _ _) as [|t ts]; [by left|].
  destruct (_download_first_valid_image w (t :: ts)) as [binary|]; [|by left].
  destruct (String.eqb_spec binary ""); [by left|].
  right. by exists binary.
Qed.

Lemma default_image_exists fs p :
  _get_default_image w fs = Some p → is_Some (fs !! p).
Proof.
  unfold _get_default_image.
  destruct (fs !! default_image w) eqn:E; [|done]. intros [= <-]. by rewrite E.
Qed.

Lemma fallback_exists fs output p :
  _fallback_to_available_image w fs output = Some p → is_Some (fs !! p).
Proof.
  unfold _fallback_to_available_image.
  destruct output as [q|]; [|apply default_image_exists].
  destruct (fs !! q) eqn:E; [|apply default_image_exists].
  intros [= <-]. by rewrite E.
Qed.

Lemma search_found fs p expired :
  _search_in_localstore py_repr w tmdb_id emby_series_id fs = (Some p, expired) →
  _get_cache_path py_repr w tmdb_id emby_series_id = Some p ∧ is_Some (fs !! p).
Proof.
  unfold _search_in_localstore.
  destruct (_get_cache_path _ _ _ _) as [q|]; [|done].
  destruct (fs !! q) eqn:E; [|done]. intros [= <- _]. by rewrite E.
Qed.

(** A path produced by the refresh is the cache path, freshly written. *)
Lemma process_saved fs img fs' :
  _process_image_queue py_repr w image_queue tmdb_id source_data
    emby_series_id fs = (Some img, fs') →
  ∃ binary, binary ≠ ""
    ∧ _download_first_valid_image w
        (_clean_image_queue py_repr w image_queue source_data) = Some binary
    ∧ _get_cache_path py_repr w tmdb_id emby_series_id = Some img
    ∧ fs' = <[img := File binary (now w) true]> (delete (temp_path_of img) fs).
Proof.
  intros Hproc. pose proof (process_cases fs) as [Hc|(b & Hb & Hdl & Hc)];
    cbn zeta in Hc; rewrite Hproc in Hc; [done|].
  pose proof (save_bytes_cases fs b) as Hs. cbn zeta in Hs.
  rewrite <- Hc in Hs. cbn [fst snd] in Hs. destruct Hs as [Hp ->].
  by exists b.
Qed.

(** The two ways [select] ends. *)
Lemma select_cases fs :
  (∃ p, _search_in_localstore py_repr w tmdb_id emby_series_id fs = (Some p, false)
        ∧ select py_repr w image_queue tmdb_id source_data emby_series_id fs
          = (Some p, fs))
  ∨ ∃ out expired r fs',
      _search_in_localstore py_repr w tmdb_id emby_series_id fs = (out, expired)
      ∧ _process_image_queue py_repr w image_queue tmdb_id source_data
          emby_series_id fs = (r, fs')
      ∧ select py_repr w image_queue tmdb_id source_data emby_series_id fs
        = (match r with
           | Some img => Some img
           | None => _fallback_to_available_image w fs' out
           end, fs').
Proof.
  unfold select.
  destruct (_search_in_localstore _ _ _ _ fs) as [out expired] eqn:Hs.
  destruct (_process_image_queue _ _ _ _ _ _ fs) as [r fs'] eqn:Hproc.
  destruct out as [p|], expired; try (left; by exists p);
    right; eexists _, _, r, fs'; (split; [done|]); (split; [done|]);
    by destruct r.
Qed.

(** X13.  Whatever path [select] returns names a file that exists when
    the call ends. *)
Theorem select_returns_existing_file (fs : gmap string file) p :
  (select py_repr w image_queue tmdb_id source_data emby_series_id fs).1 = Some p →
  is_Some ((select py_repr w image_queue tmdb_id source_data emby_series_id fs).2
             !! p).
Proof.
  destruct (select_cases fs) as [(q & Hs & ->)|(out & exp & r & fs' & Hs & Hproc & ->)];
    cbn [fst snd].
  - intros [= <-]. by apply search_found in Hs as [_ ?].
  - destruct r as [img|].
    + intros [= <-]. apply process_saved in Hproc as (b & _ & _ & _ & ->).
      by rewrite lookup_insert_eq.
    + apply fallback_exists.
Qed.


(** X15.  Without a cache key (the reference id is empty or the
    sentinel text, and there is no series id), [select] never writes:
    it returns the bundled default image if that exists, else null,
    even when a download succeeds. *)
Theorem select_without_cache_key (fs : gmap string file) :
  truthy tmdb_id = false ∨ eq_str tmdb_id "None" = true →
  truthy emby_series_id = false →
  select py_repr w image_queue tmdb_id source_data emby_series_id fs
  = (_get_default_image w fs, fs).
Proof.
  intros Hid Hsid.
  assert (_get_cache_path py_repr w tmdb_id emby_series_id = None) as Hpath.
  { unfold _get_cache_path. rewrite Hsid.
    by destruct Hid as [-> | ->]; rewrite ?andb_false_r. }
  destruct (select_cases fs) as [(q & Hs & _)|(out & exp & r & fs' & Hs & Hproc & ->)].
  - apply search_found in Hs as [? _]. congruence.
  - assert (out = None) as ->.
    { destruct out as [q|]; [|done]. apply search_found in Hs as [? _]. congruence. }
    destruct r as [img|].
    + apply process_saved in Hproc as (_ & _ & _ & ? & _). congruence.
    + pose proof (process_cases fs) as [Hc|(b & _ & _ & Hc)]; cbn zeta in Hc;
        rewrite Hproc in Hc.
      * by injection Hc as ->.
      * unfold _save_bytes_to_cache in Hc. rewrite Hpath in Hc. by injection Hc as ->.
Qed.


(** *** The candidates and the race *)





Lemma first_success_split tasks binary :
  first_success w tasks = Some binary →
  ∃ l1 t l2, tasks = l1 ++ t :: l2
    ∧ fetch w t.1 t.2 = Ok binary
    ∧ Forall (CandidateSpec.fetch_raises w) l1.
Proof.
  induction tasks as [|[url tag] rest IH]; [done|]. simpl.
  destruct (fetch w url tag) as [b|e] eqn:Hf.
  - intros [= <-]. by exists [], (url, tag), rest.
  - intros (l1 & t & l2 & -> & Ht & Hl1)%IH.
    exists ((url, tag) :: l1), t, l2. repeat split; [done|].
    constructor; [by exists e|done].
Qed.

Lemma first_success_none tasks :
  first_success w tasks = None ↔ Forall (CandidateSpec.fetch_raises w) tasks.
Proof.
  induction tasks as [|[url tag] rest IH]; simpl.
  - split; [constructor|done].
  - destruct (fetch w url tag) as [b|e] eqn:Hf.
    + split; [done|]. intros [[e He] _]%Forall_cons. simpl in He. congruence.
    + rewrite IH. split.
      * intros Hrest. constructor; [by exists e|done].
      * by intros [_ ?]%Forall_cons.
Qed.

Lemma completes_before_trans : Transitive (completes_before w).
Proof. intros a b c. unfold completes_before. lia. Qed.

Lemma completes_before_total : Total (completes_before w).
Proof. intros a b. unfold completes_before. lia. Qed.

(** X18.  The download race adopts the first fetch to complete
    successfully: the bytes returned are those of a candidate whose
    fetch succeeded, and every candidate that completes strictly
    earlier has failed; the race yields nothing exactly when every
    candidate's fetch fails. *)
Theorem download_race url_dict :
  (∀ binary, _download_first_valid_image w url_dict = Some binary →
     ∃ t, t ∈ url_dict ∧ fetch w t.1 t.2 = Ok binary
       ∧ ∀ t', t' ∈ url_dict → (latency w t'.1 < latency w t.1)%nat →
           CandidateSpec.fetch_raises w t')
  ∧ (_download_first_valid_image w url_dict = None
     ↔ Forall (CandidateSpec.fetch_raises w) url_dict).
Proof.
  unfold _download_first_valid_image. split.
  - intros binary (l1 & t & l2 & Heq & Ht & Hl1)%first_success_split.
    pose proof (@StronglySorted_merge_sort _ (completes_before w)
                  (completes_before_dec w) completes_before_trans
                  completes_before_total url_dict) as Hsorted.
    change (StronglySorted (completes_before w) (as_completed w url_dict)) in Hsorted.
    assert (as_completed w url_dict ≡ₚ url_dict) as Hperm
      by apply merge_sort_Permutation.
    rewrite Heq in Hsorted, Hperm.
    exists t. split; [|split; [done|]].
    + rewrite <- Hperm. apply elem_of_app. right. by left.
    + intros t' Hin Hlt. rewrite <- Hperm in Hin.
      apply elem_of_app in Hin as [Hin|Hin].
      * by eapply Forall_forall in Hl1.
      * apply elem_of_cons in Hin as [->|Hin]; [lia|].
        apply StronglySorted_app in Hsorted as (_ & _ & Hs).
        apply StronglySorted_cons in Hs as [Hafter _].
        eapply Forall_forall in Hafter; [|done].
        unfold completes_before in Hafter. lia.
  - rewrite first_success_none. unfold as_completed.
    by rewrite merge_sort_Permutation.
Qed.

End SelectorMore.

Lemma select_fresh_cache_witness :
  ImageSelector.select MergeSpec.no_repr SelectorSamples.online_world
    SelectorSamples.poster_queue (VStr "209867") None VNone
    SelectorSamples.fresh_cache
  = (Some "/data/cache/209867.png", SelectorSamples.fresh_cache).
Proof.
  apply (select_fresh_cache MergeSpec.no_repr SelectorSamples.online_world
           SelectorSamples.poster_queue (VStr "209867") None VNone
           SelectorSamples.fresh_cache "/data/cache/209867.png"
           (ImageSelector.File "PNG" (99 * 24 * 3600 * 1000000) true)).
  - reflexivity.
  - reflexivity.
  - reflexivity.
  - vm_compute. discriminate.
Defined.

Lemma select_returns_existing_file_witness :
  is_Some ((ImageSelector.select MergeSpec.no_repr SelectorSamples.online_world
              SelectorSamples.poster_queue (VStr "209867") None VNone ∅).2
             !! "/data/cache/209867.png").
Proof.
  apply (select_returns_existing_file MergeSpec.no_repr SelectorSamples.online_world
           SelectorSamples.poster_queue (VStr "209867") None VNone ∅).
  reflexivity.
Defined.

Lemma select_without_cache_key_witness :
  ImageSelector.select MergeSpec.no_repr SelectorSamples.online_world
    SelectorSamples.poster_queue (VStr "None") None VNone
    SelectorSamples.fresh_cache
  = (None, SelectorSamples.fresh_cache).
Proof.
  apply (select_without_cache_key MergeSpec.no_repr SelectorSamples.online_world
           SelectorSamples.poster_queue (VStr "None") None VNone
           SelectorSamples.fresh_cache).
  - by right.
  - reflexivity.
Defined.


Lemma download_race_witness :
  ∃ t, t ∈ [("https://image.example/poster.jpg", "EXTERNAL")]
       ∧ ImageSelector.fetch SelectorSamples.online_world t.1 t.2 = Ok "PNG-new".
Proof.
  destruct (download_race SelectorSamples.online_world
              [("https://image.example/poster.jpg", "EXTERNAL")]) as [Hwin _].
  destruct (Hwin "PNG-new") as (t & Hin & Hfetch & _); [reflexivity|].
  by exists t.
Defined.

(** ** The orchestrator, further *)

Section ManagerMore.
Import PushManager ManagerSpec.
Variable py_repr : value → string.
Variable w : world.
Variable normalize :
  TableName → gmap string value → gmap string value → result (gmap string value).
Variable select_image :
  list value → value → gmap string value → value → result (option string).
Variable source : TableName.

(** *** Traces, generically *)

Lemma trace_bind (P : event → Prop) {A B} (m : run A) (k : A → run B) :
  Forall P m.1 → (∀ a, Forall P (k a).1) → Forall P (m ≫= k).1.
Proof.
  intros Hm Hk. rewrite bind_trace. apply Forall_app. split; [done|].
  destruct m.2; [apply Hk|constructor].
Qed.

Lemma trace_try (P : event → Prop) {A} (m : run A) (h : exn → run A) :
  Forall P m.1 → (∀ e, Forall P (h e).1) → Forall P (try_except m h).1.
Proof.
  intros Hm Hh. destruct m as [t [a|[|e]]]; simpl in *; try done.
  specialize (Hh e). destruct (h e) as [t' r]. simpl in *.
  apply Forall_app. by split.
Qed.

Lemma trace_call (P : event → Prop) {A} (r : result A) : Forall P (call r).1.
Proof. destruct r; constructor. Qed.

Lemma trace_emit (P : event → Prop) ev : P ev → Forall P (emit ev).1.
Proof. intros H. simpl. by apply Forall_singleton. Qed.

Ltac trace_step :=
  first [ apply trace_bind; [|intros ?]
        | apply trace_try; [|intros ?]
        | apply trace_call
        | apply trace_emit; done
        | by constructor
        | case_match ].

Lemma try_except_ending {A} (m : run A) (h : exn → run A) a :
  (∀ e, (h e).2 = inl a) → (∀ x, m.2 = inl x → x = a) →
  m.2 ≠ inr Returned → (try_except m h).2 = inl a.
Proof.
  intros Hh Hm Hret. destruct m as [t [x|[|e]]]; simpl in *.
  - f_equal. by apply Hm.
  - done.
  - specialize (Hh e). by destruct (h e).
Qed.

(** *** The reference id *)

(** The reference id of a record is absent when the field is
    missing, null, the sentinel text [None], or not convertible by
    [int]; it is the converted number otherwise.  Extraction fails only
    for an empty record. *)
Theorem get_tmdb_id_cases (data : gmap string value) :
  (data = ∅ → _get_tmdb_id data = Raise (AppError "TmdbIdFetchError"))
  ∧ (data ≠ ∅ →
       _get_tmdb_id data
       = Ok (if eq_str (get data "tmdb_id") "None" || is_none (get data "tmdb_id")
             then None
             else match py_int (get data "tmdb_id") with
                  | Ok z => Some z
                  | Raise _ => None
                  end)).
Proof.
  unfold _get_tmdb_id. split.
  - intros ->. reflexivity.
  - intros Hne. simpl.
    rewrite (bool_decide_eq_false_2 _ Hne). simpl.
    destruct (_ || _); [done|].
    destruct (py_int _) as [z|e] eqn:Hz; simpl; [done|].
    by rewrite (py_int_error _ _ Hz).
Qed.

(** *** The recipients *)

Lemma mapM_result_cons {A B} (f : A → result B) x l r :
  mapM f (x :: l) = Ok r →
  ∃ y k, f x = Ok y ∧ mapM f l = Ok k ∧ r = y :: k.
Proof.
  cbn [mapM]. destruct (f x) as [y|]; [|done]. simpl.
  destruct (mapM f l) as [k|]; [|done]. simpl.
  intros [= <-]. by exists y, k.
Qed.

Lemma group_entry_cases (group_subscribers : value) g entry :
  group_entry group_subscribers g = Ok entry →
  entry.1 = g ∧ (entry.2 = VList [] ∨ truthy entry.2 = true).
Proof.
  unfold group_entry. destruct group_subscribers as [| | | | |d]; try done.
  destruct (truthy (get_or d g (VList []))) eqn:Ht.
  - intros [= <-]. split; [done|by right].
  - destruct (py_int (VStr g)); [|done].
    intros [= <-]. split; [done|by left].
Qed.

Lemma mapM_group_entry (group_subscribers : value) groups r :
  mapM (group_entry group_subscribers) groups = Ok r →
  r.*1 = groups
  ∧ Forall (λ entry, entry.2 = VList [] ∨ truthy entry.2 = true) r.
Proof.
  revert r. induction groups as [|g groups IH]; intros r.
  - intros [= <-]. by split.
  - intros (y & k & Hy & Hk & ->)%mapM_result_cons.
    apply group_entry_cases in Hy as [Hy1 Hy2].
    destruct (IH k Hk) as [Hk1 Hk2]. split.
    + rewrite fmap_cons. by rewrite Hy1, Hk1.
    + by constructor.
Qed.

(** X19.  When the recipients are computed, the private targets are the
    subscribers, as text and without repetition, that the allow-list of
    the source contains; the group targets are the allowed groups, each
    once, with a non-empty subscriber entry or the empty list. *)
Theorem pushtarget_conflate_spec (picked_params : gmap string value)
    private_push_target group_push_target :
  _pushtarget_conflate py_repr w source picked_params
  = Ok (private_push_target, group_push_target) →
  NoDup private_push_target
  ∧ (∀ u, u ∈ private_push_target ↔
       u ∈ private_targets w source
       ∧ ∃ subscribers v,
           py_iter (py_or (get_or picked_params "private_subscribers" (VList []))
                          (VList [])) = Ok subscribers
           ∧ v ∈ subscribers ∧ py_str py_repr v = u)
  ∧ NoDup group_push_target.*1
  ∧ (∀ g, g ∈ group_push_target.*1 ↔ g ∈ group_targets w source)
  ∧ Forall (λ entry, entry.2 = VList [] ∨ truthy entry.2 = true) group_push_target.
Proof.
  unfold _pushtarget_conflate.
  destruct (py_iter _) as [subscribers|] eqn:Hsubs; [|done]. simpl.
  destruct (mapM _ _) as [groups|] eqn:Hgroups; [|done]. simpl.
  intros [= <- <-].
  apply mapM_group_entry in Hgroups as [Hkeys Hvals].
  split; [|split; [|split; [|split]]].
  - apply NoDup_filter. unfold str_set. apply NoDup_remove_dups.
  - intros u. rewrite list_elem_of_filter. unfold str_set.
    rewrite !elem_of_remove_dups, list_elem_of_fmap. split.
    + intros [Hallow (v & -> & Hv)]. split; [done|]. by exists subscribers, v.
    + intros [Hallow (subs' & v & [= <-] & Hv & <-)]. split; [done|]. by exists v.
  - rewrite Hkeys. apply NoDup_remove_dups.
  - intros g. by rewrite Hkeys, elem_of_remove_dups.
  - done.
Qed.

(** *** Delivery *)

Lemma group_loop_cons base params g subs rest :
  group_loop w base params ((g, subs) :: rest)
  = match render_at w (<["at" := subs]> params) with
    | Raise e => ([RenderAt g], inr (Escaped e))
    | Ok at_message =>
        match group_msg_pusher w (base +:+ at_message) g with
        | Raise e => ([RenderAt g; SendGroup g], inr (Escaped e))
        | Ok _ =>
            let r := group_loop w base (<["at" := subs]> params) rest in
            (RenderAt g :: SendGroup g :: r.1, r.2)
        end
    end.
Proof.
  cbn [group_loop]. unfold mbind, run_mbind, run_bind, emit, call, run_ret, escape.
  destruct (render_at w _) as [at_message|e]; [|done].
  destruct (group_msg_pusher w _ g) as [u|e]; [|done].
  by destruct (group_loop w base _ rest).
Qed.

Lemma group_loop_prefix base params targets :
  (group_loop w base params targets).1 `prefix_of` group_rounds targets.*1.
Proof.
  revert params. induction targets as [|[g subs] targets IH]; intros params.
  - by exists [].
  - rewrite group_loop_cons. unfold group_rounds. rewrite fmap_cons, bind_cons.
    destruct (render_at w _) as [at_message|e].
    + destruct (group_msg_pusher w _ g) as [u|e]; simpl.
      * do 2 apply prefix_cons. apply IH.
      * do 2 apply prefix_cons. apply prefix_nil.
    + simpl. apply prefix_cons, prefix_nil.
Qed.

Lemma group_loop_no_return base params targets :
  (group_loop w base params targets).2 ≠ inr Returned.
Proof.
  revert params.
  induction targets as [|[g subs] targets IH]; intros params; [done|].
  rewrite group_loop_cons.
  destruct (render_at w _); [|done].
  destruct (group_msg_pusher w _ _); [|done]. apply IH.
Qed.

Lemma push_to_group_ending group_push_target message_params :
  (_push_to_group w group_push_target message_params).2 = inl tt.
Proof.
  unfold _push_to_group. destruct group_push_target as [|t ts] eqn:Hgt; [done|].
  rewrite <- Hgt.
  apply try_except_ending; [done|by intros []|].
  rewrite !bind_ending. cbn [emit snd].
  destruct (render_base w message_params); [|done]. cbn [call run_ret snd].
  apply group_loop_no_return.
Qed.

Lemma push_to_group_prefix group_push_target message_params :
  (_push_to_group w group_push_target message_params).1
  `prefix_of` full_group_delivery group_push_target.
Proof.
  unfold _push_to_group, full_group_delivery.
  destruct group_push_target as [|t ts] eqn:Hgt; [by exists []|].
  rewrite <- Hgt.
  match goal with |- (try_except ?m ?h).1 `prefix_of` _ =>
    assert (m.1 `prefix_of` RenderBase :: group_rounds group_push_target.*1) as Hm;
    [|destruct m as [tr [a|[|e]]]; simpl in *; by rewrite ?app_nil_r] end.
  rewrite bind_trace. cbn [emit fst snd app]. apply prefix_cons.
  rewrite bind_trace.
  destruct (render_base w message_params) as [base|e]; cbn [call run_ret escape fst snd app].
  - apply group_loop_prefix.
  - apply prefix_nil.
Qed.

(** X20.  Group delivery never lets an exception out: a failure of the
    renderer or of the transport ends it quietly.  What it does is an
    initial part of the complete delivery: the base rendering, then for
    each group in turn the rendering of the mention segment and the
    send. *)
Theorem push_to_group_contained group_push_target message_params :
  (_push_to_group w group_push_target message_params).2 = inl tt
  ∧ (_push_to_group w group_push_target message_params).1
    `prefix_of` full_group_delivery group_push_target.
Proof.
  split; [apply push_to_group_ending|apply push_to_group_prefix].
Qed.

Lemma group_loop_stops base g subs post e : ∀ pre params,
  (∀ p, ∃ s, render_at w p = Ok s) →
  (∀ m g', g' ∈ pre.*1 → ∃ u, group_msg_pusher w m g' = Ok u) →
  (∀ m, group_msg_pusher w m g = Raise e) →
  group_loop w base params (pre ++ (g, subs) :: post)
  = (group_rounds (pre.*1 ++ [g]), inr (Escaped e)).
Proof.
  intros pre. induction pre as [|[g' subs'] pre IH]; intros params Hat Hpre Hg.
  - cbn [app]. rewrite group_loop_cons.
    destruct (Hat (<["at" := subs]> params)) as [s ->]. by rewrite Hg.
  - change (((g', subs') :: pre) ++ (g, subs) :: post)
      with ((g', subs') :: (pre ++ (g, subs) :: post)).
    rewrite group_loop_cons.
    destruct (Hat (<["at" := subs']> params)) as [s ->].
    destruct (Hpre (base +:+ s) g') as [u ->]; [simpl; by left|].
    rewrite IH; [done|done| |done].
    intros m g'' Hin. apply Hpre. simpl. by right.
Qed.

(** X21.  When the transport fails for one group, the groups before it
    have been served, the groups after it are not even rendered for,
    and the group delivery still ends normally. *)
Theorem group_failure_skips_later_groups pre g subs post message_params e :
  (∃ base, render_base w message_params = Ok base) →
  (∀ p, ∃ s, render_at w p = Ok s) →
  (∀ m g', g' ∈ pre.*1 → ∃ u, group_msg_pusher w m g' = Ok u) →
  (∀ m, group_msg_pusher w m g = Raise e) →
  _push_to_group w (pre ++ (g, subs) :: post) message_params
  = (RenderBase :: group_rounds (pre.*1 ++ [g]), inl tt).
Proof.
  intros [base Hbase] Hat Hpre Hg. unfold _push_to_group.
  destruct (pre ++ (g, subs) :: post) as [|t ts] eqn:Hgt.
  { by destruct pre. }
  rewrite <- Hgt. rewrite Hbase.
  unfold mbind, run_mbind, run_bind, emit, call, run_ret.
  rewrite (group_loop_stops base g subs post e pre message_params Hat Hpre Hg).
  cbn [try_except mret run_mret run_ret app]. by rewrite app_nil_r.
Qed.

(** *** The whole run *)

Lemma bind_escaped {A B} (m : run A) (k : A → run B) e :
  (m ≫= k).2 = inr (Escaped e) →
  m.2 = inr (Escaped e) ∨ ∃ a, m.2 = inl a ∧ (k a).2 = inr (Escaped e).
Proof.
  rewrite bind_ending. destruct m as [t [a|how]]; simpl.
  - intros H. right. by exists a.
  - intros [= ->]. by left.
Qed.

Lemma try_escaped {A} (m : run A) (h : exn → run A) e :
  (try_except m h).2 = inr (Escaped e) →
  ∃ e', m.2 = inr (Escaped e') ∧ (h e').2 = inr (Escaped e).
Proof.
  destruct m as [t [a|[|e']]]; simpl; try done.
  intros H. exists e'. split; [done|]. by destruct (h e').
Qed.

Lemma call_escaped {A} (r : result A) e :
  (call r).2 = inr (Escaped e) → r = Raise e.
Proof. destruct r; simpl; [done|]. by intros [= ->]. Qed.

Lemma prepare_escaped e :
  (prepare py_repr w normalize select_image source).2 = inr (Escaped e) →
  default_anime w = Raise e.
Proof.
  unfold prepare. intros H.
  apply bind_escaped in H as [H|(d & _ & H)].
  { unfold fetch_record in H. rewrite bind_ending in H. simpl in H.
    by destruct (unsent_record w source) as [[?|]|]. }
  apply bind_escaped in H as [H|(id & _ & H)].
  { unfold record_id in H. by destruct (truthy _). }
  apply bind_escaped in H as [H|(anime & _ & H)].
  { unfold enrich in H. apply try_escaped in H as (e' & _ & H).
    by apply call_escaped. }
  apply bind_escaped in H as [H|(params & _ & H)].
  { unfold pick_params in H. rewrite bind_ending in H. simpl in H.
    by destruct (normalize _ _ _). }
  apply bind_escaped in H as [H|(params' & _ & H)].
  { unfold attach_image in H. by rewrite bind_ending in H. }
  apply bind_escaped in H as [H|(targets & _ & H)]; [|done].
  unfold resolve_targets in H. by destruct (_pushtarget_conflate _ _ _ _).
Qed.

Lemma do_push_unfold priv grp params is_merged :
  _do_push w priv grp params is_merged
  = match (if is_merged then render_merged w params else render_all w params) with
    | Ok message =>
        emit (Render is_merged) ≫= λ _,
        _push_to_private w priv message ≫= λ _, _push_to_group w grp params
    | Raise _ => ([Render is_merged], inl tt)
    end.
Proof.
  unfold _do_push.
  destruct (if is_merged then render_merged w params else render_all w params)
    as [message|e]; [|done].
  unfold mbind, run_mbind, run_bind, emit, call, run_ret, try_except, mret, run_mret.
  simpl. by destruct (_push_to_private w priv message) as [t [[]|how]].
Qed.

Lemma do_push_escaped priv grp params is_merged e :
  (_do_push w priv grp params is_merged).2 = inr (Escaped e) →
  ∃ message,
    (if is_merged then render_merged w params else render_all w params) = Ok message
    ∧ private_msg_pusher w message priv = Raise e.
Proof.
  rewrite do_push_unfold.
  destruct (if is_merged then render_merged w params else render_all w params)
    as [message|e']; [|done].
  intros H. exists message. split; [done|].
  apply bind_escaped in H as [H|(_ & _ & H)]; [done|].
  apply bind_escaped in H as [H|(_ & _ & H)].
  - unfold _push_to_private in H. destruct priv as [|u priv]; [done|].
    rewrite bind_ending in H. cbn [emit snd] in H. by apply call_escaped.
  - by rewrite push_to_group_ending in H.
Qed.

Lemma delayed_push_ending priv grp :
  ∀ e, (delayed_push py_repr w priv grp).2 ≠ inr (Escaped e).
Proof.
  intros e H. unfold delayed_push in H.
  destruct (flushed_bucket w) as [[|first episodes]|]; try done.
  destruct (PushBuffer._merge_episodes _ _ _); [|done].
  by apply try_escaped in H as (e' & _ & H).
Qed.

Lemma deliver_escaped params priv grp e :
  (deliver py_repr w params priv grp).2 = inr (Escaped e) →
  (truthy (get params "media_type") = true
   ∧ is_str (get params "media_type") = false ∧ e = AttributeError)
  ∨ ∃ message, render_all w params = Ok message
               ∧ private_msg_pusher w message priv = Raise e.
Proof.
  unfold deliver. intros H.
  destruct (truthy (get params "title")); [|done]. cbn [negb] in H.
  destruct (truthy (get params "media_type")) eqn:Hmt; cbn [negb] in H.
  - destruct (get params "media_type") as [| | |mt| |] eqn:Hv;
      try (left; split; [done|]; split; [done|]; by injection H as <-).
    right. destruct (String.eqb (lower mt) "movie").
    { by apply do_push_escaped in H. }
    destruct (_ || _).
    + apply bind_escaped in H as [H|(_ & _ & H)]; [done|].
      by apply delayed_push_ending in H.
    + by apply do_push_escaped in H.
  - right. by apply do_push_escaped in H.
Qed.

(** X22.  An exception leaves a run in three cases only: the default
    enrichment record cannot be built; or, after the commit succeeded,
    the media type is present but not text, or the private transport
    fails on the rendered message of a direct push.  Every other
    failure is absorbed. *)
Theorem execute_escape_sources e :
  (execute py_repr w normalize select_image source).2 = inr (Escaped e) →
  default_anime w = Raise e
  ∨ ∃ p, (prepare py_repr w normalize select_image source).2 = inl p
         ∧ upsert_sent w source p.1.1.1 = Ok tt
         ∧ ((truthy (get p.1.1.2 "media_type") = true
             ∧ is_str (get p.1.1.2 "media_type") = false ∧ e = AttributeError)
            ∨ ∃ message, render_all w p.1.1.2 = Ok message
                         ∧ private_msg_pusher w message p.1.2 = Raise e).
Proof.
  unfold execute. intros H.
  apply bind_escaped in H as [H|(p & Hp & H)].
  { left. by apply prepare_escaped. }
  right. exists p. split; [done|].
  pose proof (commit_cases w source p.1.1.1) as Hcommit.
  destruct (upsert_sent w source p.1.1.1) as [[]|e'].
  - split; [done|].
    apply bind_escaped in H as [H|(_ & _ & H)]; [by rewrite Hcommit in H|].
    by apply deliver_escaped in H.
  - exfalso. apply bind_escaped in H as [H|(u & Hu & _)]; by rewrite Hcommit in *.
Qed.

(** X23.  An event without a title is marked as sent and then dropped:
    the run commits, ends with an early return, and renders and sends
    nothing. *)
Theorem untitled_event_is_lost p :
  (prepare py_repr w normalize select_image source).2 = inl p →
  truthy (get p.1.1.2 "title") = false →
  upsert_sent w source p.1.1.1 = Ok tt →
  execute py_repr w normalize select_image source
  = ((prepare py_repr w normalize select_image source).1 ++ [Commit p.1.1.1 true],
     inr Returned)
  ∧ Forall silent (trace py_repr w normalize select_image source).
Proof.
  intros Hp Htitle Hup.
  assert (execute py_repr w normalize select_image source
          = ((prepare py_repr w normalize select_image source).1
             ++ [Commit p.1.1.1 true], inr Returned)) as Hexec.
  { unfold execute.
    destruct (prepare py_repr w normalize select_image source) as [tr r].
    simpl in Hp. subst r.
    pose proof (commit_cases w source p.1.1.1) as Hcommit. rewrite Hup in Hcommit.
    unfold mbind, run_mbind, run_bind. rewrite Hcommit.
    unfold deliver. by rewrite Htitle. }
  split; [done|].
  unfold trace. rewrite Hexec. apply Forall_app. split.
  - apply prepare_silent.
  - apply Forall_singleton, commit_event_silent.
Qed.

Lemma no_commit_nil (l : list event) :
  Forall (λ ev, is_commit ev = false) l →
  filter (λ ev, is_commit ev = true) l = [].
Proof.
  induction 1 as [|ev l Hev _ IH]; [done|].
  rewrite filter_cons_False; [done|]. by rewrite Hev.
Qed.

Lemma prefix_Forall {A} (P : A → Prop) (l1 l2 : list A) :
  l1 `prefix_of` l2 → Forall P l2 → Forall P l1.
Proof. intros [k ->] H. by apply Forall_app in H as [? _]. Qed.

Lemma prepare_no_commit :
  Forall (λ ev, is_commit ev = false)
    (prepare py_repr w normalize select_image source).1.
Proof.
  unfold prepare, fetch_record, record_id, enrich, pick_params, attach_image,
    resolve_targets.
  repeat trace_step.
Qed.

Lemma push_to_group_no_commit grp params :
  Forall (λ ev, is_commit ev = false) (_push_to_group w grp params).1.
Proof.
  eapply prefix_Forall; [apply push_to_group_prefix|].
  unfold full_group_delivery. destruct grp as [|t ts]; [constructor|].
  constructor; [done|]. unfold group_rounds.
  apply Forall_forall. intros ev (g & Hev & _)%list_elem_of_bind.
  apply elem_of_cons in Hev as [->|Hev]; [done|].
  by apply list_elem_of_singleton in Hev as ->.
Qed.

Lemma do_push_no_commit priv grp params is_merged :
  Forall (λ ev, is_commit ev = false) (_do_push w priv grp params is_merged).1.
Proof.
  unfold _do_push, _push_to_private.
  repeat first [ apply push_to_group_no_commit | trace_step ].
Qed.

Lemma deliver_no_commit params priv grp :
  Forall (λ ev, is_commit ev = false) (deliver py_repr w params priv grp).1.
Proof.
  unfold deliver, delayed_push.
  repeat first [ apply do_push_no_commit | trace_step ].
Qed.

(** X24.  A run attempts the commit at most once, and only for the id
    of the record it fetched; the attempt is logged as accepted exactly
    when the store accepted the upsert. *)
Theorem single_commit :
  let tr := trace py_repr w normalize select_image source in
  (length (filter (λ ev, is_commit ev = true) tr) ≤ 1)%nat
  ∧ ∀ id ok, Commit id ok ∈ tr →
      ∃ d, unsent_record w source = Ok (Some d) ∧ id = get d "id"
           ∧ (ok = true ↔ upsert_sent w source id = Ok tt).
Proof.
  intros tr. subst tr. unfold trace, execute.
  pose proof prepare_no_commit as Hprep.
  rewrite bind_trace.
  destruct (prepare py_repr w normalize select_image source).2 as [p|how] eqn:Hp.
  - destruct (prepare_result py_repr w normalize select_image source p Hp)
      as (d & Hd & Hid).
    rewrite bind_trace.
    pose proof (commit_cases w source p.1.1.1) as Hcommit.
    pose proof (deliver_no_commit p.1.1.2 p.1.2 p.2) as Hdel.
    assert (∃ ok rest,
              (commit w source p.1.1.1).1 = [Commit p.1.1.1 ok]
              ∧ (ok = true ↔ upsert_sent w source p.1.1.1 = Ok tt)
              ∧ Forall (λ ev, is_commit ev = false) rest
              ∧ match (commit w source p.1.1.1).2 with
                | inl a => (deliver py_repr w p.1.1.2 p.1.2 p.2).1
                | inr _ => []
                end = rest) as (ok & rest & Hc & Hok & Hrest & ->).
    { destruct (upsert_sent w source p.1.1.1) as [[]|e']; rewrite Hcommit; simpl.
      - exists true, (deliver py_repr w p.1.1.2 p.1.2 p.2).1. by repeat split.
      - exists false, []. by repeat split. }
    rewrite Hc. split.
    + rewrite !filter_app, (no_commit_nil _ Hprep), (no_commit_nil _ Hrest).
      rewrite filter_cons_True; [|done]. simpl. lia.
    + intros id ok' Hin. exists d. split; [done|].
      apply elem_of_app in Hin as [Hin|Hin].
      { eapply Forall_forall in Hprep; [|exact Hin]. done. }
      apply elem_of_app in Hin as [Hin|Hin].
      * apply list_elem_of_singleton in Hin. injection Hin as -> ->.
        by rewrite <- Hid.
      * eapply Forall_forall in Hrest; [|exact Hin]. done.
  - rewrite app_nil_r. split.
    + rewrite (no_commit_nil _ Hprep). simpl. lia.
    + intros id ok Hin. eapply Forall_forall in Hprep; [|exact Hin]. done.
Qed.

End ManagerMore.

Lemma get_tmdb_id_cases_witness :
  PushManager._get_tmdb_id ManagerSpec.record_without_reference = Ok None
  ∧ PushManager._get_tmdb_id ∅ = Raise (AppError "TmdbIdFetchError").
Proof.
  destruct (get_tmdb_id_cases ManagerSpec.record_without_reference) as [_ Hsome].
  destruct (get_tmdb_id_cases ∅) as [Hempty _].
  split.
  - rewrite Hsome; [reflexivity|]. apply insert_non_empty.
  - by apply Hempty.
Defined.

Lemma pushtarget_conflate_spec_witness :
  NoDup ["10002"]
  ∧ NoDup ["7002"; "7001"; "7003"]
  ∧ ("7003" ∈ ["7002"; "7001"; "7003"]
     ↔ "7003" ∈ PushManager.group_targets ManagerSpec.idle_world EMBY).
Proof.
  destruct (pushtarget_conflate_spec MergeSpec.no_repr ManagerSpec.idle_world EMBY
              ManagerSpec.params_with_subscribers ["10002"]
              [("7002", VList []); ("7001", VList [VStr "10001"]); ("7003", VList [])])
    as (Hprivate & _ & Hgroups & Hkeys & _).
  - reflexivity.
  - split; [exact Hprivate|]. split; [exact Hgroups|]. apply Hkeys.
Defined.

Lemma group_failure_skips_later_groups_witness :
  PushManager._push_to_group ManagerSpec.idle_world
    [("7001", VList []); ("7002", VList []); ("7003", VList [])] ∅
  = ([PushManager.RenderBase;
      PushManager.RenderAt "7001"; PushManager.SendGroup "7001";
      PushManager.RenderAt "7002"; PushManager.SendGroup "7002"], inl tt).
Proof.
  apply (group_failure_skips_later_groups ManagerSpec.idle_world
           [("7001", VList [])] "7002" (VList []) [("7003", VList [])] ∅ OtherError).
  - by exists "base".
  - intros p. by exists "at".
  - intros m g' Hin. apply list_elem_of_singleton in Hin as ->. by exists tt.
  - intros m. reflexivity.
Defined.

Lemma execute_escape_sources_witness :
  PushManager.default_anime ManagerSpec.private_down = Raise OtherError
  ∨ ∃ p, (PushManager.prepare MergeSpec.no_repr ManagerSpec.private_down
            PushManager.sample_normalize PushManager.sample_select_image EMBY).2
         = inl p
         ∧ PushManager.upsert_sent ManagerSpec.private_down EMBY p.1.1.1 = Ok tt
         ∧ ((truthy (get p.1.1.2 "media_type") = true
             ∧ is_str (get p.1.1.2 "media_type") = false ∧ OtherError = AttributeError)
            ∨ ∃ message,
                PushManager.render_all ManagerSpec.private_down p.1.1.2 = Ok message
                ∧ PushManager.private_msg_pusher ManagerSpec.private_down message p.1.2
                  = Raise OtherError).
Proof.
  apply (execute_escape_sources MergeSpec.no_repr ManagerSpec.private_down
           PushManager.sample_normalize PushManager.sample_select_image EMBY OtherError).
  reflexivity.
Defined.

Lemma untitled_event_is_lost_witness :
  PushManager.execute MergeSpec.no_repr (PushManager.sample_world true)
    ManagerSpec.untitled_normalize PushManager.sample_select_image EMBY
  = ([PushManager.SelectUnsent; PushManager.SelectAnime 209867; PushManager.Pick;
      PushManager.SelectImage; PushManager.Commit (VInt 7) true], inr PushManager.Returned)
  ∧ Forall PushManager.silent
      (PushManager.trace MergeSpec.no_repr (PushManager.sample_world true)
         ManagerSpec.untitled_normalize PushManager.sample_select_image EMBY).
Proof.
  assert (∃ p, (PushManager.prepare MergeSpec.no_repr (PushManager.sample_world true)
                  ManagerSpec.untitled_normalize PushManager.sample_select_image EMBY).2
               = inl p
               ∧ truthy (get p.1.1.2 "title") = false
               ∧ PushManager.upsert_sent (PushManager.sample_world true) EMBY p.1.1.1
                 = Ok tt) as (p & Hp & Htitle & Hup).
  { eexists. split; [reflexivity|]. split; reflexivity. }
  destruct (untitled_event_is_lost MergeSpec.no_repr (PushManager.sample_world true)
              ManagerSpec.untitled_normalize PushManager.sample_select_image EMBY
              p Hp Htitle Hup) as [_ Hsilent].
  split; [reflexivity|exact Hsilent].
Defined.

Lemma single_commit_witness :
  ∃ d, PushManager.unsent_record (PushManager.sample_world false) EMBY = Ok (Some d)
       ∧ VInt 7 = get d "id"
       ∧ (false = true
          ↔ PushManager.upsert_sent (PushManager.sample_world false) EMBY (VInt 7)
            = Ok tt).
Proof.
  destruct (single_commit MergeSpec.no_repr (PushManager.sample_world false)
              PushManager.sample_normalize PushManager.sample_select_image EMBY)
    as [_ Hcommit].
  apply Hcommit. apply list_elem_of_lookup. by exists 4%nat.
Defined.

(** ** The statement generator *)

Section GeneratorMore.
Import StatementGenerator.
Variable table_keys : TableName → list string.
Variable is_primary : TableName → string → bool.

Lemma lstrip_nonspace c s : is_space c = false → lstrip (String c s) = String c s.
Proof. intros H. simpl. by rewrite H. Qed.

Lemma rstrip_app_keep a b : rstrip b ≠ "" → rstrip (a +:+ b) = a +:+ rstrip b.
Proof.
  intros Hb. induction a as [|c a IH]; [done|].
  simpl. rewrite IH.
  change (String c a +:+ rstrip b) with (String c (a +:+ rstrip b)).
  destruct (a +:+ rstrip b) eqn:Heq; [|done].
  destruct a; simpl in Heq; [done|discriminate].
Qed.

Lemma valid_columns_shape keys (data1 data2 : list (string * value)) :
  shape data1 = shape data2 → valid_columns keys data1 = valid_columns keys data2.
Proof.
  unfold shape, valid_columns. revert data2.
  induction data1 as [|[k1 v1] data1 IH]; intros [|[k2 v2] data2] Heq; try done.
  injection Heq as -> Hv Heq. simpl in Hv.
  rewrite !filter_cons. cbn [fst snd]. rewrite Hv.
  destruct (decide (is_none v2 = false ∧ k2 ∈ keys));
    rewrite ?fmap_cons; [f_equal|]; by apply IH.
Qed.

Lemma filter_ext_in {A} (P1 P2 : A → Prop) `{!∀ x, Decision (P1 x)}
    `{!∀ x, Decision (P2 x)} (l : list A) :
  (∀ x, x ∈ l → P1 x ↔ P2 x) → filter P1 l = filter P2 l.
Proof.
  induction l as [|x l IH]; intros Hext; [done|].
  rewrite !filter_cons.
  assert (filter P1 l = filter P2 l) as ->.
  { apply IH. intros y Hy. apply Hext. by right. }
  assert (P1 x ↔ P2 x) as Hx by (apply Hext; by left).
  destruct (decide (P1 x)), (decide (P2 x)); tauto.
Qed.

Lemma upsert_columns table_name data conflict_column :
  generate_upsert_statement table_keys is_primary table_name data conflict_column
  = let columns := valid_columns (table_keys table_name) data in
    if bool_decide (columns = []) then Raise (AppError "InvalidParameter")
    else
      let sql :=
        "INSERT INTO " +:+ TableName_value table_name
        +:+ " (" +:+ join ", " columns
        +:+ ") VALUES (" +:+ join ", " ((λ col, ":" +:+ col) <$> columns) +:+ ")" in
      match conflict_column with
      | Some c =>
          if String.eqb c "" then Ok (strip sql)
          else if bool_decide (c ∉ columns) then Raise (AppError "InvalidParameter")
          else
            Ok (strip (sql +:+ " ON CONFLICT (" +:+ c +:+ ") DO UPDATE SET "
                       +:+ join ", "
                             ((λ col, col +:+ "=excluded." +:+ col)
                              <$> filter (λ col, col ≠ c ∧ is_primary table_name col = false)
                                    columns)))
      | None => Ok (strip sql)
      end.
Proof.
  unfold generate_upsert_statement. fold (valid_columns (table_keys table_name) data).
  cbv zeta.
  destruct (bool_decide (valid_columns (table_keys table_name) data = [])); [done|].
  destruct conflict_column as [c|]; [|done].
  destruct (String.eqb c ""); [done|].
  assert (∀ col, col ∈ valid_columns (table_keys table_name) data →
                 col ∈ table_keys table_name) as Hsub.
  { intros col. unfold valid_columns. rewrite list_elem_of_fmap.
    intros ([k v] & -> & Hin). apply list_elem_of_filter in Hin as [[_ Hk] _]. done. }
  destruct (bool_decide (c ∉ valid_columns (table_keys table_name) data)) eqn:Hc.
  - by destruct (bool_decide (c ∉ table_keys table_name)).
  - apply bool_decide_eq_false in Hc. apply dec_stable in Hc.
    rewrite bool_decide_eq_false_2; [|by intros Hn; apply Hn, Hsub].
    do 8 f_equal. apply filter_ext_in.
    intros col Hcol. split.
    + intros [Hne Hp]. split; [done|].
      destruct (is_primary table_name col) eqn:Hprim; [|done].
      exfalso. apply Hp. apply list_elem_of_filter. split; [done|by apply Hsub].
    + intros [Hne Hp]. split; [done|]. intros Hin.
      apply list_elem_of_filter in Hin as [Hin _]. congruence.
Qed.

(** X25.  An upsert statement is generated exactly when some field of
    the data is a column of the table with a value that is not null
    and, if a conflict column is named, it is one of those fields;
    every refusal is an invalid-parameter error. *)
Theorem upsert_returns_iff table_name data conflict_column :
  let columns := valid_columns (table_keys table_name) data in
  (returns (generate_upsert_statement table_keys is_primary table_name data
              conflict_column)
   ↔ columns ≠ []
     ∧ (∀ c, conflict_column = Some c → c = "" ∨ c ∈ columns))
  ∧ (∀ e, generate_upsert_statement table_keys is_primary table_name data
            conflict_column = Raise e → e = AppError "InvalidParameter").
Proof.
  intros columns. rewrite upsert_columns. cbv zeta. fold columns.
  destruct (bool_decide (columns = [])) eqn:Hcols.
  { apply bool_decide_eq_true in Hcols. split.
    - split; [by intros [? ?]|by intros [? _]].
    - by intros e [= <-]. }
  apply bool_decide_eq_false in Hcols.
  destruct conflict_column as [c|].
  - destruct (String.eqb c "") eqn:Hempty.
    + apply String.eqb_eq in Hempty as ->. split; [|done].
      split; [|by eexists]. intros _. split; [done|]. intros c [= <-]. by left.
    + apply String.eqb_neq in Hempty.
      destruct (bool_decide (c ∉ columns)) eqn:Hc.
      * apply bool_decide_eq_true in Hc. split; [|by intros e [= <-]].
        split; [by intros [? ?]|]. intros [_ H]. by destruct (H c eq_refl).
      * apply bool_decide_eq_false in Hc. apply dec_stable in Hc.
        split; [|done]. split; [|by eexists]. intros _. split; [done|].
        intros c' [= <-]. by right.
  - split; [|done]. split; [|by eexists]. intros _. by split.
Qed.

(** X26.  No value of the data reaches the text of an upsert, and no
    value of the conditions the text of a select: the upsert depends on
    the data only through its keys and which of them hold null, the
    select on the conditions only through their keys. *)
Theorem statements_carry_no_values table_name :
  (∀ data1 data2 conflict_column,
     shape data1 = shape data2 →
     generate_upsert_statement table_keys is_primary table_name data1 conflict_column
     = generate_upsert_statement table_keys is_primary table_name data2 conflict_column)
  ∧ (∀ columns where1 where2 order_by order_type limit offset,
       where1.*1 = where2.*1 →
       generate_select_statement table_keys table_name columns (Some where1)
         order_by order_type limit offset
       = generate_select_statement table_keys table_name columns (Some where2)
           order_by order_type limit offset).
Proof.
  split.
  - intros data1 data2 c Heq. rewrite !upsert_columns.
    by rewrite (valid_columns_shape _ _ _ Heq).
  - intros columns where1 where2 order_by order_type limit offset Heq.
    unfold generate_select_statement.
    assert (∀ sql, where_clause table_keys table_name sql (Some where1)
                   = where_clause table_keys table_name sql (Some where2)) as Hwhere.
    { intros sql. unfold where_clause.
      assert (∀ w1 w2 : list (string * value), w1.*1 = w2.*1 →
                (filter (λ kv, kv.1 ∈ table_keys table_name) w1).*1
                = (filter (λ kv, kv.1 ∈ table_keys table_name) w2).*1) as Hkeys.
      { clear. induction w1 as [|[k1 v1] w1 IH]; intros [|[k2 v2] w2] Heq; try done.
        injection Heq as -> Heq. rewrite !filter_cons. cbn [fst].
        destruct (decide (k2 ∈ table_keys table_name));
          rewrite ?fmap_cons; [f_equal|]; by apply IH. }
      specialize (Hkeys where1 where2 Heq).
      assert (∀ w : list (string * value),
                (λ kv : string * value, kv.1 +:+ " = :" +:+ kv.1) <$> w
                = (λ k, k +:+ " = :" +:+ k) <$> w.*1) as Hcond.
      { intros w0. by rewrite <- list_fmap_compose. }
      assert (∀ w : list (string * value),
                bool_decide (w = []) = bool_decide (w.*1 = [])) as Hnil.
      { intros [|? ?]; apply bool_decide_ext; by split. }
      destruct where1 as [|kv1 where1], where2 as [|kv2 where2]; try done.
      cbv zeta. by rewrite !Hcond, !Hnil, Hkeys. }
    destruct (column_clause table_keys table_name columns); [|done].
    cbn [mbind result_bind bind]. by rewrite Hwhere.
Qed.

Lemma returns_bind {A B} (m : result A) (k : A → result B) :
  returns (m ≫= k) ↔ ∃ a, m = Ok a ∧ returns (k a).
Proof.
  destruct m as [a|e]; simpl.
  - split; [intros H; by exists a|by intros (? & [= <-] & ?)].
  - split; [by intros [? ?]|by intros (? & ? & ?)].
Qed.

Lemma filter_keys_nil {A} (keys : list string) (f : A → string) (l : list A) :
  bool_decide (filter (λ x, f x ∈ keys) l = []) = false
  ↔ ∃ x, x ∈ l ∧ f x ∈ keys.
Proof.
  rewrite bool_decide_eq_false. split.
  - intros Hne. destruct (filter _ l) as [|x r] eqn:Hf; [done|].
    exists x.
    assert (x ∈ filter (λ x, f x ∈ keys) l) as Hx by (rewrite Hf; by left).
    by apply list_elem_of_filter in Hx as [? ?].
  - intros (x & Hin & Hk) Hf.
    assert (x ∈ filter (λ x, f x ∈ keys) l) as Hx by by apply list_elem_of_filter.
    rewrite Hf in Hx. by apply elem_of_nil in Hx.
Qed.

Lemma column_clause_returns table_name columns :
  returns (column_clause table_keys table_name columns)
  ↔ (columns = None ∨ columns = Some []
     ∨ ∃ cols col, columns = Some cols ∧ col ∈ cols ∧ col ∈ table_keys table_name).
Proof.
  unfold column_clause. destruct columns as [[|col cols]|].
  - split; [by right; left|by eexists].
  - destruct (bool_decide (filter _ (col :: cols) = [])) eqn:Hf.
    + split; [by intros [? ?]|].
      intros [?|[?|(cols' & x & [= <-] & Hin & Hk)]]; try done.
      exfalso. apply not_false_iff_true in Hf. apply Hf.
      apply (filter_keys_nil _ id). by exists x.
    + split; [|by eexists]. intros _. right; right.
      apply (filter_keys_nil _ id) in Hf as (x & Hin & Hk). by exists (col :: cols), x.
  - split; [by left|by eexists].
Qed.

Lemma where_clause_returns table_name sql where_ :
  returns (where_clause table_keys table_name sql where_)
  ↔ (where_ = None ∨ where_ = Some []
     ∨ ∃ wh kv, where_ = Some wh ∧ kv ∈ wh ∧ kv.1 ∈ table_keys table_name).
Proof.
  unfold where_clause. destruct where_ as [[|kv wh]|].
  - split; [by right; left|by eexists].
  - destruct (bool_decide (filter _ (kv :: wh) = [])) eqn:Hf.
    + split; [by intros [? ?]|].
      intros [?|[?|(wh' & x & [= <-] & Hin & Hk)]]; try done.
      exfalso. apply not_false_iff_true in Hf. apply Hf.
      apply (filter_keys_nil _ fst). by exists x.
    + split; [|by eexists]. intros _. right; right.
      apply (filter_keys_nil _ fst) in Hf as (x & Hin & Hk). by exists (kv :: wh), x.
  - split; [by left|by eexists].
Qed.

Lemma order_clause_returns table_name sql order_by order_type :
  returns (order_clause table_keys table_name sql order_by order_type)
  ↔ (order_by = None ∨ order_by = Some ""
     ∨ ∃ ob, order_by = Some ob ∧ ob ∈ table_keys table_name
         ∧ (order_type = Some "ASC" ∨ order_type = Some "DESC")).
Proof.
  unfold order_clause. destruct order_by as [ob|]; [|split; [by left|by eexists]].
  destruct (String.eqb ob "") eqn:Hob.
  { apply String.eqb_eq in Hob as ->. split; [by right; left|by eexists]. }
  apply String.eqb_neq in Hob.
  destruct (bool_decide (ob ∉ table_keys table_name)) eqn:Hk.
  { apply bool_decide_eq_true in Hk. split; [by intros [? ?]|].
    intros [?|[[= ?]|(ob' & [= <-] & Hin & _)]]; done. }
  apply bool_decide_eq_false in Hk. apply dec_stable in Hk.
  destruct order_type as [ot|].
  - destruct (bool_decide (ot ∉ ["ASC"; "DESC"])) eqn:Hot.
    + apply bool_decide_eq_true in Hot. split; [by intros [? ?]|].
      intros [?|[[= ?]|(ob' & [= <-] & _ & [[= ->]|[= ->]])]]; try done.
      * exfalso. apply Hot. by left.
      * exfalso. apply Hot. right. by left.
    + apply bool_decide_eq_false in Hot. apply dec_stable in Hot.
      split; [|by eexists]. intros _. right; right. exists ob.
      split; [done|]. split; [done|].
      apply elem_of_cons in Hot as [->|Hot]; [by left|].
      apply list_elem_of_singleton in Hot as ->. by right.
  - split; [by intros [? ?]|].
    intros [?|[[= ?]|(ob' & _ & _ & [?|?])]]; done.
Qed.

Lemma page_clause_returns sql limit offset :
  returns (page_clause sql limit offset)
  ↔ (∀ l, limit = Some l → 0 < l ∧ ∀ o, offset = Some o → 0 <= o).
Proof.
  unfold page_clause. destruct limit as [l|]; [|split; [done|by eexists]].
  destruct (l <=? 0) eqn:Hl.
  { split; [by intros [? ?]|]. intros H. destruct (H l eq_refl). lia. }
  destruct offset as [o|].
  - destruct (o <? 0) eqn:Ho.
    + split; [by intros [? ?]|]. intros H. destruct (H l eq_refl) as [_ H'].
      specialize (H' o eq_refl). lia.
    + split; [|by eexists]. intros _ l' [= <-]. split; [lia|].
      intros o' [= <-]. lia.
  - split; [|by eexists]. intros _ l' [= <-]. split; [lia|done].
Qed.

(** X27.  A select statement is generated exactly when the column list
    is empty or names a column of the table, the conditions are empty
    or name one, the sort column (if any) is a column of the table with
    a direction of ASC or DESC, the limit (if any) is positive and the
    offset given with a limit is not negative.  An offset without a
    limit is neither checked nor written. *)
Theorem select_returns_iff table_name columns where_ order_by order_type limit offset :
  (returns (generate_select_statement table_keys table_name columns where_
              order_by order_type limit offset)
   ↔ select_accepted (table_keys table_name) columns where_
       order_by order_type limit offset)
  ∧ generate_select_statement table_keys table_name columns where_
      order_by order_type None offset
    = generate_select_statement table_keys table_name columns where_
        order_by order_type None None.
Proof.
  split; [|done].
  unfold generate_select_statement, select_accepted.
  rewrite returns_bind.
  setoid_rewrite returns_bind. setoid_rewrite returns_bind.
  setoid_rewrite returns_bind.
  pose proof (column_clause_returns table_name columns) as Hcols.
  split.
  - intros (clause & Hclause & sql1 & Hwhere & sql2 & Horder & sql3 & Hpage & _).
    split; [apply Hcols; by eexists|].
    split; [eapply where_clause_returns; by eexists|].
    split; [eapply order_clause_returns; by eexists|].
    eapply page_clause_returns; by eexists.
  - intros (Hc & Hw & Ho & Hp).
    apply Hcols in Hc as [clause Hclause].
    exists clause. split; [done|].
    eapply where_clause_returns in Hw as [sql1 Hsql1].
    exists sql1. split; [exact Hsql1|].
    eapply order_clause_returns in Ho as [sql2 Hsql2].
    exists sql2. split; [exact Hsql2|].
    eapply page_clause_returns in Hp as [sql3 Hsql3].
    exists sql3. split; [exact Hsql3|]. by eexists.
Qed.

Lemma string_app_assoc (a b c : string) : (a +:+ b) +:+ c = a +:+ b +:+ c.
Proof.
  induction a as [|x a IH]; [done|].
  change ((String x a +:+ b) +:+ c) with (String x ((a +:+ b) +:+ c)).
  change (String x a +:+ b +:+ c) with (String x (a +:+ b +:+ c)).
  by rewrite IH.
Qed.

Lemma rstrip_app_nonempty a b :
  rstrip b ≠ "" → rstrip (a +:+ b) = a +:+ rstrip b ∧ rstrip (a +:+ b) ≠ "".
Proof.
  intros Hb. rewrite (rstrip_app_keep a b Hb). split; [done|].
  destruct a; [done|discriminate].
Qed.

Lemma filter_none {A} (P : A → Prop) `{!∀ x, Decision (P x)} (l : list A) :
  (∀ x, x ∈ l → ¬ P x) → filter P l = [].
Proof.
  induction l as [|x l IH]; intros Hnot; [done|].
  rewrite filter_cons_False; [|apply Hnot; by left].
  apply IH. intros y Hy. apply Hnot. by right.
Qed.

(** X28.  When every column of an upsert is the conflict column or a
    primary key, the generated statement is the plain insert followed
    by a conflict clause whose assignment list is empty: it ends with
    [DO UPDATE SET]. *)
Theorem upsert_empty_update_set table_name data c plain :
  c ≠ "" →
  generate_upsert_statement table_keys is_primary table_name data None = Ok plain →
  c ∈ valid_columns (table_keys table_name) data →
  (∀ col, col ∈ valid_columns (table_keys table_name) data →
     col = c ∨ is_primary table_name col = true) →
  generate_upsert_statement table_keys is_primary table_name data (Some c)
  = Ok (plain +:+ " ON CONFLICT (" +:+ c +:+ ") DO UPDATE SET").
Proof.
  intros Hc Hplain Hin Hall. rewrite upsert_columns in *. cbv zeta in *.
  destruct (bool_decide (valid_columns (table_keys table_name) data = []));
    [done|].
  apply String.eqb_neq in Hc. rewrite Hc.
  rewrite bool_decide_eq_false_2; [|by intros Hn].
  rewrite filter_none.
  2:{ intros col Hcol [Hne Hprim]. destruct (Hall col Hcol); congruence. }
  injection Hplain as <-. f_equal.
  set (cols := join ", " (valid_columns (table_keys table_name) data)).
  set (vals := join ", " ((λ col, ":" +:+ col)
                          <$> valid_columns (table_keys table_name) data)).
  assert (∀ tail, rstrip tail ≠ "" →
            strip ("INSERT INTO " +:+ TableName_value table_name +:+ " (" +:+ cols
                   +:+ ") VALUES (" +:+ vals +:+ tail)
            = "INSERT INTO " +:+ TableName_value table_name +:+ " (" +:+ cols
              +:+ ") VALUES (" +:+ vals +:+ rstrip tail) as Hstrip.
  { intros tail N0. unfold strip.
    change ("INSERT INTO " +:+ ?x) with (String "I" ("NSERT INTO " +:+ x)).
    rewrite lstrip_nonspace; [|done].
    change (String "I" ("NSERT INTO " +:+ ?x)) with ("INSERT INTO " +:+ x).
    destruct (rstrip_app_nonempty vals tail N0) as [H1 N1].
    destruct (rstrip_app_nonempty ") VALUES (" _ N1) as [H2 N2].
    destruct (rstrip_app_nonempty cols _ N2) as [H3 N3].
    destruct (rstrip_app_nonempty " (" _ N3) as [H4 N4].
    destruct (rstrip_app_nonempty (TableName_value table_name) _ N4) as [H5 N5].
    destruct (rstrip_app_nonempty "INSERT INTO " _ N5) as [H6 _].
    by rewrite H6, H5, H4, H3, H2, H1. }
  rewrite (Hstrip ")"); [|done].
  change (rstrip ")") with ")". rewrite fmap_nil, !string_app_assoc.
  assert (rstrip (") DO UPDATE SET " +:+ join ", " []) = ") DO UPDATE SET") as Hset
    by reflexivity.
  assert (rstrip (") DO UPDATE SET " +:+ join ", " []) ≠ "") as N0 by by rewrite Hset.
  destruct (rstrip_app_nonempty c _ N0) as [H1 N1].
  destruct (rstrip_app_nonempty " ON CONFLICT (" _ N1) as [H2 N2].
  destruct (rstrip_app_nonempty ")" _ N2) as [H3 N3].
  rewrite (Hstrip _ N3). by rewrite H3, H2, H1, Hset.
Qed.

End GeneratorMore.

Lemma upsert_empty_update_set_witness :
  StatementGenerator.generate_upsert_statement StatementGenerator.sample_keys
    StatementGenerator.sample_primary EMBY
    [("id", VInt 7); ("note", VStr "seen"); ("title", VNone)] (Some "id")
  = Ok "INSERT INTO EMBY (id) VALUES (:id) ON CONFLICT (id) DO UPDATE SET".
Proof.
  assert (StatementGenerator.valid_columns (StatementGenerator.sample_keys EMBY)
            [("id", VInt 7); ("note", VStr "seen"); ("title", VNone)] = ["id"])
    as Hcols by reflexivity.
  apply (upsert_empty_update_set StatementGenerator.sample_keys
           StatementGenerator.sample_primary EMBY
           [("id", VInt 7); ("note", VStr "seen"); ("title", VNone)] "id"
           "INSERT INTO EMBY (id) VALUES (:id)"); rewrite ?Hcols.
  - done.
  - reflexivity.
  - by apply list_elem_of_singleton.
  - intros col Hcol. apply list_elem_of_singleton in Hcol. by left.
Defined.

Lemma statements_carry_no_values_witness :
  StatementGenerator.generate_upsert_statement StatementGenerator.sample_keys
    StatementGenerator.sample_primary EMBY
    [("id", VInt 7); ("send_status", VInt 1)] (Some "id")
  = StatementGenerator.generate_upsert_statement StatementGenerator.sample_keys
      StatementGenerator.sample_primary EMBY
      [("id", VStr "7; DROP TABLE EMBY"); ("send_status", VBool true)] (Some "id").
Proof.
  destruct (statements_carry_no_values StatementGenerator.sample_keys
              StatementGenerator.sample_primary EMBY) as [Hupsert _].
  by apply Hupsert.
Defined.

(** ** The line renderers *)

Section RendererMore.
Import MessageRenderer.
Variable py_repr : value → string.
Variable convert_image_path_to_base64 : value → result string.

(** X29.  On every line that is neither a mention line nor a merged
    episode line, whenever the single-event line renderer returns, a
    segment or nothing, the merged line renderer returns the same.
    Nothing is said of the lines on which the single-event renderer
    raises. *)
Theorem merged_line_agrees template data r :
  _line_render py_repr convert_image_path_to_base64 template data = Ok r →
  eq_str (get template "type") "at" = false →
  eq_str (get template "type") "merged_episode" = false →
  _line_render_merged py_repr convert_image_path_to_base64 template data = Ok r.
Proof.
  unfold _line_render, _line_render_merged. intros H Hat Hmerged.
  rewrite Hat, Hmerged in *.
  destruct (truthy (get template "content")); [|done].
  destruct (truthy (get template "type")); [|done]. cbn [negb] in *.
  destruct (eq_str (get template "type") "static") eqn:Hstatic; [done|].
  cbn [negb] in H.
  destruct (truthy (get template "field")) eqn:Hfield; [|done]. cbn [negb] in *.
  destruct (entry data (get template "field")) as [found|e]; [|done].
  cbn [mbind result_bind bind] in *.
  destruct (bool_decide (is_Some found)); [|done]. cbn [negb] in H.
  destruct (py_contains _ _) as [[]|e]; try done.
  cbn [mbind result_bind bind negb] in H.
  destruct (eq_str (get template "type") "image"); [|done].
  by destruct (truthy (default VNone found)).
Qed.

Lemma prefix_refl s : String.prefix s s = true.
Proof.
  induction s as [|c s IH]; [done|]. simpl.
  by destruct (ascii_dec c c).
Qed.

Lemma contains_app needle a : contains needle (a +:+ needle) = true.
Proof.
  induction a as [|c a IH].
  - change ("" +:+ needle) with needle.
    destruct needle as [|c needle]; [done|].
    cbn [contains]. by rewrite prefix_refl.
  - change (String c a +:+ needle) with (String c (a +:+ needle)).
    cbn [contains]. rewrite IH. apply orb_true_r.
Qed.

Lemma in_chars_app c a b : in_chars c (a +:+ String c b) = true.
Proof.
  induction a as [|d a IH].
  - change ("" +:+ String c b) with (String c b).
    cbn [in_chars]. by rewrite Ascii.eqb_refl.
  - change (String d a +:+ String c b) with (String d (a +:+ String c b)).
    cbn [in_chars]. rewrite IH. apply orb_true_r.
Qed.

Lemma rstrip_chars_own_suffix s : ∀ a, rstrip_chars (a +:+ s) s = "".
Proof.
  induction s as [|c s IH]; intros a; [done|].
  cbn [rstrip_chars].
  assert (a +:+ String c s = (a +:+ String c "") +:+ s) as Heq.
  { clear. induction a as [|d a IH]; [done|].
    change (String d a +:+ String c s) with (String d (a +:+ String c s)).
    by rewrite IH. }
  rewrite Heq at 1. rewrite IH. by rewrite in_chars_app.
Qed.

Lemma rstrip_chars_app chars a b :
  rstrip_chars chars b = "" → rstrip_chars chars (a +:+ b) = rstrip_chars chars a.
Proof.
  intros Hb. induction a as [|c a IH]; [done|].
  change (String c a +:+ b) with (String c (a +:+ b)).
  cbn [rstrip_chars]. by rewrite IH.
Qed.

(** X30.  A mention line whose content ends with its placeholder puts,
    before one mention per listed user, a line feed and the content
    without its trailing characters that occur in the placeholder:
    the placeholder goes, and with it any braces and letters of the
    field name that the text before it ends with. *)
Theorem mention_line_text template data k before users :
  get template "type" = VStr "at" →
  get template "field" = VStr k → k ≠ "" →
  get template "content" = VStr (before +:+ "{" +:+ k +:+ "}") →
  data !! k = Some (VList users) → users ≠ [] →
  _line_render py_repr convert_image_path_to_base64 template data
  = Ok (Some (Text (newline +:+ rstrip_chars ("{" +:+ k +:+ "}") before)
              :: (At <$> users))).
Proof.
  intros Htype Hfield Hk Hcontent Hdata Husers.
  unfold _line_render. rewrite Htype, Hfield, Hcontent.
  unfold placeholder_of. cbn [py_str entry]. rewrite Hdata.
  assert (truthy (VStr (before +:+ "{" +:+ k +:+ "}")) = true) as ->.
  { cbn [truthy]. destruct before; [done|done]. }
  assert (truthy (VStr k) = true) as ->.
  { cbn [truthy]. by destruct k. }
  cbn [truthy eq_str negb String.eqb Ascii.eqb Bool.eqb mbind result_bind bind
       py_contains].
  rewrite (contains_app ("{" +:+ k +:+ "}") before).
  cbn [negb bool_decide mbind result_bind bind default py_or truthy].
  rewrite bool_decide_eq_true_2; [|by eexists].
  cbn [negb]. destruct users as [|u users]; [done|].
  cbn [truthy py_rstrip mbind result_bind bind PushManager.py_iter].
  rewrite rstrip_chars_app; [done|].
  apply (rstrip_chars_own_suffix _ "").
Qed.

End RendererMore.

Lemma mention_line_text_witness :
  MessageRenderer._line_render MergeSpec.no_repr MessageRenderer.no_conversion
    MessageRenderer.chat_line MessageRenderer.sample_data
  = Ok (Some [MessageRenderer.Text (MessageRenderer.newline +:+ "Ch");
              MessageRenderer.At (VInt 10001); MessageRenderer.At (VStr "10002")]).
Proof.
  apply (mention_line_text MergeSpec.no_repr MessageRenderer.no_conversion
           MessageRenderer.chat_line MessageRenderer.sample_data "at" "Chat"
           [VInt 10001; VStr "10002"]); done.
Defined.

Lemma merged_line_agrees_witness :
  MessageRenderer._line_render_merged MergeSpec.no_repr MessageRenderer.no_conversion
    MessageRenderer.score_line MessageRenderer.sample_data
  = Ok (Some [MessageRenderer.Text ("score 8 (8/10)" +:+ MessageRenderer.newline)]).
Proof.
  apply (merged_line_agrees MergeSpec.no_repr MessageRenderer.no_conversion
           MessageRenderer.score_line MessageRenderer.sample_data); reflexivity.
Defined.
